(** * Noguchi numbered-ticket application: slot building, ticket creation,
      identifier generation, CSV export/import and settings merge.

    Shallow embedding of [script.js].  Conventions used throughout:

    - JavaScript strings are [string]; the characters the code inspects
      (double quote, comma, CR, LF, white space) are single code units.
    - A dayjs instant is an integer number of minutes ([Z]); the ISO
      text of an instant ([toISOString]) is represented by the instant
      itself, so [startISO], [endISO], [slotStartISO], [slotEndISO] are
      [Z].  [dayjs(text)] (an external library) is a parameter of the
      slot builder; [None] stands for an invalid date.
    - [Math.random()] is the sample [k / 2^53] with [0 <= k < 2^53]; the
      successive samples form a stream indexed by the number of calls
      made so far, and the product of a sample by a whole number is
      rounded to a double as the machine does.  [new Date().toISOString()] is a stream of texts
      indexed likewise.
    - The two unbounded loops of the program ([while] in [buildSlots],
      [do ... while] in [randTicketId]) take a step budget; the value
      [None] / [Diverge] means that the budget was exhausted.
    - [slotMinutes] and [slotCapacity] are whole numbers, as in the
      default settings; a fraction typed into the admin number fields,
      which the program stores as it is, is not a value of the settings
      record here.  Rendering, local
      storage, notifications, timers and file download are left out:
      [exportCSV] is the text it hands to [downloadFile], and a React
      state setter is the assignment of the new value. *)

From Stdlib Require Import ZArith Lia Ascii String DecimalString DecimalNat.
From stdpp Require Import gmap strings list fin_maps sorting.

Local Open Scope Z_scope.

(** ** Text helpers shared by the whole program *)

Module Text.

Definition quote : ascii := Ascii.ascii_of_nat 34.
Definition comma : ascii := ","%char.
Definition LF : ascii := Ascii.ascii_of_nat 10.
Definition CR : ascii := Ascii.ascii_of_nat 13.

Fixpoint replicate_char (n : nat) (c : ascii) : string :=
  match n with
  | O => EmptyString
  | S k => String c (replicate_char k c)
  end.

(** [s.padStart(n, c)] for a one-character pad text. *)
Definition padStart (n : nat) (c : ascii) (s : string) : string :=
  replicate_char (n - String.length s) c +:+ s.

(** [String(n)] for a non-negative integer. *)
Definition String_of_nat (n : nat) : string :=
  NilZero.string_of_uint (Nat.to_uint n).

(** The number a text of decimal digits stands for. *)
Definition readDecimal (s : string) : option nat :=
  option_map Nat.of_uint (NilEmpty.uint_of_string s).

(** [xs.join(sep)] *)
Fixpoint join (sep : string) (xs : list string) : string :=
  match xs with
  | [] => EmptyString
  | [x] => x
  | x :: rest => x +:+ sep +:+ join sep rest
  end.

(** Truthiness of a text: [Boolean(s)]. *)
Definition truthy (s : string) : bool :=
  match s with EmptyString => false | _ => true end.

(** [a || d] where [a] may be [undefined] ([None]) or a text. *)
Definition or_else (a : option string) (d : string) : string :=
  match a with
  | Some s => if truthy s then s else d
  | None => d
  end.

(** [xs[i]] for a JavaScript index, [undefined] out of range
    (in particular at [-1]). *)
Definition js_nth (xs : list string) (i : Z) : option string :=
  if i <? 0 then None else xs !! Z.to_nat i.

(** [xs.indexOf(x)]: first position, [-1] when absent. *)
Fixpoint indexOf (x : string) (xs : list string) : Z :=
  match xs with
  | [] => -1
  | y :: rest =>
      if String.eqb y x then 0
      else let r := indexOf x rest in if r <? 0 then -1 else r + 1
  end.

(** JavaScript white space and line terminators among 8-bit code units:
    TAB, LF, VT, FF, CR, SPACE, NBSP. *)
Definition isWhite (c : ascii) : bool :=
  let n := Ascii.nat_of_ascii c in
  ((9 <=? n)%nat && (n <=? 13)%nat) || (n =? 32)%nat || (n =? 160)%nat.

Fixpoint trimStart (s : string) : string :=
  match s with
  | EmptyString => EmptyString
  | String c s' => if isWhite c then trimStart s' else s
  end.

Fixpoint trimEnd (s : string) : string :=
  match s with
  | EmptyString => EmptyString
  | String c s' =>
      match trimEnd s' with
      | EmptyString => if isWhite c then EmptyString else String c EmptyString
      | r => String c r
      end
  end.

(** [s.trim()] *)
Definition trim (s : string) : string := trimEnd (trimStart s).

Fixpoint allWhite (s : string) : bool :=
  match s with
  | EmptyString => true
  | String c s' => isWhite c && allWhite s'
  end.

Fixpoint noLF (s : string) : bool :=
  match s with
  | EmptyString => true
  | String c s' => negb (Ascii.eqb c LF) && noLF s'
  end.

Fixpoint noComma (s : string) : bool :=
  match s with
  | EmptyString => true
  | String c s' => negb (Ascii.eqb c comma) && noComma s'
  end.

Fixpoint noQuote (s : string) : bool :=
  match s with
  | EmptyString => true
  | String c s' => negb (Ascii.eqb c quote) && noQuote s'
  end.

(** Whether the last character of a text is CR. *)
Fixpoint endsWithCR (s : string) : bool :=
  match s with
  | EmptyString => false
  | String c s' =>
      match s' with
      | EmptyString => Ascii.eqb c CR
      | String _ _ => endsWithCR s'
      end
  end.

End Text.

(** ** Data shapes *)

Record Schedule := mkSchedule {
  date : string;
  start : string;
  end_ : string
}.

Record Settings := mkSettings {
  eventTitle : string;
  location : string;
  slotMinutes : Z;
  slotCapacity : Z;
  reminderMinutesBefore : Z;
  adminPin : string;
  schedule : Schedule
}.

Module Slot.
Record t := mk {
  id : string;
  label : string;
  startISO : Z;
  endISO : Z
}.
End Slot.

Module Ticket.
Record t := mk {
  id : string;
  name : string;
  contact : string;
  slotId : string;
  slotStartISO : Z;
  slotEndISO : Z;
  createdAtISO : string;
  notified : bool
}.
End Ticket.

(** ** Slot builder *)

Module SlotBuilder.

(** [d.format("HH:mm")] for an instant counted in minutes.  The library
    writes the time of day of the browser's zone; the zone is taken here
    to keep one offset, counted into the instant, so that the time of
    day is the instant modulo one day.  Across a clock change of the
    zone the library's digits differ from these. *)
Definition two_digits (n : Z) : string :=
  Text.padStart 2 "0"%char (Text.String_of_nat (Z.to_nat n)).

Definition format_HHmm (t : Z) : string :=
  two_digits ((t / 60) mod 24) +:+ ":" +:+ two_digits (t mod 60).

Definition slot_id (d : string) (idx : nat) : string :=
  d +:+ "-" +:+ Text.padStart 3 "0"%char (Text.String_of_nat idx).

Definition slot_label (s e : Z) : string :=
  format_HHmm s +:+ "-" +:+ format_HHmm e.

(** [a.isBefore(b)]; false as soon as one side is an invalid date. *)
Definition isBefore (a b : option Z) : bool :=
  match a, b with
  | Some x, Some y => x <? y
  | _, _ => false
  end.

(** The texts handed to the library: date, a space, a time of day. *)
Definition start_text (st : Settings) : string :=
  date (schedule st) +:+ " " +:+ start (schedule st).
Definition end_text (st : Settings) : string :=
  date (schedule st) +:+ " " +:+ end_ (schedule st).

Section WithDayjs.

(** [dayjs(text)]: the instant denoted by a text such as
    "2025-10-31 09:00". *)
Variable dayjs : string -> option Z.

(** The [while (t.isBefore(end))] loop; [t] is a valid instant
    whenever the body runs. *)
Fixpoint buildSlots_loop (fuel : nat) (d : string) (m : Z)
         (stop : option Z) (t : Z) (idx : nat) : option (list Slot.t) :=
  match fuel with
  | O => None
  | S fuel' =>
      if isBefore (Some t) stop then
        let s := t in
        let e := t + m in            (* t.add(slotMinutes, "minute") *)
        match buildSlots_loop fuel' d m stop e (S idx) with
        | Some rest =>
            Some ({| Slot.id := slot_id d idx;
                     Slot.label := slot_label s e;
                     Slot.startISO := s;
                     Slot.endISO := e |} :: rest)
        | None => None
        end
      else Some []
  end.

Definition buildSlots (fuel : nat) (settings : Settings) : option (list Slot.t) :=
  let sch := schedule settings in
  let m := slotMinutes settings in
  let start_ := dayjs (start_text settings) in
  let stop := dayjs (end_text settings) in
  match start_ with
  | Some t => buildSlots_loop fuel (date sch) m stop t 0
  | None => Some []     (* an invalid start is before nothing *)
  end.

End WithDayjs.

(** A stand-in for the library on texts that end in "HH:mm": minutes
    since midnight.  Used to run the builder on concrete settings. *)
Definition digit_val (c : ascii) : option Z :=
  let n := Ascii.nat_of_ascii c in
  if ((48 <=? n)%nat && (n <=? 57)%nat)%bool then Some (Z.of_nat (n - 48)) else None.

Definition parse_HHmm (s : string) : option Z :=
  match s with
  | String h1 (String h2 (String c (String m1 (String m2 EmptyString)))) =>
      match digit_val h1, digit_val h2, digit_val m1, digit_val m2 with
      | Some a, Some b, Some x, Some y =>
          if Ascii.eqb c ":"%char then Some ((a * 10 + b) * 60 + (x * 10 + y)) else None
      | _, _, _, _ => None
      end
  | _ => None
  end.

Fixpoint last_n (n : nat) (s : string) : string :=
  if (String.length s <=? n)%nat then s
  else match s with
       | EmptyString => EmptyString
       | String _ s' => last_n n s'
       end.

Definition dayjs_clock (s : string) : option Z := parse_HHmm (last_n 5 s).

End SlotBuilder.

(** ** Effects: random samples, clock reads, exceptions, divergence *)

Module Eff.

(** The two ambient sources the program reads. *)
Record Env := mkEnv {
  random : nat -> Z;        (* numerator over 2^53 of the n-th Math.random() *)
  clock : nat -> string     (* text of the n-th new Date().toISOString() *)
}.

Record World := mkWorld {
  draws : nat;              (* calls of Math.random() so far *)
  reads : nat               (* clock reads so far *)
}.

Inductive Res (A : Type) : Type :=
| Ret (a : A) (w : World)   (* normal completion *)
| Thrown (w : World)        (* a TypeError escaped *)
| Diverge.                  (* step budget exhausted *)
Arguments Ret {A} a w.
Arguments Thrown {A} w.
Arguments Diverge {A}.

Definition M (A : Type) : Type := World -> Res A.

Definition ret {A} (a : A) : M A := fun w => Ret a w.

Definition bind {A B} (m : M A) (k : A -> M B) : M B :=
  fun w =>
    match m w with
    | Ret a w' => k a w'
    | Thrown w' => Thrown w'
    | Diverge => Diverge
    end.

Definition throw {A} : M A := fun w => Thrown w.

Definition now (env : Env) : M string :=
  fun w => Ret (clock env (reads w)) {| draws := draws w; reads := S (reads w) |}.

Definition well_formed (env : Env) : Prop :=
  forall n, 0 <= random env n < 2 ^ 53.

End Eff.

Notation "x <- m ;; k" := (Eff.bind m (fun x => k))
  (at level 100, m at next level, right associativity).

(** ** Identifier generator *)

Module IdGen.
Import Eff.

Definition letters : string := "ABCDEFGHIJKLMNOPQRSTUVWXYZ".
Definition digits : string := "0123456789".

(** The double nearest to [m / 2^53] for an integer [m >= 0], as a
    numerator over 2^53: below 2^53 every numerator is a double; above,
    a double keeps the 53 leading bits, so [m] is rounded to the nearest
    multiple of [2^e], [e] being the number of bits in excess, and a tie
    goes to the multiple with an even quotient. *)
Definition round53 (m : Z) : Z :=
  let e := Z.log2 m - 52 in
  if e <=? 0 then m
  else
    let q := m / 2 ^ e in
    let r := m mod 2 ^ e in
    let half := 2 ^ (e - 1) in
    (if r <? half then q
     else if half <? r then q + 1
     else if Z.even q then q else q + 1) * 2 ^ e.

(** [Math.floor(Math.random() * n)] for the sample [k / 2^53] and a whole
    [n]: the product of the two doubles is the double nearest to
    [k * n / 2^53], and that double is floored. *)
Definition floor_scale (k : Z) (n : Z) : Z := round53 (k * n) / 2 ^ 53.

(** [s[i]], [undefined] out of range. *)
Definition char_at (s : string) (i : Z) : option ascii :=
  if i <? 0 then None else String.get (Z.to_nat i) s.

(** [Array.from({ length: n }, () => alphabet[Math.floor(Math.random() *
    alphabet.length)]).join(...)] with the empty separator, reading the
    samples from position [p] on; an [undefined] element joins as the
    empty text. *)
Fixpoint pick (env : Env) (alphabet : string) (n : nat) (p : nat) : string :=
  match n with
  | O => EmptyString
  | S k =>
      let i := floor_scale (random env p) (Z.of_nat (String.length alphabet)) in
      match char_at alphabet i with
      | Some c => String c (pick env alphabet k (S p))
      | None => pick env alphabet k (S p)
      end
  end.

(** The text assigned to [id] by one pass through the loop body, the
    samples being read from position [p]. *)
Definition candidate (env : Env) (p : nat) : string :=
  pick env letters 5 p +:+ pick env digits 3 (p + 5)%nat.

(** [do { id = ... } while (existing.has(id))] *)
Fixpoint randTicketId_loop (fuel : nat) (env : Env) (existing : gset string)
         (p : nat) : option (string * nat) :=
  match fuel with
  | O => None
  | S fuel' =>
      let id := candidate env p in
      if decide (id ∈ existing) then randTicketId_loop fuel' env existing (p + 8)%nat
      else Some (id, (p + 8)%nat)
  end.

Definition randTicketId (fuel : nat) (env : Env) (existing : gset string) : M string :=
  fun w =>
    match randTicketId_loop fuel env existing (draws w) with
    | Some (id, p') => Ret id {| draws := p'; reads := reads w |}
    | None => Diverge
    end.

(** The first script's generator: no used-set, one pass. *)
Fixpoint fromCharCodes (env : Env) (n : nat) (p : nat) : string :=
  match n with
  | O => EmptyString
  | S k =>
      String (Ascii.ascii_of_nat (Z.to_nat (65 + floor_scale (random env p) 26)))
             (fromCharCodes env k (S p))
  end.

Definition generateTicketId (env : Env) : M string :=
  fun w =>
    let p := draws w in
    let letters := fromCharCodes env 5 p in
    let numbers :=
      Text.padStart 3 "0"%char
        (Text.String_of_nat (Z.to_nat (floor_scale (random env (p + 5)%nat) 1000))) in
    Ret (letters +:+ numbers) {| draws := (p + 6)%nat; reads := reads w |}.

(** The fixed shape: five capital letters then three decimal digits. *)
Definition isUpper (c : ascii) : bool :=
  let n := Ascii.nat_of_ascii c in ((65 <=? n)%nat && (n <=? 90)%nat)%bool.
Definition isDigit (c : ascii) : bool :=
  let n := Ascii.nat_of_ascii c in ((48 <=? n)%nat && (n <=? 57)%nat)%bool.

Definition ticketIdShape (s : string) : bool :=
  match s with
  | String a (String b (String c (String d (String e
      (String x (String y (String z EmptyString))))))) =>
      isUpper a && isUpper b && isUpper c && isUpper d && isUpper e
      && isDigit x && isDigit y && isDigit z
  | _ => false
  end.

Definition threeDigits (s : string) : bool :=
  match s with
  | String x (String y (String z EmptyString)) => isDigit x && isDigit y && isDigit z
  | _ => false
  end.

(** A sample whose product by [n] has floor [i]: the least one whose
    exact product is not below [i]. *)
Definition sampleFor (n i : Z) : Z := (i * 2 ^ 53 + n - 1) / n.

(** A sample stream that starts with the given samples. *)
Definition streamOf (ks : list Z) : Env :=
  mkEnv (fun n => nth n ks 0) (fun _ => EmptyString).

End IdGen.

(** ** Capacity counter and ticket creation *)

Module Registry.
Import Eff.

(** [tickets.filter((t) => t.slotId === slotId).length] *)
Definition capacityForSlot (tickets : list Ticket.t) (slotId : string) : nat :=
  length (filter (fun t => Ticket.slotId t = slotId) tickets).

(** [slots.find((s) => s.id === slotId)] *)
Definition findSlot (slots : list Slot.t) (slotId : string) : option Slot.t :=
  List.find (fun s => String.eqb (Slot.id s) slotId) slots.

(** The state held by [App]: settings, the registry and the three
    controlled inputs of the form. *)
Record AppState := mkApp {
  settings : Settings;
  tickets : list Ticket.t;
  name : string;
  contact : string;
  slotId : string
}.

(** The blocking messages shown by [createTicket]. *)
Inductive Alert :=
| InvalidSlot                 (* an invalid slot is selected *)
| NameRequired                (* please enter a name *)
| SlotFull                    (* this slot is full, choose another time *)
| Issued (id : string).       (* ticket issued, number: id *)

(** The names the specification gives to the failures. *)
Inductive ErrorKind := ValidationError | CapacityError.

Definition error_of (a : Alert) : option ErrorKind :=
  match a with
  | InvalidSlot => Some ValidationError
  | NameRequired => Some ValidationError
  | SlotFull => Some CapacityError
  | Issued _ => None
  end.

(** [new Set(tickets.map((t) => t.id))] *)
Definition existingIds (tickets : list Ticket.t) : gset string :=
  list_to_set (map Ticket.id tickets).

Definition createTicket (fuel : nat) (env : Env) (slots : list Slot.t)
           (st : AppState) : M (AppState * Alert) :=
  match findSlot slots (slotId st) with
  | None => ret (st, InvalidSlot)
  | Some slot =>
      if negb (Text.truthy (Text.trim (name st))) then ret (st, NameRequired)
      else
        let count := capacityForSlot (tickets st) (slotId st) in
        if Z.of_nat count >=? slotCapacity (settings st) then ret (st, SlotFull)
        else
          id <- IdGen.randTicketId fuel env (existingIds (tickets st)) ;;
          created <- now env ;;
          let t := {| Ticket.id := id;
                      Ticket.name := Text.trim (name st);
                      Ticket.contact := Text.trim (contact st);
                      Ticket.slotId := Slot.id slot;
                      Ticket.slotStartISO := Slot.startISO slot;
                      Ticket.slotEndISO := Slot.endISO slot;
                      Ticket.createdAtISO := created;
                      Ticket.notified := false |} in
          (* the reminder scheduled here touches no state *)
          ret ({| settings := settings st;
                  tickets := tickets st ++ [t];       (* [...prev, t] *)
                  name := EmptyString;
                  contact := EmptyString;
                  slotId := slotId st |},
               Issued id)
  end.

End Registry.

(** ** CSV export and import *)

Module Csv.
Import Eff.

Definition is_quote (c : ascii) : bool := Ascii.eqb c Text.quote.
Definition is_comma (c : ascii) : bool := Ascii.eqb c Text.comma.
Definition is_LF (c : ascii) : bool := Ascii.eqb c Text.LF.
Definition is_CR (c : ascii) : bool := Ascii.eqb c Text.CR.

Definition newline : string := String Text.LF EmptyString.
Definition sep : string := String Text.comma EmptyString.

(** *** Export *)

(** A row object: its own keys in insertion order, with their values. *)
Definition Row : Type := list (string * string).

Definition keys (r : Row) : list string := map fst r.

(** [r[h]] *)
Fixpoint get (r : Row) (h : string) : option string :=
  match r with
  | [] => None
  | (k, v) :: rest => if String.eqb k h then Some v else get rest h
  end.

(** [s.replace(/Q/g, QQ)], writing Q for the double quote character:
    every double quote is doubled. *)
Fixpoint doubleQuotes (s : string) : string :=
  match s with
  | EmptyString => EmptyString
  | String c s' =>
      if is_quote c then String Text.quote (String Text.quote (doubleQuotes s'))
      else String c (doubleQuotes s')
  end.

(** [esc]: the value (the empty text for [undefined]) with its quotes
    doubled, between two double quotes. *)
Definition esc (v : option string) : string :=
  String Text.quote (doubleQuotes (default EmptyString v) +:+ String Text.quote EmptyString).

Definition toCSV (rows : list Row) : string :=
  match rows with
  | [] => EmptyString
  | r0 :: _ =>
      let headers := keys r0 in
      Text.join newline
        (Text.join sep headers
         :: map (fun r => Text.join sep (map (fun h => esc (get r h)) headers)) rows)
  end.

Definition exportRow (t : Ticket.t) : Row :=
  [ ("id", Ticket.id t);
    ("name", Ticket.name t);
    ("contact", Ticket.contact t);
    ("slot_label",
      SlotBuilder.format_HHmm (Ticket.slotStartISO t) +:+ "-" +:+
      SlotBuilder.format_HHmm (Ticket.slotEndISO t));
    ("slot_id", Ticket.slotId t);
    ("created_at", Ticket.createdAtISO t) ].

(** The text handed to [downloadFile] by [exportCSV]. *)
Definition exportCSV (tickets : list Ticket.t) : string :=
  toCSV (map exportRow tickets).

(** The pieces of the exported text: the header line, the six values
    of a ticket's row in column order, a value between quotes, and the
    line of a ticket. *)
Definition headerLine : string := "id,name,contact,slot_label,slot_id,created_at".

Definition fields (t : Ticket.t) : list string :=
  [ Ticket.id t; Ticket.name t; Ticket.contact t;
    SlotBuilder.format_HHmm (Ticket.slotStartISO t) +:+ "-" +:+
    SlotBuilder.format_HHmm (Ticket.slotEndISO t);
    Ticket.slotId t; Ticket.createdAtISO t ].

Definition quoted (v : string) : string := esc (Some v).

Definition rowLine (t : Ticket.t) : string := Text.join sep (map quoted (fields t)).

(** *** Import *)

Definition cons_head (c : ascii) (ls : list string) : list string :=
  match ls with
  | l :: rest => String c l :: rest
  | [] => [String c EmptyString]
  end.

(** [text.split(/\r?\n/)]: a line ends at LF, or at CR LF. *)
Fixpoint splitLines (s : string) : list string :=
  match s with
  | EmptyString => [EmptyString]
  | String c s' =>
      if is_LF c then EmptyString :: splitLines s'
      else if is_CR c then
        match s' with
        | String c2 s'' =>
            if is_LF c2 then EmptyString :: splitLines s''
            else cons_head c (splitLines s')
        | EmptyString => cons_head c (splitLines s')
        end
      else cons_head c (splitLines s')
  end.

(** [s.split(",")] *)
Fixpoint splitComma (s : string) : list string :=
  match s with
  | EmptyString => [EmptyString]
  | String c s' =>
      if is_comma c then EmptyString :: splitComma s'
      else cons_head c (splitComma s')
  end.

(** [s.replace(/^Q|Q$/g, empty)]: one leading quote and, further on,
    one trailing quote are removed. *)
Definition dropLeadingQuote (s : string) : string :=
  match s with
  | String c s' => if is_quote c then s' else s
  | EmptyString => EmptyString
  end.

Fixpoint dropTrailingQuote (s : string) : string :=
  match s with
  | EmptyString => EmptyString
  | String c s' =>
      match s' with
      | EmptyString => if is_quote c then EmptyString else s
      | String _ _ => String c (dropTrailingQuote s')
      end
  end.

Definition stripQuotes (s : string) : string :=
  dropTrailingQuote (dropLeadingQuote s).

(** [s.replace(/QQ/g, Q)]: pairs of quotes, taken from the left,
    become one quote. *)
Fixpoint undouble (s : string) : string :=
  match s with
  | EmptyString => EmptyString
  | String c s' =>
      if is_quote c then
        match s' with
        | String c2 s'' =>
            if is_quote c2 then String Text.quote (undouble s'')
            else String c (undouble s')
        | EmptyString => s
        end
      else String c (undouble s')
  end.

(** The column pattern [/ Q ( [^Q]* (?: QQ [^Q]* )* ) Q | ( [^,]+ ) /g],
    written with spaces between its parts.

    First alternative, after its opening quote.  The greedy path skips
    non-quotes and takes each doubled quote as a pair; it closes at a
    quote that is not followed by a quote.  When the text ends before
    that, backtracking undoes the last pair taken and closes at its
    first quote; with no pair taken the alternative fails.  The result
    is the number of characters consumed after the opening quote. *)
Fixpoint quotedTail (s : string) : option nat :=
  match s with
  | EmptyString => None
  | String c s' =>
      if is_quote c then
        match s' with
        | String c2 s'' =>
            if is_quote c2 then
              match quotedTail s'' with
              | Some n => Some (S (S n))
              | None => Some 1%nat
              end
            else Some 1%nat
        | EmptyString => Some 1%nat
        end
      else
        match quotedTail s' with
        | Some n => Some (S n)
        | None => None
        end
  end.

Definition starts_with_quote (k : string) : bool :=
  match k with
  | String c _ => is_quote c
  | EmptyString => false
  end.

(** Second alternative [[^,]+]: the length of the run of non-commas. *)
Fixpoint nonCommaRun (s : string) : nat :=
  match s with
  | EmptyString => O
  | String c s' => if is_comma c then O else S (nonCommaRun s')
  end.

(** Length of the match that starts at the head of [s], if any. *)
Definition matchAt (s : string) : option nat :=
  match s with
  | EmptyString => None
  | String c s' =>
      if is_quote c then
        match quotedTail s' with
        | Some n => Some (S n)
        | None => Some (nonCommaRun s)
        end
      else if is_comma c then None
      else Some (nonCommaRun s)
  end.

(** [line.match(pattern)]: the successive matches from left to right;
    [skip] counts the characters of the current match still to pass.
    No match at all gives the empty list, as [... || []] does. *)
Fixpoint matchAll (skip : nat) (s : string) : list string :=
  match s with
  | EmptyString => []
  | String c s' =>
      match skip with
      | S k => matchAll k s'
      | O =>
          match matchAt s with
          | Some n => String.substring 0 n s :: matchAll (n - 1) s'
          | None => matchAll 0 s'
          end
      end
  end.

Definition parseRow (line : string) : list string :=
  map (fun s => undouble (stripQuotes s)) (matchAll 0 line).

(** [slots.find((s) => s.id === slotId) || slots[0]] *)
Definition resolveSlot (slots : list Slot.t) (slotId : option string) : option Slot.t :=
  match slotId with
  | Some k =>
      match Registry.findSlot slots k with
      | Some s => Some s
      | None => head slots
      end
  | None => head slots
  end.

(** [cols[i] || randTicketId(...)] *)
Definition idOrFresh (fuel : nat) (env : Env) (used : gset string)
           (v : option string) : M string :=
  match v with
  | Some s => if Text.truthy s then ret s else IdGen.randTicketId fuel env used
  | None => IdGen.randTicketId fuel env used
  end.

(** [cols[i] || new Date().toISOString()] *)
Definition textOrNow (env : Env) (v : option string) : M string :=
  match v with
  | Some s => if Text.truthy s then ret s else now env
  | None => now env
  end.

(** The body of the [for] loop over the data lines; the object literal
    evaluates [id], [name], [contact], then reads [slot.id]. *)
Fixpoint importRows (fuel : nat) (env : Env) (slots : list Slot.t)
         (tickets : list Ticket.t) (header : list string)
         (lines : list string) : M (list Ticket.t) :=
  match lines with
  | [] => ret []
  | line :: rest =>
      let idx := fun h => Text.indexOf h header in
      let cols := parseRow line in
      let slotId := Text.js_nth cols (idx "slot_id") in
      let slot := resolveSlot slots slotId in
      id <- idOrFresh fuel env (Registry.existingIds tickets)
              (Text.js_nth cols (idx "id")) ;;
      let name := Text.or_else (Text.js_nth cols (idx "name")) EmptyString in
      let contact := Text.or_else (Text.js_nth cols (idx "contact")) EmptyString in
      match slot with
      | None => throw          (* slot is undefined: reading slot.id *)
      | Some sl =>
          created <- textOrNow env (Text.js_nth cols (idx "created_at")) ;;
          out <- importRows fuel env slots tickets header rest ;;
          ret ({| Ticket.id := id;
                  Ticket.name := name;
                  Ticket.contact := contact;
                  Ticket.slotId := Slot.id sl;
                  Ticket.slotStartISO := Slot.startISO sl;
                  Ticket.slotEndISO := Slot.endISO sl;
                  Ticket.createdAtISO := created;
                  Ticket.notified := false |} :: out)
      end
  end.

(** [text.split(/\r?\n/).filter(Boolean)] *)
Definition nonEmptyLines (text : string) : list string :=
  List.filter Text.truthy (splitLines text).

(** The value of the ticket registry when [importCSVText] completes:
    untouched on the early return, [out] after [setTickets(out)]. *)
Definition importCSVText (fuel : nat) (env : Env) (slots : list Slot.t)
           (tickets : list Ticket.t) (text : string) : M (list Ticket.t) :=
  match nonEmptyLines text with
  | [] => ret tickets
  | first :: rest =>
      let header := map stripQuotes (splitComma first) in
      out <- importRows fuel env slots tickets header rest ;;
      ret out
  end.

(** The value [cols[idx(h)]] read from a data line. *)
Definition column (header : list string) (line : string) (h : string) : option string :=
  Text.js_nth (parseRow line) (Text.indexOf h header).

(** The data line has an [id] value that is kept: [cols[idx("id")]] is
    truthy, and no identifier is generated for the line. *)
Definition bearsId (header : list string) (line : string) : Prop :=
  exists v, column header line "id" = Some v /\ v <> EmptyString.

(** A ticket carries the identifier and the bounds of a slot. *)
Definition assigned (sl : Slot.t) (t : Ticket.t) : Prop :=
  Ticket.slotId t = Slot.id sl /\
  Ticket.slotStartISO t = Slot.startISO sl /\
  Ticket.slotEndISO t = Slot.endISO sl.

Definition headerNames : list string :=
  ["id"; "name"; "contact"; "slot_label"; "slot_id"; "created_at"].

(** No LF in any of the five texts of a ticket. *)
Definition lineFree (t : Ticket.t) : bool :=
  Text.noLF (Ticket.id t) && Text.noLF (Ticket.name t) &&
  Text.noLF (Ticket.contact t) && Text.noLF (Ticket.slotId t) &&
  Text.noLF (Ticket.createdAtISO t).

(** What a ticket needs to come back from its exported line: an
    identifier, no LF in its texts, a slot of the current list. *)
Definition roundTrippable (slots : list Slot.t) (t : Ticket.t) : Prop :=
  Ticket.id t <> EmptyString /\
  lineFree t = true /\
  exists s, s ∈ slots /\ Slot.id s = Ticket.slotId t.

(** [t'] carries the identifier, name, slot identifier and contact of
    [t], and its creation time where [t] has one. *)
Definition preserved (t t' : Ticket.t) : Prop :=
  Ticket.id t' = Ticket.id t /\
  Ticket.name t' = Ticket.name t /\
  Ticket.slotId t' = Ticket.slotId t /\
  Ticket.contact t' = Ticket.contact t /\
  (Ticket.createdAtISO t <> EmptyString ->
   Ticket.createdAtISO t' = Ticket.createdAtISO t).

(** What the import makes of a data line: the slot found for its
    [slot_id] value, the first slot [s0] when none is found, and the
    name and contact read from the line. *)
Definition importedFrom (header : list string) (slots : list Slot.t) (s0 : Slot.t)
           (line : string) (t : Ticket.t) : Prop :=
  ((forall s, s ∈ slots -> column header line "slot_id" <> Some (Slot.id s)) ->
   assigned s0 t) /\
  (forall k s, column header line "slot_id" = Some k ->
               Registry.findSlot slots k = Some s -> assigned s t) /\
  Ticket.name t = Text.or_else (column header line "name") EmptyString /\
  Ticket.contact t = Text.or_else (column header line "contact") EmptyString /\
  (forall v, column header line "id" = Some v -> v <> EmptyString -> Ticket.id t = v) /\
  Ticket.notified t = false.

(** A ticket as an import leaves it: an identifier, a creation time,
    no LF in its texts, not notified, and the identifier and bounds of
    the slot that its slot identifier finds in the current list. *)
Definition normal (slots : list Slot.t) (t : Ticket.t) : Prop :=
  Ticket.id t <> EmptyString /\
  Ticket.createdAtISO t <> EmptyString /\
  lineFree t = true /\
  Ticket.notified t = false /\
  exists s, Registry.findSlot slots (Ticket.slotId t) = Some s /\ assigned s t.

(** From every position of the sample stream on, some pass of the
    generator draws a text outside the used set. *)
Definition fair (env : Env) (used : gset string) : Prop :=
  forall p : nat, exists k : nat, IdGen.candidate env (p + 8 * k) ∉ used.

(** The registry seen after the call, when the call ends: an escaped
    exception leaves the state as it was. *)
Definition registry_after (tickets : list Ticket.t) (r : Res (list Ticket.t))
  : option (list Ticket.t) :=
  match r with
  | Ret out _ => Some out
  | Thrown _ => Some tickets
  | Diverge => None
  end.

End Csv.

(** ** Settings store *)

Module SettingsStore.

(** Values held by the fields of the settings object. *)
Inductive Value :=
| VText (s : string)
| VNum (z : Z)
| VSchedule (s : Schedule).

(** [{ ...a, ...b }]: the own properties of [a], overridden and
    extended by those of [b]. *)
Definition spread (a b : gmap string Value) : gmap string Value := b ∪ a.

(** [setSettings((prev) => ({ ...prev, ...partial }))] *)
Definition updateSettings (partial prev : gmap string Value) : gmap string Value :=
  spread prev partial.

(** The object that carries a settings record. *)
Definition toObject (s : Settings) : gmap string Value :=
  <["eventTitle" := VText (eventTitle s)]>
  (<["location" := VText (location s)]>
  (<["slotMinutes" := VNum (slotMinutes s)]>
  (<["slotCapacity" := VNum (slotCapacity s)]>
  (<["reminderMinutesBefore" := VNum (reminderMinutesBefore s)]>
  (<["adminPin" := VText (adminPin s)]>
  (<["schedule" := VSchedule (schedule s)]> ∅)))))).

End SettingsStore.

(** ** Admin panel: bookings per slot *)

Module Admin.

(** [m.set(s.id, 0)] for every slot, then
    [m.set(t.slotId, (m.get(t.slotId) || 0) + 1)] for every ticket. *)
Definition countsBySlot (tickets : list Ticket.t) (slots : list Slot.t)
  : gmap string nat :=
  let m0 := foldl (fun m s => <[Slot.id s := O]> m) (∅ : gmap string nat) slots in
  foldl (fun m t => <[Ticket.slotId t := (default O (m !! Ticket.slotId t) + 1)%nat]> m)
        m0 tickets.

End Admin.

(** ** Admin panel: removal and search *)

Module AdminOps.

(** [removeTicket(id)]: nothing happens unless the dialog is confirmed;
    then [prev.filter((t) => t.id !== id)]. *)
Definition removeTicket (confirmed : bool) (id : string) (tickets : list Ticket.t)
  : list Ticket.t :=
  if confirmed then filter (fun t => Ticket.id t <> id) tickets else tickets.

(** [c.toLowerCase()] on an 8-bit code unit: A-Z, and the capital
    letters U+00C0 to U+00DE but the multiplication sign U+00D7. *)
Definition lowerChar (c : ascii) : ascii :=
  let n := Ascii.nat_of_ascii c in
  if ((65 <=? n)%nat && (n <=? 90)%nat)
     || ((192 <=? n)%nat && (n <=? 222)%nat && negb (n =? 215)%nat)
  then Ascii.ascii_of_nat (n + 32) else c.

Fixpoint toLowerCase (s : string) : string :=
  match s with
  | EmptyString => EmptyString
  | String c s' => String (lowerChar c) (toLowerCase s')
  end.

(** [s.includes(k)]: [k] occurs in [s] at some position. *)
Fixpoint includes (s k : string) : bool :=
  String.prefix k s ||
  match s with
  | EmptyString => false
  | String _ s' => includes s' k
  end.

(** The five texts of a ticket the search looks into. *)
Definition searchable (t : Ticket.t) : list string :=
  [ Ticket.id t; Ticket.name t; Ticket.contact t; Ticket.slotId t;
    SlotBuilder.format_HHmm (Ticket.slotStartISO t) ].

(** The [filtered] list for the query [q]. *)
Definition filtered (tickets : list Ticket.t) (q : string) : list Ticket.t :=
  let k := toLowerCase (Text.trim q) in
  if negb (Text.truthy k) then tickets
  else List.filter
         (fun t => existsb (fun v => includes (toLowerCase v) k) (searchable t))
         tickets.

End AdminOps.

(** ** App: slot selection, availability, the number fields *)

Module AppOps.

(** The effect that follows [slots] and [slotId]:
    [if (!slots.find(...)) setSlotId(slots[0]?.id || empty)]. *)
Definition syncSlotId (slots : list Slot.t) (slotId : string) : string :=
  match Registry.findSlot slots slotId with
  | Some _ => slotId
  | None => Text.or_else (option_map Slot.id (head slots)) EmptyString
  end.

(** What the two slot lists show for a slot: full, over, or the number
    of places left.  [now] is the current instant. *)
Inductive Availability :=
| Full
| Ended
| Remaining (n : Z).

Definition availability (tickets : list Ticket.t) (settings : Settings) (now : Z)
           (s : Slot.t) : Availability :=
  let count := Z.of_nat (Registry.capacityForSlot tickets (Slot.id s)) in
  let full := count >=? slotCapacity settings in
  let past := Slot.endISO s <? now in
  if full then Full else if past then Ended else Remaining (slotCapacity settings - count).

(** The [disabled] attribute of the option of a slot. *)
Definition disabled (tickets : list Ticket.t) (settings : Settings) (now : Z)
           (s : Slot.t) : bool :=
  (Z.of_nat (Registry.capacityForSlot tickets (Slot.id s)) >=? slotCapacity settings)
  || (Slot.endISO s <? now).

(** [Number(e.target.value) || d]: [None] is NaN; zero and NaN are
    falsy. *)
Definition numberOr (v : option Z) (d : Z) : Z :=
  match v with
  | Some x => if x =? 0 then d else x
  | None => d
  end.

(** The partial updates sent by the three number fields. *)
Definition onSlotMinutes (v : option Z) : gmap string SettingsStore.Value :=
  {[ "slotMinutes" := SettingsStore.VNum (Z.max 5 (numberOr v 10)) ]}.

Definition onSlotCapacity (v : option Z) : gmap string SettingsStore.Value :=
  {[ "slotCapacity" := SettingsStore.VNum (Z.max 1 (numberOr v 1)) ]}.

Definition onReminder (v : option Z) : gmap string SettingsStore.Value :=
  {[ "reminderMinutesBefore" := SettingsStore.VNum (Z.max 1 (numberOr v 5)) ]}.

(** [[...tickets].sort((a, b) => start(a) - start(b))]: the sort is
    stable, so the result is the one of inserting the tickets, last
    first, each before the first ticket that does not start earlier. *)
Fixpoint insertByStart (t : Ticket.t) (sorted : list Ticket.t) : list Ticket.t :=
  match sorted with
  | [] => [t]
  | u :: rest =>
      if Ticket.slotStartISO u <? Ticket.slotStartISO t then u :: insertByStart t rest
      else t :: sorted
  end.

Definition myTickets (tickets : list Ticket.t) : list Ticket.t :=
  foldr insertByStart [] tickets.

End AppOps.

(** ** The first script: a list of times, tickets with three texts *)

Module Legacy.
Import Eff.

Definition slots : list string :=
  [ "09:00"; "09:10"; "09:20"; "09:30"; "09:40";
    "10:00"; "10:10"; "10:20"; "10:30"; "10:40";
    "11:00"; "11:10"; "11:20"; "11:30"; "11:40";
    "13:00"; "13:10"; "13:20"; "13:30"; "13:40";
    "14:00"; "14:10"; "14:20"; "14:30"; "14:40";
    "15:00"; "15:10"; "15:20"; "15:30"; "15:40" ].

(** [{name, time, id}]; after an import of a short line [time] and [id]
    may be [undefined]. *)
Record ticket := mkTicket {
  name : option string;
  time : option string;
  id : option string
}.

(** The submit handler: the trimmed name, the selected time, a fresh
    identifier; a blank name is refused with a message. *)
Definition submit (env : Env) (username time : string) (tickets : list ticket)
  : M (list ticket * bool) :=
  let name := Text.trim username in
  if negb (Text.truthy name) then ret (tickets, true)
  else
    id <- IdGen.generateTicketId env ;;
    ret (tickets ++ [ {| name := Some name; time := Some time; id := Some id |} ], false).

(** A value inside a template literal. *)
Definition render (v : option string) : string :=
  match v with
  | Some s => s
  | None => "undefined"
  end.

Definition header : string := "名前,時間,ID".

Definition line (t : ticket) : string :=
  render (name t) +:+ "," +:+ render (time t) +:+ "," +:+ render (id t).

(** [downloadCSV]: the text put in the file. *)
Fixpoint rowsText (tickets : list ticket) : string :=
  match tickets with
  | [] => EmptyString
  | t :: rest => line t +:+ Csv.newline +:+ rowsText rest
  end.

Definition downloadCSV (tickets : list ticket) : string :=
  header +:+ Csv.newline +:+ rowsText tickets.

(** [const [name, time, id] = line.split(...)] *)
Definition ticketOfLine (l : string) : ticket :=
  let parts := Csv.splitComma l in
  {| name := parts !! 0%nat; time := parts !! 1%nat; id := parts !! 2%nat |}.

(** [importCSV]: every non-empty line after the first is pushed on the
    list. *)
Definition importCSV (tickets : list ticket) (text : string) : list ticket :=
  tickets ++ map ticketOfLine (List.filter Text.truthy (tail (Csv.splitLines text))).

(** A ticket whose three texts are present and can be written on one
    unquoted line: no comma, no LF, no CR at the very end. *)
Definition writable (t : ticket) : Prop :=
  exists n tm i,
    t = {| name := Some n; time := Some tm; id := Some i |} /\
    Text.noComma n = true /\ Text.noComma tm = true /\ Text.noComma i = true /\
    Text.noLF n = true /\ Text.noLF tm = true /\ Text.noLF i = true /\
    Text.endsWithCR i = false.

End Legacy.

(** ** Sample data on which the program is run below *)

Module Sample.

Definition halfHour : Settings :=
  mkSettings "Haunted house" "Hall B" 10 1 5 "noguchi"
             (mkSchedule "2025-10-31" "09:00" "09:30").

(** Same day, but the range 09:00-09:25 is not a multiple of the slot
    length. *)
Definition ragged : Settings :=
  mkSettings "Haunted house" "Hall B" 10 1 5 "noguchi"
             (mkSchedule "2025-10-31" "09:00" "09:25").

Definition slot0 : Slot.t := Slot.mk "2025-10-31-000" "09:00-09:10" 540 550.
Definition slot1 : Slot.t := Slot.mk "2025-10-31-001" "09:10-09:20" 550 560.
Definition slot2 : Slot.t := Slot.mk "2025-10-31-002" "09:20-09:30" 560 570.
Definition slots : list Slot.t := [slot0; slot1; slot2].


(** A stream of samples that keeps changing, and one stuck at zero
    (every draw is then the first character of its alphabet). *)
Definition env : Eff.Env :=
  Eff.mkEnv (fun n => (Z.of_nat (S n) * 2862933555777941) mod 2 ^ 53)
            (fun _ => "2025-10-31T08:00:00.000Z").

Definition flat : Eff.Env :=
  Eff.mkEnv (fun _ => 0) (fun _ => "2025-10-31T08:00:00.000Z").

(** A stream that repeats its first six samples for ever. *)
Definition echo : Eff.Env :=
  Eff.mkEnv (fun n => (Z.of_nat (S (n mod 6)) * 2862933555777941) mod 2 ^ 53)
            (fun _ => "2025-10-31T08:00:00.000Z").

(** The first candidate drawn from [env] is already taken. *)
Definition used : gset string := {[ "IQYHP925" ]}.

Definition w0 : Eff.World := Eff.mkWorld 0 0.

Definition ticketA : Ticket.t :=
  Ticket.mk "ABCDE123" "Noguchi Taro" "3-B" "2025-10-31-000" 540 550
            "2025-10-31T08:00:00.000Z" false.

(** The form of [App] with the first slot selected; capacity is 1 and
    the first slot already holds [ticketA]. *)
Definition form (name : string) : Registry.AppState :=
  Registry.mkApp halfHour [ticketA] name "3-A" "2025-10-31-000".

(** A ticket that bears the one identifier drawn from [flat]. *)
Definition ticketZ : Ticket.t :=
  Ticket.mk "AAAAA000" "Ito Saburo" "1-A" "2025-10-31-002" 560 570
            "2025-10-31T08:10:00.000Z" false.

(** A ticket issued for the schedule of the day before. *)
Definition staleTicket : Ticket.t :=
  Ticket.mk "QWERT007" "Sato Hanako" "2-A" "2025-10-30-001" 550 560
            "2025-10-30T09:00:00.000Z" false.


(** Tickets that do not survive an export followed by an import. *)
Definition twoLineName : Ticket.t :=
  Ticket.mk "LINES001" ("Sato" +:+ Csv.newline +:+ "Hanako") "2-A" "2025-10-31-001" 550 560
            "2025-10-31T08:05:00.000Z" false.

Definition noId : Ticket.t :=
  Ticket.mk EmptyString "Abe Jiro" "1-C" "2025-10-31-001" 550 560
            "2025-10-31T08:06:00.000Z" false.

(** A file with a header and two data lines; the second one names a
    slot of another day. *)
Definition importText : string :=
  "id,name,slot_id" +:+ Csv.newline +:+
  "KLMNO456,Abe,2025-10-31-001" +:+ Csv.newline +:+
  "PQRST789,Ito,2025-10-30-004".


(** A file whose header has no [id] column. *)
Definition noIdText : string :=
  "name,slot_id" +:+ Csv.newline +:+ "Abe,2025-10-31-001".

(** Settings with a slot length of zero. *)
Definition stuck : Settings :=
  mkSettings "Haunted house" "Hall B" 0 1 5 "noguchi"
             (mkSchedule "2025-10-31" "09:00" "09:30").

(** The form with the second slot selected, which is still free, and
    with a slot of the day before selected. *)
Definition formFree (name : string) : Registry.AppState :=
  Registry.mkApp halfHour [ticketA] name " 3-A " "2025-10-31-001".

Definition formStale : Registry.AppState :=
  Registry.mkApp halfHour [ticketA] "Yamada" "3-A" "2025-10-30-000".

(** What the call on [formFree "Yamada"] leaves, with the first
    identifier drawn from [env]. *)
Definition ticketB : Ticket.t :=
  Ticket.mk "IQYHP925" "Yamada" "3-A" "2025-10-31-001" 550 560
            "2025-10-31T08:00:00.000Z" false.

Definition formAfter : Registry.AppState :=
  Registry.mkApp halfHour [ticketA; ticketB] EmptyString EmptyString "2025-10-31-001".

(** Tickets of the first script. *)
Definition oldTickets : list Legacy.ticket :=
  [ Legacy.mkTicket (Some "Sato") (Some "09:10") (Some "ABCDE123");
    Legacy.mkTicket (Some "Abe Jiro") (Some "13:40") (Some "QWERT007") ].

End Sample.

(** * Properties *)

(** ** Texts *)

Section TextFacts.
Import Text.

Lemma app_nil_l (s : string) : EmptyString +:+ s = s.
Proof. reflexivity. Qed.

Lemma app_cons (c : ascii) (s t : string) : String c s +:+ t = String c (s +:+ t).
Proof. reflexivity. Qed.

Lemma app_nil_r (s : string) : s +:+ EmptyString = s.
Proof. induction s as [|c s IH]; [reflexivity|]. rewrite app_cons, IH. reflexivity. Qed.

Lemma app_assoc (s t u : string) : (s +:+ t) +:+ u = s +:+ (t +:+ u).
Proof.
  induction s as [|c s IH]; [reflexivity|]. rewrite !app_cons, IH. reflexivity.
Qed.

Lemma trimStart_allWhite s : trimStart s = EmptyString <-> allWhite s = true.
Proof.
  induction s as [|c s IH]; cbn; [tauto|].
  destruct (isWhite c); cbn; [exact IH|]. split; discriminate.
Qed.

Lemma trimStart_head s : match trimStart s with
                         | EmptyString => True
                         | String c _ => isWhite c = false
                         end.
Proof.
  induction s as [|c s IH]; cbn; [exact I|].
  destruct (isWhite c) eqn:E; [exact IH|exact E].
Qed.

Lemma trimEnd_empty s : trimEnd s = EmptyString -> allWhite s = true.
Proof.
  induction s as [|c s IH]; cbn; [reflexivity|].
  destruct (trimEnd s); [|discriminate].
  destruct (isWhite c); [intros _; apply IH; reflexivity|discriminate].
Qed.

(** A text trims to the empty text exactly when it is empty or made of
    white space only. *)
Lemma trim_blank s : trim s = EmptyString <-> allWhite s = true.
Proof.
  unfold trim. split.
  - intros H. apply trimStart_allWhite.
    pose proof (trimStart_head s) as Hh.
    destruct (trimStart s) as [|c r]; [reflexivity|].
    apply trimEnd_empty in H. cbn in H. rewrite Hh in H. discriminate.
  - intros H. apply trimStart_allWhite in H. rewrite H. reflexivity.
Qed.

End TextFacts.

(** ** Slot builder *)

Section SlotBuilderFacts.
Import SlotBuilder.

Variable dayjs : string -> option Z.

Lemma ceil_step x m : 0 < m -> (x + m - 1) / m = 1 + (x - m + m - 1) / m.
Proof.
  intros Hm. replace (x + m - 1) with ((x - m + m - 1) + 1 * m) by ring.
  rewrite Z.div_add by lia. ring.
Qed.

Lemma ceil_nonpos x m : 0 < m -> x <= 0 -> (x + m - 1) / m <= 0.
Proof.
  intros Hm Hx. apply Z.lt_succ_r. apply Z.div_lt_upper_bound; lia.
Qed.

Lemma ceil_pos x m : 0 < m -> 0 < x -> 1 <= (x + m - 1) / m.
Proof.
  intros Hm Hx. apply Z.div_le_lower_bound; lia.
Qed.

(** The loop, run with enough budget, emits the slots
    [t + i*m, t + (i+1)*m) for [i] below the ceiling of
    [(stop - t) / m]. *)
Lemma buildSlots_loop_run fuel : forall d m stop t idx,
  0 < m ->
  Z.max 0 ((stop - t + m - 1) / m) < Z.of_nat fuel ->
  exists slots,
    buildSlots_loop fuel d m (Some stop) t idx = Some slots /\
    Z.of_nat (length slots) = Z.max 0 ((stop - t + m - 1) / m) /\
    forall (i : nat) s, slots !! i = Some s ->
      Slot.startISO s = t + Z.of_nat i * m /\
      Slot.endISO s = Slot.startISO s + m /\
      Slot.startISO s < stop /\
      Slot.id s = slot_id d (idx + i) /\
      Slot.label s = slot_label (Slot.startISO s) (Slot.endISO s).
Proof.
  induction fuel as [|fuel IH]; intros d m stop t idx Hm Hfuel.
  - lia.
  - cbn [buildSlots_loop isBefore].
    destruct (Z.ltb_spec t stop) as [Hlt|Hge].
    + pose proof (ceil_step (stop - t) m Hm) as Hstep.
      pose proof (ceil_pos (stop - t) m Hm ltac:(lia)) as Hpos.
      destruct (IH d m stop (t + m) (S idx) Hm) as (rest & Hrun & Hlen & Hrest).
      { replace (stop - (t + m)) with (stop - t - m) by ring. lia. }
      rewrite Hrun. eexists; split; [reflexivity|]. split.
      * cbn [length]. rewrite Nat2Z.inj_succ, Hlen.
        replace (stop - (t + m)) with (stop - t - m) by ring. lia.
      * intros [|i] s Hs; cbn in Hs.
        -- injection Hs as <-. cbn. rewrite Nat.add_0_r. repeat split; try lia.
        -- destruct (Hrest i s Hs) as (H1 & H2 & H3 & H4 & H5).
           repeat split; try assumption; try lia.
           rewrite H4. f_equal. lia.
    + exists []. split; [reflexivity|]. split.
      * cbn. pose proof (ceil_nonpos (stop - t) m Hm ltac:(lia)). lia.
      * intros i s Hs. destruct i; discriminate.
Qed.

(** C1, as the program has it.  For settings with a start before the
    end and a positive slot length, [buildSlots] returns (for every
    budget above the count) a list of exactly
    ceiling((scheduleEnd - scheduleStart) / slotMinutes) slots; slot
    number [i] is [start + i*slotMinutes, start + (i+1)*slotMinutes):
    each lasts exactly [slotMinutes], each ends where the next one
    starts, no two overlap, and each starts inside
    [scheduleStart, scheduleEnd).  When [slotMinutes] divides the
    range the count is the floor as well and every slot ends at or
    before [scheduleEnd]. *)
Theorem C1_buildSlots_partition (st : Settings) (a b : Z) :
  dayjs (start_text st) = Some a ->
  dayjs (end_text st) = Some b ->
  a < b ->
  0 < slotMinutes st ->
  let m := slotMinutes st in
  exists slots,
    (forall fuel, (Z.to_nat ((b - a + m - 1) / m) < fuel)%nat ->
                  buildSlots dayjs fuel st = Some slots) /\
    Z.of_nat (length slots) = (b - a + m - 1) / m /\
    (forall (i : nat) s, slots !! i = Some s ->
       Slot.startISO s = a + Z.of_nat i * m /\
       Slot.endISO s = Slot.startISO s + m /\
       a <= Slot.startISO s < b) /\
    (forall (i : nat) s s', slots !! i = Some s -> slots !! S i = Some s' ->
       Slot.endISO s = Slot.startISO s') /\
    (forall (i j : nat) s s', (i < j)%nat -> slots !! i = Some s -> slots !! j = Some s' ->
       Slot.endISO s <= Slot.startISO s') /\
    ((b - a) mod m = 0 ->
       Z.of_nat (length slots) = (b - a) / m /\
       forall (i : nat) s, slots !! i = Some s -> Slot.endISO s <= b).
Proof.
  intros Ha Hb Hab Hm m.
  pose proof (ceil_pos (b - a) m Hm ltac:(lia)) as Hpos.
  destruct (buildSlots_loop_run (S (Z.to_nat ((b - a + m - 1) / m)))
              (date (schedule st)) m b a 0%nat Hm ltac:(lia))
    as (slots & _ & Hlen & Hslots).
  rewrite Z.max_r in Hlen by lia.
  exists slots. split; [|split; [exact Hlen|]].
  - intros fuel Hfuel. unfold buildSlots. cbv zeta. rewrite Ha, Hb.
    fold m.
    destruct (buildSlots_loop_run fuel (date (schedule st)) m b a 0%nat Hm ltac:(lia))
      as (slots' & Hrun' & Hlen' & Hslots').
    rewrite Z.max_r in Hlen' by lia.
    rewrite Hrun'. f_equal.
    apply list_eq. intros i.
    destruct (slots' !! i) as [s'|] eqn:E'; destruct (slots !! i) as [s|] eqn:E.
    + destruct (Hslots' i s' E') as (A1 & A2 & _ & A4 & A5).
      destruct (Hslots i s E) as (B1 & B2 & _ & B4 & B5).
      f_equal. destruct s, s'; cbn in *. congruence.
    + apply lookup_lt_Some in E'. apply lookup_ge_None in E. lia.
    + apply lookup_lt_Some in E. apply lookup_ge_None in E'. lia.
    + reflexivity.
  - assert (Hat : forall (i : nat) s, slots !! i = Some s ->
              Slot.startISO s = a + Z.of_nat i * m /\
              Slot.endISO s = a + Z.of_nat i * m + m /\ Slot.startISO s < b).
    { intros i s Hs. destruct (Hslots i s Hs) as (H1 & H2 & H3 & _). lia. }
    split; [|split; [|split]].
    + intros i s Hs. destruct (Hat i s Hs) as (H1 & H2 & H3). nia.
    + intros i s s' Hs Hs'.
      destruct (Hat _ _ Hs) as (H1 & H2 & _), (Hat _ _ Hs') as (H1' & _). nia.
    + intros i j s s' Hij Hs Hs'.
      destruct (Hat _ _ Hs) as (H1 & H2 & _), (Hat _ _ Hs') as (H1' & _). nia.
    + intros Hdiv.
      assert (Hq : (b - a + m - 1) / m = (b - a) / m).
      { rewrite (Z.div_mod (b - a) m) at 1 by lia. rewrite Hdiv.
        replace (m * ((b - a) / m) + 0 + m - 1) with ((m - 1) + ((b - a) / m) * m) by ring.
        rewrite Z.div_add by lia. rewrite Z.div_small by lia. ring. }
      split; [lia|].
      intros i s Hs. destruct (Hat _ _ Hs) as (H1 & H2 & H3).
      apply lookup_lt_Some in Hs.
      pose proof (Z.div_mod (b - a) m ltac:(lia)) as Hdm. rewrite Hdiv in Hdm.
      nia.
Qed.

End SlotBuilderFacts.

(** ** Identifier generator *)

Section IdGenFacts.
Import Eff IdGen.

(** Rounding to a double moves a numerator by at most one part in 2^53,
    and never below zero. *)
Lemma round53_bounds m :
  0 <= m -> 0 <= round53 m <= m + m / 2 ^ 53.
Proof.
  intros Hm. unfold round53.
  assert (H53 : 0 < 2 ^ 53) by (apply Z.pow_pos_nonneg; lia).
  pose proof (Z.div_pos m (2 ^ 53) Hm H53) as Hd.
  destruct (Z.leb_spec (Z.log2 m - 52) 0) as [_|He]; [lia|].
  assert (Hpos : 0 < m).
  { destruct (Z.eq_dec m 0) as [->|]; [cbn in He|]; lia. }
  set (e := Z.log2 m - 52) in *.
  assert (Hpe : 0 < 2 ^ e) by (apply Z.pow_pos_nonneg; lia).
  assert (Hhalf : 2 ^ e = 2 * 2 ^ (e - 1)).
  { replace e with (Z.succ (e - 1)) at 1 by lia. apply Z.pow_succ_r. lia. }
  assert (Hlow : 2 ^ (e - 1) * 2 ^ 53 <= m).
  { rewrite <- Z.pow_add_r by lia. replace (e - 1 + 53) with (Z.log2 m) by lia.
    apply Z.log2_spec. lia. }
  assert (Hq : 2 ^ (e - 1) <= m / 2 ^ 53) by (apply Z.div_le_lower_bound; lia).
  pose proof (Z.div_mod m (2 ^ e) ltac:(lia)) as Hdm.
  pose proof (Z.mod_pos_bound m (2 ^ e) Hpe) as Hr.
  assert (Hq0 : 0 <= m / 2 ^ e) by (apply Z.div_pos; lia).
  destruct (Z.ltb_spec (m mod 2 ^ e) (2 ^ (e - 1))) as [Hlt|Hge]; [nia|].
  destruct (Z.ltb_spec (2 ^ (e - 1)) (m mod 2 ^ e)) as [Hgt|Heq]; [nia|].
  destruct (Z.even (m / 2 ^ e)); nia.
Qed.

Lemma floor_scale_range k n :
  0 <= k < 2 ^ 53 -> 0 < n -> 0 <= floor_scale k n < n.
Proof.
  intros Hk Hn. unfold floor_scale.
  assert (H53 : 0 < 2 ^ 53) by (apply Z.pow_pos_nonneg; lia).
  pose proof (round53_bounds (k * n) ltac:(nia)) as [Hlo Hhi].
  assert (Hd : (k * n) / 2 ^ 53 <= n - 1).
  { assert ((k * n) / 2 ^ 53 < n) by (apply Z.div_lt_upper_bound; nia). lia. }
  split.
  - apply Z.div_pos; lia.
  - apply Z.div_lt_upper_bound; nia.
Qed.

(** Where the exact product falls half way between two doubles the
    rounded one can reach the next whole number: the sample
    1732153702834806 / 2^53 times 26 is floored to 5, the exact product
    being just below 5. *)
Lemma floor_scale_tie :
  floor_scale 1732153702834806 26 = 5 /\ (1732153702834806 * 26) / 2 ^ 53 = 4.
Proof. split; reflexivity. Qed.

Lemma get_in_range (s : string) : forall n,
  (n < String.length s)%nat -> exists c, String.get n s = Some c.
Proof.
  induction s as [|c s IH]; intros n Hn; cbn in Hn; [lia|].
  destruct n as [|n]; cbn; [eauto|]. apply IH. lia.
Qed.

Lemma pick_step env alphabet k p :
  well_formed env -> (0 < String.length alphabet)%nat ->
  exists c i, String.get i alphabet = Some c /\
              pick env alphabet (S k) p = String c (pick env alphabet k (S p)).
Proof.
  intros Hwf Hlen. cbn [pick].
  pose proof (floor_scale_range (random env p) (Z.of_nat (String.length alphabet))
                (Hwf p) ltac:(lia)) as Hr.
  unfold char_at. destruct (Z.ltb_spec (floor_scale (random env p)
                              (Z.of_nat (String.length alphabet))) 0) as [?|_]; [lia|].
  destruct (get_in_range alphabet (Z.to_nat (floor_scale (random env p)
              (Z.of_nat (String.length alphabet)))) ltac:(lia)) as [c Hc].
  rewrite Hc. eauto.
Qed.

Lemma letters_upper i c : String.get i letters = Some c -> isUpper c = true.
Proof.
  intros H. unfold letters in H.
  do 26 (destruct i as [|i]; [cbn in H; injection H as <-; reflexivity|]).
  cbn in H. discriminate.
Qed.

Lemma digits_digit i c : String.get i digits = Some c -> isDigit c = true.
Proof.
  intros H. unfold digits in H.
  do 10 (destruct i as [|i]; [cbn in H; injection H as <-; reflexivity|]).
  cbn in H. discriminate.
Qed.

(** Every pass of the loop body yields a text of the fixed shape. *)
Lemma candidate_shape env p :
  well_formed env -> ticketIdShape (candidate env p) = true.
Proof.
  intros Hwf. unfold candidate.
  assert (HL : (0 < String.length letters)%nat) by (cbn; lia).
  assert (HD : (0 < String.length digits)%nat) by (cbn; lia).
  destruct (pick_step env letters 4 p Hwf HL) as (a & ia & Ha & ->).
  destruct (pick_step env letters 3 (S p) Hwf HL) as (b & ib & Hb & ->).
  destruct (pick_step env letters 2 (S (S p)) Hwf HL) as (c & ic & Hc & ->).
  destruct (pick_step env letters 1 (S (S (S p))) Hwf HL) as (d & id & Hd & ->).
  destruct (pick_step env letters 0 (S (S (S (S p)))) Hwf HL) as (e & ie & He & ->).
  destruct (pick_step env digits 2 (p + 5) Hwf HD) as (x & ix & Hx & ->).
  destruct (pick_step env digits 1 (S (p + 5)) Hwf HD) as (y & iy & Hy & ->).
  destruct (pick_step env digits 0 (S (S (p + 5))) Hwf HD) as (z & iz & Hz & ->).
  rewrite !app_cons, app_nil_l. cbn -[isUpper isDigit].
  rewrite (letters_upper _ _ Ha), (letters_upper _ _ Hb), (letters_upper _ _ Hc),
    (letters_upper _ _ Hd), (letters_upper _ _ He),
    (digits_digit _ _ Hx), (digits_digit _ _ Hy), (digits_digit _ _ Hz).
  reflexivity.
Qed.

(** The loop returns the first candidate that is not in the used set,
    after having rejected all the earlier ones. *)
Lemma randTicketId_loop_first env (U : gset string) : forall (k p : nat),
  (forall j, (j < k)%nat -> candidate env (p + 8 * j) ∈ U) ->
  candidate env (p + 8 * k) ∉ U ->
  forall fuel, (k < fuel)%nat ->
    randTicketId_loop fuel env U p = Some (candidate env (p + 8 * k), (p + 8 * S k)%nat).
Proof.
  induction k as [|k IH]; intros p Hrej Hfresh fuel Hfuel;
    (destruct fuel as [|fuel]; [lia|]); cbn [randTicketId_loop].
  - replace (p + 8 * 0)%nat with p in Hfresh |- * by lia.
    destruct (decide (candidate env p ∈ U)) as [Hin|_]; [contradiction|].
    replace (p + 8 * 1)%nat with (p + 8)%nat by lia. reflexivity.
  - pose proof (Hrej 0%nat ltac:(lia)) as H0.
    replace (p + 8 * 0)%nat with p in H0 by lia.
    destruct (decide (candidate env p ∈ U)) as [_|Hout]; [|contradiction].
    rewrite (IH (p + 8)%nat).
    + replace (p + 8 + 8 * k)%nat with (p + 8 * S k)%nat by lia.
      replace (p + 8 + 8 * S k)%nat with (p + 8 * S (S k))%nat by lia.
      reflexivity.
    + intros j Hj. replace (p + 8 + 8 * j)%nat with (p + 8 * S j)%nat by lia.
      apply Hrej. lia.
    + replace (p + 8 + 8 * k)%nat with (p + 8 * S k)%nat by lia. exact Hfresh.
    + lia.
Qed.

(** With a used set that contains every candidate the loop never ends. *)
Lemma randTicketId_loop_covered env (U : gset string) : forall fuel p,
  (forall q, candidate env q ∈ U) -> randTicketId_loop fuel env U p = None.
Proof.
  induction fuel as [|fuel IH]; intros p Hall; cbn [randTicketId_loop]; [reflexivity|].
  destruct (decide (candidate env p ∈ U)) as [_|Hout]; [|destruct Hout; apply Hall].
  apply IH, Hall.
Qed.

Lemma first_index_below (P : nat -> Prop) (Hdec : forall n, Decision (P n)) : forall k,
  (forall j, (j < k)%nat -> ~ P j) \/
  (exists n, (n < k)%nat /\ P n /\ forall j, (j < n)%nat -> ~ P j).
Proof.
  induction k as [|k [Hnone|(n & Hn & HP & Hmin)]].
  - left. intros j Hj. lia.
  - destruct (decide (P k)) as [Hk|Hk].
    + right. exists k. split; [lia|]. split; assumption.
    + left. intros j Hj. destruct (decide (j = k)) as [->|Hne]; [exact Hk|].
      apply Hnone. lia.
  - right. exists n. split; [lia|]. split; assumption.
Qed.

Lemma first_index (P : nat -> Prop) (Hdec : forall n, Decision (P n)) k :
  P k -> exists n, (n <= k)%nat /\ P n /\ forall j, (j < n)%nat -> ~ P j.
Proof.
  intros Hk. destruct (first_index_below P Hdec (S k)) as [Hnone|(n & Hn & HP & Hmin)].
  - destruct (Hnone k ltac:(lia) Hk).
  - exists n. split; [lia|]. split; assumption.
Qed.

Lemma randTicketId_runs (env : Env) (U : gset string) (w : World) :
  (exists k, candidate env (draws w + 8 * k) ∉ U) ->
  exists (n : nat),
    (forall fuel, (n < fuel)%nat ->
       randTicketId fuel env U w =
       Ret (candidate env (draws w + 8 * n))
           {| draws := draws w + 8 * S n; reads := reads w |}) /\
    (candidate env (draws w + 8 * n) ∉ U) /\
    (forall j, (j < n)%nat -> candidate env (draws w + 8 * j) ∈ U).
Proof.
  intros [k Hk].
  destruct (first_index (fun k => candidate env (draws w + 8 * k) ∉ U) _ k Hk)
    as (n & _ & Hfresh & Hmin).
  assert (Hrej : forall j, (j < n)%nat -> candidate env (draws w + 8 * j) ∈ U).
  { intros j Hj. destruct (decide (candidate env (draws w + 8 * j) ∈ U)) as [H|H];
      [exact H|]. destruct (Hmin j Hj H). }
  exists n. split; [|split; [exact Hfresh|exact Hrej]].
  intros fuel Hfuel. unfold randTicketId.
  rewrite (randTicketId_loop_first env U n (draws w) Hrej Hfresh fuel Hfuel).
  reflexivity.
Qed.

(** What a call makes of its budget: either it returns the first
    candidate outside the used set, every earlier one having been
    rejected, or the budget went into candidates that were all used. *)
Lemma randTicketId_loop_outcome env (U : gset string) : forall fuel p,
  match randTicketId_loop fuel env U p with
  | Some (id, p') =>
      exists n : nat, (n < fuel)%nat /\ id = candidate env (p + 8 * n) /\ (id ∉ U) /\
        (forall j, (j < n)%nat -> candidate env (p + 8 * j) ∈ U) /\
        p' = (p + 8 * S n)%nat
  | None => forall j, (j < fuel)%nat -> candidate env (p + 8 * j) ∈ U
  end.
Proof.
  induction fuel as [|fuel IH]; intros p; cbn [randTicketId_loop]; [intros j Hj; lia|].
  destruct (decide (candidate env p ∈ U)) as [Hin|Hout].
  - specialize (IH (p + 8)%nat).
    destruct (randTicketId_loop fuel env U (p + 8)) as [[id p']|].
    + destruct IH as (n & Hn & -> & Hfresh & Hrej & ->).
      exists (S n). split; [lia|].
      replace (p + 8 * S n)%nat with (p + 8 + 8 * n)%nat by lia.
      split; [reflexivity|]. split; [exact Hfresh|]. split; [|lia].
      intros [|j] Hj.
      * replace (p + 8 * 0)%nat with p by lia. exact Hin.
      * replace (p + 8 * S j)%nat with (p + 8 + 8 * j)%nat by lia. apply Hrej. lia.
    + intros [|j] Hj.
      * replace (p + 8 * 0)%nat with p by lia. exact Hin.
      * replace (p + 8 * S j)%nat with (p + 8 + 8 * j)%nat by lia. apply IH. lia.
  - exists 0%nat. split; [lia|].
    replace (p + 8 * 0)%nat with p by lia.
    split; [reflexivity|]. split; [exact Hout|]. split; [intros j Hj|]; lia.
Qed.

(** *** Every text of the shape can be drawn *)

Lemma upper_drawn c :
  isUpper c = true ->
  exists k, 0 <= k < 2 ^ 53 /\ char_at letters (floor_scale k 26) = Some c.
Proof.
  intros H. exists (sampleFor 26 (Z.of_nat (Ascii.nat_of_ascii c) - 65)).
  destruct c as [b0 b1 b2 b3 b4 b5 b6 b7].
  destruct b0, b1, b2, b3, b4, b5, b6, b7; try discriminate H;
    repeat split; vm_compute; congruence.
Qed.

Lemma digit_drawn c :
  isDigit c = true ->
  exists k, 0 <= k < 2 ^ 53 /\ char_at digits (floor_scale k 10) = Some c.
Proof.
  intros H. exists (sampleFor 10 (Z.of_nat (Ascii.nat_of_ascii c) - 48)).
  destruct c as [b0 b1 b2 b3 b4 b5 b6 b7].
  destruct b0, b1, b2, b3, b4, b5, b6, b7; try discriminate H;
    repeat split; vm_compute; congruence.
Qed.

(** X7.  Whatever text of the fixed shape is chosen, some stream of samples
    makes the first pass of the loop draw it: a used set that misses one
    text of the shape can be escaped. *)
Lemma every_shape_drawn (id : string) :
  ticketIdShape id = true ->
  exists env, well_formed env /\ candidate env 0 = id.
Proof.
  intros H.
  destruct id as [|a [|b [|c [|d [|e [|x [|y [|z [|? ?]]]]]]]]]; try discriminate H.
  cbn [ticketIdShape] in H. rewrite !andb_true_iff in H.
  destruct H as (((((((Ha & Hb) & Hc) & Hd) & He) & Hx) & Hy) & Hz).
  destruct (upper_drawn a Ha) as (ka & Ra & Ea), (upper_drawn b Hb) as (kb & Rb & Eb),
    (upper_drawn c Hc) as (kc & Rc & Ec), (upper_drawn d Hd) as (kd & Rd & Ed),
    (upper_drawn e He) as (ke & Re & Ee), (digit_drawn x Hx) as (kx & Rx & Ex),
    (digit_drawn y Hy) as (ky & Ry & Ey), (digit_drawn z Hz) as (kz & Rz & Ez).
  exists (streamOf [ka; kb; kc; kd; ke; kx; ky; kz]). split.
  - intros n. cbn [random streamOf].
    do 8 (destruct n as [|n]; [cbn [nth]; assumption|]).
    destruct n; cbn; lia.
  - unfold candidate. cbn [pick random streamOf nth Nat.add].
    change (Z.of_nat (String.length letters)) with 26.
    change (Z.of_nat (String.length digits)) with 10.
    rewrite Ea, Eb, Ec, Ed, Ee, Ex, Ey, Ez. reflexivity.
Qed.

(** *** The first script's generator *)

Lemma upper_code i :
  0 <= i < 26 -> isUpper (Ascii.ascii_of_nat (Z.to_nat (65 + i))) = true.
Proof.
  intros Hi. unfold isUpper.
  rewrite Ascii.nat_ascii_embedding by lia.
  apply andb_true_iff. split; apply Nat.leb_le; lia.
Qed.

Lemma padded_three_digits (m : nat) :
  (m < 1000)%nat -> threeDigits (Text.padStart 3 "0"%char (Text.String_of_nat m)) = true.
Proof.
  intros Hm.
  assert (Hall : forallb (fun m => threeDigits (Text.padStart 3 "0"%char (Text.String_of_nat m)))
                         (seq 0 1000) = true) by (vm_compute; reflexivity).
  rewrite forallb_forall in Hall. apply Hall. apply in_seq. lia.
Qed.

(** One pass, no used set: the text has the fixed shape all the same. *)
Lemma generateTicketId_shape env w :
  well_formed env ->
  exists id, generateTicketId env w = Ret id {| draws := draws w + 6; reads := reads w |} /\
             ticketIdShape id = true.
Proof.
  intros Hwf. unfold generateTicketId. eexists. split; [reflexivity|].
  pose proof (padded_three_digits
                (Z.to_nat (floor_scale (random env (draws w + 5)) 1000))) as Hnum.
  pose proof (floor_scale_range _ 1000 (Hwf (draws w + 5)%nat) ltac:(lia)) as Hr.
  specialize (Hnum ltac:(lia)).
  destruct (Text.padStart 3 "0"%char _) as [|x [|y [|z [|? ?]]]]; try discriminate Hnum.
  cbn [threeDigits] in Hnum. rewrite !andb_true_iff in Hnum. destruct Hnum as ((Hx & Hy) & Hz).
  cbn [fromCharCodes]. rewrite !app_cons, app_nil_l. cbn [ticketIdShape].
  rewrite !upper_code by (apply floor_scale_range; [apply Hwf|lia]).
  rewrite Hx, Hy, Hz. reflexivity.
Qed.

(** Any text of the shape can be the candidate of any pass. *)
Lemma candidate_reachable (id : string) (p : nat) :
  ticketIdShape id = true ->
  exists env, well_formed env /\ candidate env p = id.
Proof.
  intros H.
  destruct id as [|a [|b [|c [|d [|e [|x [|y [|z [|? ?]]]]]]]]]; try discriminate H.
  cbn [ticketIdShape] in H. rewrite !andb_true_iff in H.
  destruct H as (((((((Ha & Hb) & Hc) & Hd) & He) & Hx) & Hy) & Hz).
  destruct (upper_drawn a Ha) as (ka & Ra & Ea), (upper_drawn b Hb) as (kb & Rb & Eb),
    (upper_drawn c Hc) as (kc & Rc & Ec), (upper_drawn d Hd) as (kd & Rd & Ed),
    (upper_drawn e He) as (ke & Re & Ee), (digit_drawn x Hx) as (kx & Rx & Ex),
    (digit_drawn y Hy) as (ky & Ry & Ey), (digit_drawn z Hz) as (kz & Rz & Ez).
  set (ks := [ka; kb; kc; kd; ke; kx; ky; kz]).
  exists (mkEnv (fun n => nth (n - p) ks 0) (fun _ => EmptyString)). split.
  - intros n. cbn [random]. subst ks.
    generalize (n - p)%nat. intros m.
    do 8 (destruct m as [|m]; [cbn [nth]; assumption|]).
    destruct m; cbn; lia.
  - unfold candidate. cbn [pick random].
    change (Z.of_nat (String.length letters)) with 26.
    change (Z.of_nat (String.length digits)) with 10.
    replace (p - p)%nat with 0%nat by lia.
    replace (S p - p)%nat with 1%nat by lia.
    replace (S (S p) - p)%nat with 2%nat by lia.
    replace (S (S (S p)) - p)%nat with 3%nat by lia.
    replace (S (S (S (S p))) - p)%nat with 4%nat by lia.
    replace (p + 5 - p)%nat with 5%nat by lia.
    replace (S (p + 5) - p)%nat with 6%nat by lia.
    replace (S (S (p + 5)) - p)%nat with 7%nat by lia.
    subst ks. cbn [nth].
    rewrite Ea, Eb, Ec, Ed, Ee, Ex, Ey, Ez. reflexivity.
Qed.

(** C3, as the program has it.  [randTicketId] is unconditional
    rejection sampling: whatever the used set [U], the samples and the
    budget, a call either returns an identifier of the fixed shape (five
    capital letters, three digits) that is not in [U] and is the first
    candidate outside [U], the candidates before it having been drawn
    and rejected, or has spent its whole budget on candidates that were
    all in [U]; it raises nothing.  When [U] misses a text of the shape,
    some samples make the very next pass return that text.
    [generateTicketId] of the first script makes one pass of six draws,
    is given no used set, and returns a text of the same shape. *)
Theorem C3_randTicketId_fresh (U : gset string) :
  (forall env fuel w, well_formed env ->
     (exists (n : nat) (id : string),
        (n < fuel)%nat /\
        randTicketId fuel env U w =
        Ret id {| draws := draws w + 8 * S n; reads := reads w |} /\
        ticketIdShape id = true /\
        (id ∉ U) /\
        id = candidate env (draws w + 8 * n) /\
        (forall j, (j < n)%nat -> candidate env (draws w + 8 * j) ∈ U)) \/
     (randTicketId fuel env U w = Diverge /\
      forall j, (j < fuel)%nat -> candidate env (draws w + 8 * j) ∈ U)) /\
  (forall id w, ticketIdShape id = true -> id ∉ U ->
     exists env, well_formed env /\
       forall fuel, randTicketId (S fuel) env U w =
                    Ret id {| draws := draws w + 8; reads := reads w |}) /\
  (forall env w, well_formed env ->
     exists id, generateTicketId env w = Ret id {| draws := draws w + 6; reads := reads w |} /\
                ticketIdShape id = true).
Proof.
  split; [|split].
  - intros env fuel w Hwf. unfold randTicketId.
    pose proof (randTicketId_loop_outcome env U fuel (draws w)) as Hout.
    destruct (randTicketId_loop fuel env U (draws w)) as [[id p']|].
    + left. destruct Hout as (n & Hn & -> & Hfresh & Hrej & ->).
      exists n, (candidate env (draws w + 8 * n)).
      split; [exact Hn|]. split; [reflexivity|].
      split; [apply candidate_shape, Hwf|]. split; [exact Hfresh|].
      split; [reflexivity|exact Hrej].
    + right. split; [reflexivity|exact Hout].
  - intros id w Hshape Hfresh.
    destruct (candidate_reachable id (draws w) Hshape) as (env & Hwf & Hcand).
    exists env. split; [exact Hwf|]. intros fuel.
    unfold randTicketId. cbn [randTicketId_loop]. rewrite Hcand.
    destruct (decide (id ∈ U)) as [Hin|_]; [contradiction|reflexivity].
  - intros env w Hwf. apply generateTicketId_shape, Hwf.
Qed.

End IdGenFacts.

(** ** Ticket creation *)

Section RegistryFacts.
Import Eff Registry.

Lemma findSlot_member (slots : list Slot.t) (s : Slot.t) :
  s ∈ slots -> exists s', findSlot slots (Slot.id s) = Some s' /\ Slot.id s' = Slot.id s.
Proof.
  unfold findSlot. induction slots as [|x slots IH]; intros Hin.
  - inversion Hin.
  - cbn. destruct (String.eqb_spec (Slot.id x) (Slot.id s)) as [E|NE].
    + eauto.
    + apply elem_of_cons in Hin as [->|Hin]; [congruence|]. apply IH, Hin.
Qed.

Lemma findSlot_some (slots : list Slot.t) k s :
  findSlot slots k = Some s -> s ∈ slots /\ Slot.id s = k.
Proof.
  unfold findSlot. induction slots as [|x slots IH]; cbn; [discriminate|].
  destruct (String.eqb_spec (Slot.id x) k) as [E|NE].
  - intros [= <-]. split; [left|exact E].
  - intros H. destruct (IH H) as [Hin Hid]. split; [right; exact Hin|exact Hid].
Qed.

Lemma findSlot_none (slots : list Slot.t) k :
  findSlot slots k = None <-> forall s, s ∈ slots -> Slot.id s <> k.
Proof.
  unfold findSlot. induction slots as [|x slots IH]; cbn.
  - split; [intros _ s Hs; inversion Hs|reflexivity].
  - destruct (String.eqb_spec (Slot.id x) k) as [E|NE].
    + split; [discriminate|]. intros H. destruct (H x); [left|exact E].
    + rewrite IH. split.
      * intros H s Hs. apply elem_of_cons in Hs as [->|Hs]; [exact NE|apply H, Hs].
      * intros H s Hs. apply H. right. exact Hs.
Qed.

(** C2, as the program has it: on a slot of the current list whose
    count has reached the capacity, [createTicket] with a name that is
    not blank shows the slot-full message (a [CapacityError]) and
    leaves the whole state, the registry included, as it was. *)
Theorem C2_createTicket_full_slot fuel env (slots : list Slot.t) st w (slot : Slot.t) :
  slot ∈ slots ->
  slotId st = Slot.id slot ->
  Text.allWhite (name st) = false ->
  slotCapacity (settings st) <= Z.of_nat (capacityForSlot (tickets st) (Slot.id slot)) ->
  createTicket fuel env slots st w = Ret (st, SlotFull) w /\
  error_of SlotFull = Some CapacityError.
Proof.
  intros Hin Hid Hname Hfull. split; [|reflexivity].
  unfold createTicket. rewrite Hid.
  destruct (findSlot_member slots slot Hin) as (s' & -> & _).
  destruct (Text.trim (name st)) as [|c r] eqn:Htrim.
  - apply trim_blank in Htrim. congruence.
  - cbn [Text.truthy negb].
    destruct (Z.geb_spec (Z.of_nat (capacityForSlot (tickets st) (Slot.id slot)))
                (slotCapacity (settings st))) as [_|Hlt]; [reflexivity|lia].
Qed.

(** C6.  Whatever the registry and the selected slot (in the list or
    not, full or not), [createTicket] with an empty or white-space-only
    name ends with a [ValidationError] message and leaves the whole
    state, hence the registry, as it was. *)
Theorem C6_createTicket_blank_name fuel env (slots : list Slot.t) st w :
  Text.allWhite (name st) = true ->
  exists a,
    createTicket fuel env slots st w = Ret (st, a) w /\
    error_of a = Some ValidationError /\
    (a = InvalidSlot \/ a = NameRequired).
Proof.
  intros Hblank. apply trim_blank in Hblank.
  unfold createTicket. destruct (findSlot slots (slotId st)) as [slot|].
  - rewrite Hblank. exists NameRequired. cbn. auto.
  - exists InvalidSlot. cbn. auto.
Qed.

End RegistryFacts.

(** ** Settings store *)

Section SettingsFacts.
Import SettingsStore.

Lemma spread_lookup (a b : gmap string Value) (k : string) :
  spread a b !! k = match b !! k with Some v => Some v | None => a !! k end.
Proof.
  unfold spread. rewrite lookup_union. destruct (b !! k), (a !! k); reflexivity.
Qed.

(** C8.  In the merged settings object every field named by the
    partial update holds the new value and every other field holds the
    value it had before. *)
Theorem C8_updateSettings_merge (partial prev : gmap string Value) (k : string) :
  updateSettings partial prev !! k =
  match partial !! k with
  | Some v => Some v
  | None => prev !! k
  end.
Proof.
  unfold updateSettings. rewrite spread_lookup.
  destruct (partial !! k) as [v|]; reflexivity.
Qed.

(** Changing the slot length of a settings record through the object
    view changes that field only. *)
Lemma updateSettings_slotMinutes (s : Settings) (n : Z) :
  updateSettings {[ "slotMinutes" := VNum n ]} (toObject s) =
  toObject (mkSettings (eventTitle s) (location s) n (slotCapacity s)
                       (reminderMinutesBefore s) (adminPin s) (schedule s)).
Proof.
  apply map_eq. intros k. unfold updateSettings. rewrite spread_lookup.
  unfold toObject. cbn.
  destruct (decide (k = "slotMinutes")) as [->|Hne].
  - rewrite lookup_singleton_eq. by simplify_map_eq.
  - rewrite lookup_singleton_ne by done.
    rewrite !lookup_insert. repeat case_decide; congruence.
Qed.

(** The merge is shallow: a partial update that names [schedule]
    replaces the whole schedule. *)
Lemma updateSettings_schedule_whole (s : Settings) (sch : Schedule) :
  updateSettings {[ "schedule" := VSchedule sch ]} (toObject s) !! "schedule"
  = Some (VSchedule sch).
Proof.
  unfold updateSettings. rewrite spread_lookup. by rewrite lookup_singleton_eq.
Qed.

End SettingsFacts.

(** ** Admin panel *)

Section AdminFacts.
Import Registry Admin.

Lemma capacityForSlot_cons (t : Ticket.t) (ts : list Ticket.t) k :
  capacityForSlot (t :: ts) k =
  if decide (Ticket.slotId t = k) then S (capacityForSlot ts k) else capacityForSlot ts k.
Proof.
  unfold capacityForSlot. rewrite filter_cons.
  destruct (decide (Ticket.slotId t = k)); reflexivity.
Qed.

(** After the first pass every slot of the list is mapped to zero. *)
Lemma zero_pass_lookup (slots : list Slot.t) : forall (m : gmap string nat) (s : Slot.t),
  s ∈ slots ->
  foldl (fun m s => <[Slot.id s := O]> m) m slots !! Slot.id s = Some O.
Proof.
  induction slots as [|x slots IH] using rev_ind; intros m s Hin.
  - inversion Hin.
  - rewrite foldl_app. cbn.
    destruct (decide (Slot.id x = Slot.id s)) as [E|NE].
    + rewrite E. apply lookup_insert_eq.
    + rewrite lookup_insert_ne by exact NE.
      apply IH. apply elem_of_app in Hin as [Hin|Hin]; [exact Hin|].
      apply list_elem_of_singleton in Hin. congruence.
Qed.

(** The second pass adds to each key the number of tickets that carry
    it. *)
Lemma count_pass_lookup (tickets : list Ticket.t) : forall (m : gmap string nat) k,
  foldl (fun m t => <[Ticket.slotId t := (default O (m !! Ticket.slotId t) + 1)%nat]> m)
        m tickets !! k =
  match capacityForSlot tickets k with
  | O => m !! k
  | S c => Some (default O (m !! k) + S c)%nat
  end.
Proof.
  induction tickets as [|t ts IH]; intros m k; [reflexivity|].
  cbn [foldl]. rewrite IH, capacityForSlot_cons.
  destruct (decide (Ticket.slotId t = k)) as [->|NE].
  - rewrite lookup_insert_eq.
    destruct (capacityForSlot ts k); cbn; f_equal; lia.
  - rewrite lookup_insert_ne by exact NE. reflexivity.
Qed.

(** C9.  For every slot of the slot list, the entry of [countsBySlot]
    at the slot's id is the number [capacityForSlot] computes. *)
Theorem C9_countsBySlot_agrees (tickets : list Ticket.t) (slots : list Slot.t) (s : Slot.t) :
  s ∈ slots ->
  countsBySlot tickets slots !! Slot.id s = Some (capacityForSlot tickets (Slot.id s)).
Proof.
  intros Hin. unfold countsBySlot. rewrite count_pass_lookup.
  rewrite (zero_pass_lookup slots ∅ s Hin). cbn [default].
  destruct (capacityForSlot tickets (Slot.id s)); reflexivity.
Qed.

End AdminFacts.

(** ** CSV export *)

Section CsvExportFacts.
Import Text Csv.

Lemma undouble_doubleQuotes v : undouble (doubleQuotes v) = v.
Proof.
  induction v as [|c v IH]; [reflexivity|].
  cbn [doubleQuotes]. destruct (is_quote c) eqn:E.
  - cbn. rewrite IH. f_equal.
    unfold is_quote in E. apply Ascii.eqb_eq in E. congruence.
  - cbn [undouble]. rewrite E, IH. reflexivity.
Qed.

Lemma exportCSV_cons (t : Ticket.t) (ts : list Ticket.t) :
  exportCSV (t :: ts) = Text.join newline (headerLine :: map rowLine (t :: ts)).
Proof.
  unfold exportCSV, toCSV. cbn [map].
  change (Text.join sep (keys (exportRow t))) with headerLine.
  f_equal. f_equal.
  change (map rowLine (t :: ts)) with (rowLine t :: map rowLine ts).
  f_equal. rewrite map_map. apply map_ext. intros t'. reflexivity.
Qed.

(** C7, as the program has it.  For a ticket list that is not empty the
    exported text is the header line
    id,name,contact,slot_label,slot_id,created_at followed by one line
    per ticket, in order, the lines being joined by LF; the line of a
    ticket is its six values joined by commas, each value written
    between two double quotes with every double quote inside it
    doubled (so that undoing the doubling gives the value back). *)
Theorem C7_exportCSV_layout (t : Ticket.t) (ts : list Ticket.t) :
  exportCSV (t :: ts) = Text.join newline (headerLine :: map rowLine (t :: ts)) /\
  headerLine = "id,name,contact,slot_label,slot_id,created_at" /\
  length (map rowLine (t :: ts)) = length (t :: ts) /\
  (forall t', rowLine t' =
     quoted (Ticket.id t') +:+ "," +:+ quoted (Ticket.name t') +:+ "," +:+
     quoted (Ticket.contact t') +:+ "," +:+
     quoted (SlotBuilder.format_HHmm (Ticket.slotStartISO t') +:+ "-" +:+
             SlotBuilder.format_HHmm (Ticket.slotEndISO t')) +:+ "," +:+
     quoted (Ticket.slotId t') +:+ "," +:+ quoted (Ticket.createdAtISO t')) /\
  (forall v, quoted v = String quote (doubleQuotes v +:+ String quote EmptyString) /\
             undouble (doubleQuotes v) = v).
Proof.
  split; [apply exportCSV_cons|]. split; [reflexivity|].
  split; [apply length_map|]. split; [reflexivity|].
  intros v. split; [reflexivity|apply undouble_doubleQuotes].
Qed.

End CsvExportFacts.

(** ** CSV import: lines *)

Section CsvLineFacts.
Import Text Csv.

Lemma splitLines_nonempty s : splitLines s <> [].
Proof.
  induction s as [|c s IH]; [discriminate|]. cbn [splitLines].
  assert (H : forall ls, cons_head c ls <> []) by (intros [|l ls]; discriminate).
  destruct (is_LF c); [discriminate|].
  destruct (is_CR c); [|apply H].
  destruct s as [|c2 s'']; [apply H|].
  destruct (is_LF c2); [discriminate|apply H].
Qed.

Lemma noLF_app a b : noLF (a +:+ b) = noLF a && noLF b.
Proof.
  induction a as [|c a IH]; [reflexivity|].
  rewrite app_cons. cbn [noLF]. rewrite IH. apply andb_assoc.
Qed.

Lemma endsWithCR_app a b :
  b <> EmptyString -> endsWithCR (a +:+ b) = endsWithCR b.
Proof.
  intros Hb. induction a as [|c a IH]; [reflexivity|].
  rewrite app_cons. cbn [endsWithCR].
  destruct (a +:+ b) eqn:E; [|exact IH].
  destruct a; [rewrite app_nil_l in E; contradiction|discriminate].
Qed.

(** A line free of LF that does not end with CR, followed by LF, is cut
    off as it stands. *)
Lemma splitLines_line s rest :
  noLF s = true -> endsWithCR s = false ->
  splitLines (s +:+ String LF rest) = s :: splitLines rest.
Proof.
  induction s as [|c s IH]; intros Hlf Hcr; [reflexivity|].
  cbn [noLF] in Hlf. apply andb_true_iff in Hlf as [Hc Hlf].
  apply negb_true_iff in Hc.
  rewrite app_cons. cbn [splitLines]. unfold is_LF at 1. rewrite Hc.
  assert (Htail : splitLines (s +:+ String LF rest) = s :: splitLines rest ->
                  cons_head c (splitLines (s +:+ String LF rest))
                  = String c s :: splitLines rest).
  { intros ->. reflexivity. }
  destruct s as [|c2 s].
  - cbn [endsWithCR] in Hcr. unfold is_CR. rewrite Hcr.
    rewrite app_nil_l. apply Htail. reflexivity.
  - assert (Hc2 : is_LF c2 = false).
    { cbn [noLF] in Hlf. apply andb_true_iff in Hlf as [H _].
      apply negb_true_iff in H. exact H. }
    rewrite app_cons. rewrite Hc2. rewrite <- app_cons.
    destruct (is_CR c); apply Htail; apply IH; assumption.
Qed.

Lemma splitLines_single s : noLF s = true -> splitLines s = [s].
Proof.
  induction s as [|c s IH]; intros Hlf; [reflexivity|].
  cbn [noLF] in Hlf. apply andb_true_iff in Hlf as [Hc Hlf].
  apply negb_true_iff in Hc.
  cbn [splitLines]. unfold is_LF at 1. rewrite Hc.
  destruct s as [|c2 s].
  - destruct (is_CR c); reflexivity.
  - assert (Hc2 : is_LF c2 = false).
    { cbn [noLF] in Hlf. apply andb_true_iff in Hlf as [H _].
      apply negb_true_iff in H. exact H. }
    rewrite Hc2. rewrite (IH Hlf). destruct (is_CR c); reflexivity.
Qed.

(** Lines written one per row come back one per row. *)
Lemma splitLines_join (ls : list string) :
  ls <> [] ->
  Forall (fun l => noLF l = true /\ endsWithCR l = false) ls ->
  splitLines (Text.join newline ls) = ls.
Proof.
  induction ls as [|l ls IH]; intros Hne Hall; [contradiction|].
  apply Forall_cons in Hall as [[Hlf Hcr] Hall].
  destruct ls as [|l2 ls].
  - cbn [Text.join]. apply splitLines_single, Hlf.
  - change (Text.join newline (l :: l2 :: ls))
      with (l +:+ newline +:+ Text.join newline (l2 :: ls)).
    unfold newline at 1. rewrite app_cons, app_nil_l.
    rewrite splitLines_line by assumption.
    rewrite IH; [reflexivity|discriminate|exact Hall].
Qed.

Lemma filter_truthy_all (ls : list string) :
  Forall (fun l => l <> EmptyString) ls -> List.filter truthy ls = ls.
Proof.
  induction 1 as [|l ls Hl _ IH]; [reflexivity|].
  cbn [List.filter]. destruct l; [contradiction|]. cbn [truthy]. rewrite IH. reflexivity.
Qed.

End CsvLineFacts.

(** ** CSV import: columns *)

Section CsvColumnFacts.
Import Text Csv.

Lemma length_app (a b : string) :
  String.length (a +:+ b) = (String.length a + String.length b)%nat.
Proof.
  induction a as [|c a IH]; [reflexivity|]. rewrite app_cons. cbn. rewrite IH. reflexivity.
Qed.

Lemma substring_prefix (a k : string) :
  String.substring 0 (String.length a) (a +:+ k) = a.
Proof.
  induction a as [|c a IH].
  - cbn. destruct k; reflexivity.
  - rewrite app_cons. cbn. rewrite IH. reflexivity.
Qed.

Lemma matchAll_cons_0 c s :
  matchAll 0 (String c s) =
  match matchAt (String c s) with
  | Some n => String.substring 0 n (String c s) :: matchAll (n - 1) s
  | None => matchAll 0 s
  end.
Proof. reflexivity. Qed.

(** The characters of a match are passed over. *)
Lemma matchAll_skip (a k : string) :
  matchAll (String.length a) (a +:+ k) = matchAll 0 k.
Proof.
  induction a as [|c a IH]; [reflexivity|]. rewrite app_cons. cbn. exact IH.
Qed.

Lemma quoted_eq v : quoted v = String quote (doubleQuotes v +:+ String quote EmptyString).
Proof. reflexivity. Qed.

(** On a value written by [esc], the first alternative stops at the
    closing quote. *)
Lemma quotedTail_doubleQuotes v k :
  starts_with_quote k = false ->
  quotedTail (doubleQuotes v +:+ String quote k) = Some (S (String.length (doubleQuotes v))).
Proof.
  intros Hk. induction v as [|c v IH].
  - rewrite app_nil_l. cbn.
    destruct k as [|c2 k]; [reflexivity|]. cbn in Hk. rewrite Hk. reflexivity.
  - cbn [doubleQuotes]. destruct (is_quote c) eqn:E.
    + rewrite !app_cons. cbn [quotedTail].
      change (is_quote quote) with true. cbn iota.
      rewrite IH. reflexivity.
    + rewrite app_cons. cbn [quotedTail]. rewrite E, IH. reflexivity.
Qed.

Lemma matchAll_quoted v k :
  starts_with_quote k = false ->
  matchAll 0 (quoted v +:+ k) = quoted v :: matchAll 0 k.
Proof.
  intros Hk. rewrite quoted_eq.
  rewrite app_cons, app_assoc, app_cons, app_nil_l.
  rewrite matchAll_cons_0. unfold matchAt.
  change (is_quote quote) with true. cbn iota.
  rewrite (quotedTail_doubleQuotes v k Hk).
  f_equal.
  - cbn [String.substring]. f_equal.
    replace (S (String.length (doubleQuotes v)))
      with (String.length (doubleQuotes v +:+ String quote EmptyString))
      by (rewrite length_app; cbn; lia).
    replace (doubleQuotes v +:+ String quote k)
      with ((doubleQuotes v +:+ String quote EmptyString) +:+ k)
      by (rewrite app_assoc; reflexivity).
    apply substring_prefix.
  - replace (S (S (String.length (doubleQuotes v))) - 1)%nat
      with (String.length (doubleQuotes v +:+ String quote EmptyString))
      by (rewrite length_app; cbn; lia).
    replace (doubleQuotes v +:+ String quote k)
      with ((doubleQuotes v +:+ String quote EmptyString) +:+ k)
      by (rewrite app_assoc; reflexivity).
    apply matchAll_skip.
Qed.

Lemma matchAll_comma k : matchAll 0 (String comma k) = matchAll 0 k.
Proof. reflexivity. Qed.

(** The pattern finds, in a line written by [toCSV], exactly the
    quoted values, whatever they contain. *)
Lemma matchAll_join (vs : list string) :
  matchAll 0 (Text.join sep (map quoted vs)) = map quoted vs.
Proof.
  induction vs as [|v vs IH]; [reflexivity|].
  destruct vs as [|v2 vs].
  - cbn [map Text.join]. rewrite <- (app_nil_r (quoted v)) at 1.
    rewrite matchAll_quoted by reflexivity. reflexivity.
  - change (Text.join sep (map quoted (v :: v2 :: vs)))
      with (quoted v +:+ sep +:+ Text.join sep (map quoted (v2 :: vs))).
    unfold sep at 1. rewrite app_cons, app_nil_l.
    rewrite matchAll_quoted by reflexivity.
    rewrite matchAll_comma, IH. reflexivity.
Qed.

Lemma dropTrailingQuote_app a :
  dropTrailingQuote (a +:+ String quote EmptyString) = a.
Proof.
  induction a as [|c a IH]; [reflexivity|].
  rewrite app_cons. cbn [dropTrailingQuote]. rewrite IH.
  destruct a; reflexivity.
Qed.

Lemma stripQuotes_quoted v : stripQuotes (quoted v) = doubleQuotes v.
Proof.
  rewrite quoted_eq. unfold stripQuotes. cbn [dropLeadingQuote].
  change (is_quote quote) with true. cbn iota. apply dropTrailingQuote_app.
Qed.

(** A line written by [toCSV] is read back as the values it was made
    of. *)
Lemma parseRow_join (vs : list string) :
  parseRow (Text.join sep (map quoted vs)) = vs.
Proof.
  unfold parseRow. rewrite matchAll_join, map_map.
  rewrite <- (map_id vs) at 2. apply map_ext. intros v.
  rewrite stripQuotes_quoted. apply undouble_doubleQuotes.
Qed.

End CsvColumnFacts.

(** ** CSV export followed by import *)

Section CsvRoundTripFacts.
Import Text Eff Csv.

Lemma noLF_doubleQuotes v : noLF (doubleQuotes v) = noLF v.
Proof.
  induction v as [|c v IH]; [reflexivity|].
  cbn [doubleQuotes]. destruct (is_quote c) eqn:E.
  - apply Ascii.eqb_eq in E. subst c. cbn [noLF]. rewrite IH. reflexivity.
  - cbn [noLF]. rewrite IH. reflexivity.
Qed.

Lemma noLF_quoted v : noLF (quoted v) = noLF v.
Proof.
  rewrite quoted_eq. cbn [noLF]. rewrite noLF_app, noLF_doubleQuotes.
  cbn. apply andb_true_r.
Qed.

Lemma noLF_join_quoted (vs : list string) :
  Forall (fun v => noLF v = true) vs -> noLF (Text.join sep (map quoted vs)) = true.
Proof.
  induction 1 as [|v vs Hv Hvs IH]; [reflexivity|].
  destruct vs as [|v2 vs].
  - cbn [map Text.join]. rewrite noLF_quoted. exact Hv.
  - change (Text.join sep (map quoted (v :: v2 :: vs)))
      with (quoted v +:+ sep +:+ Text.join sep (map quoted (v2 :: vs))).
    rewrite !noLF_app, noLF_quoted, Hv, IH. reflexivity.
Qed.

Lemma endsWithCR_quoted v : endsWithCR (quoted v) = false.
Proof.
  rewrite quoted_eq, <- app_cons. rewrite endsWithCR_app by discriminate. reflexivity.
Qed.

Lemma endsWithCR_join_quoted (vs : list string) :
  endsWithCR (Text.join sep (map quoted vs)) = false.
Proof.
  induction vs as [|v vs IH]; [reflexivity|].
  destruct vs as [|v2 vs].
  - apply endsWithCR_quoted.
  - change (Text.join sep (map quoted (v :: v2 :: vs)))
      with (quoted v +:+ sep +:+ Text.join sep (map quoted (v2 :: vs))).
    rewrite endsWithCR_app by discriminate.
    rewrite endsWithCR_app; [exact IH|].
    cbn [map Text.join]. rewrite quoted_eq. destruct (map quoted vs); discriminate.
Qed.

Lemma noLF_replicate n c : Ascii.eqb c LF = false -> noLF (replicate_char n c) = true.
Proof. intros Hc. induction n as [|n IH]; [reflexivity|]. cbn. rewrite Hc, IH. reflexivity. Qed.

Lemma noLF_uint (d : Decimal.uint) : noLF (NilEmpty.string_of_uint d) = true.
Proof. induction d; cbn; try rewrite IHd; reflexivity. Qed.

Lemma noLF_String_of_nat n : noLF (String_of_nat n) = true.
Proof.
  unfold String_of_nat, NilZero.string_of_uint.
  destruct (Nat.to_uint n); try reflexivity; apply noLF_uint.
Qed.

Lemma noLF_format t : noLF (SlotBuilder.format_HHmm t) = true.
Proof.
  unfold SlotBuilder.format_HHmm, SlotBuilder.two_digits, padStart.
  rewrite !noLF_app, !noLF_String_of_nat, !noLF_replicate by reflexivity.
  reflexivity.
Qed.

Lemma lineFree_fields t :
  lineFree t = true -> Forall (fun v => noLF v = true) (fields t).
Proof.
  unfold lineFree. rewrite !andb_true_iff. intros ((((H1 & H2) & H3) & H4) & H5).
  unfold fields. repeat constructor; try assumption.
  rewrite !noLF_app, !noLF_format. reflexivity.
Qed.

(** The exported text of a list that is not empty is cut into the
    header line and the lines of the tickets. *)
Lemma nonEmptyLines_export (t : Ticket.t) (ts : list Ticket.t) :
  Forall (fun t => lineFree t = true) (t :: ts) ->
  nonEmptyLines (exportCSV (t :: ts)) = headerLine :: map rowLine (t :: ts).
Proof.
  intros Hall. unfold nonEmptyLines. rewrite exportCSV_cons.
  rewrite splitLines_join.
  - apply filter_truthy_all. constructor; [discriminate|].
    apply Forall_map. apply Forall_forall. intros t' _.
    unfold rowLine, fields. cbn [map Text.join]. rewrite quoted_eq. discriminate.
  - discriminate.
  - constructor; [split; reflexivity|].
    apply Forall_map. eapply Forall_impl; [exact Hall|].
    intros t' Ht'. cbn beta in *. split.
    + apply noLF_join_quoted, lineFree_fields, Ht'.
    + apply endsWithCR_join_quoted.
Qed.

Lemma header_parse : map stripQuotes (splitComma headerLine) = headerNames.
Proof. reflexivity. Qed.

Lemma parseRow_rowLine t : parseRow (rowLine t) = fields t.
Proof. apply parseRow_join. Qed.

Lemma or_else_same v : or_else (Some v) EmptyString = v.
Proof. destruct v; reflexivity. Qed.

Lemma importRows_exported fuel env (slots : list Slot.t) (cur : list Ticket.t) :
  forall (ts : list Ticket.t) w,
    Forall (roundTrippable slots) ts ->
    exists out w',
      importRows fuel env slots cur headerNames (map rowLine ts) w = Ret out w' /\
      Forall2 preserved ts out.
Proof.
  induction ts as [|t ts IH]; intros w Hall.
  - exists [], w. split; [reflexivity|constructor].
  - apply Forall_cons in Hall as [(Hid & _ & s & Hs & Hsid) Hall].
    cbn [map importRows]. rewrite parseRow_rowLine.
    change (js_nth (fields t) (indexOf "slot_id" headerNames)) with (Some (Ticket.slotId t)).
    change (js_nth (fields t) (indexOf "id" headerNames)) with (Some (Ticket.id t)).
    change (js_nth (fields t) (indexOf "name" headerNames)) with (Some (Ticket.name t)).
    change (js_nth (fields t) (indexOf "contact" headerNames)) with (Some (Ticket.contact t)).
    change (js_nth (fields t) (indexOf "created_at" headerNames))
      with (Some (Ticket.createdAtISO t)).
    rewrite !or_else_same.
    destruct (findSlot_member slots s Hs) as (s' & Hfind & Hid').
    rewrite Hsid in Hfind. unfold resolveSlot. rewrite Hfind.
    unfold idOrFresh. destruct (Ticket.id t) as [|c r] eqn:Eid; [contradiction|].
    cbn [truthy]. unfold bind at 1, ret at 1.
    unfold bind at 1.
    destruct (textOrNow env (Some (Ticket.createdAtISO t)) w) as [created w1| |] eqn:Ecr.
    2,3: unfold textOrNow in Ecr; destruct (truthy (Ticket.createdAtISO t)); discriminate.
    destruct (IH w1 Hall) as (out & w' & Hrun & Hout).
    unfold bind at 1. rewrite Hrun. unfold ret.
    eexists _, w'. split; [reflexivity|].
    constructor; [|exact Hout].
    unfold preserved. cbn. repeat split; try congruence.
    intros Hcr. unfold textOrNow in Ecr.
    destruct (Ticket.createdAtISO t); [contradiction|].
    cbn in Ecr. injection Ecr as <- _. reflexivity.
Qed.

End CsvRoundTripFacts.

(** ** CSV import into the registry *)

Section CsvImportFacts.
Import Text Eff Csv.

Lemma textOrNow_returns env v w : exists s w', textOrNow env v w = Ret s w'.
Proof.
  unfold textOrNow, now, ret. destruct v as [s|]; [destruct (truthy s)|]; eauto.
Qed.

Lemma idOrFresh_returns env (U : gset string) v w :
  (exists k, IdGen.candidate env (draws w + 8 * k) ∉ U) ->
  exists (n : nat) id w',
    (forall fuel, (n < fuel)%nat -> idOrFresh fuel env U v w = Ret id w') /\
    (forall x, v = Some x -> x <> EmptyString -> id = x).
Proof.
  intros Hcan.
  destruct (randTicketId_runs env U w Hcan) as (n & Hrun & _).
  unfold idOrFresh. destruct v as [[|c r]|].
  - exists n. do 2 eexists. split; [exact Hrun|]. intros x [= <-] Hx. contradiction.
  - exists 0%nat, (String c r), w. split; [reflexivity|]. intros x [= <-] _. reflexivity.
  - exists n. do 2 eexists. split; [exact Hrun|]. intros x H. discriminate.
Qed.

Lemma resolveSlot_first (s0 : Slot.t) (more : list Slot.t) v :
  exists sl, resolveSlot (s0 :: more) v = Some sl /\
    ((forall s, s ∈ s0 :: more -> v <> Some (Slot.id s)) -> sl = s0) /\
    (forall k s, v = Some k -> Registry.findSlot (s0 :: more) k = Some s -> sl = s).
Proof.
  unfold resolveSlot. destruct v as [k|].
  - destruct (Registry.findSlot (s0 :: more) k) as [s|] eqn:E.
    + exists s. split; [reflexivity|]. split.
      * intros Hnone. apply findSlot_some in E as [Hin Hid].
        destruct (Hnone s Hin). congruence.
      * intros k' s' [= <-] H. congruence.
    + exists s0. split; [reflexivity|]. split; [reflexivity|].
      intros k' s' [= <-] H. congruence.
  - exists s0. split; [reflexivity|]. split; [reflexivity|]. intros k s H. discriminate.
Qed.

Lemma resolveSlot_nil v : resolveSlot [] v = None.
Proof. destruct v; reflexivity. Qed.

(** What [cols[i] || randTicketId(...)] comes to, whatever the samples:
    the value of the line when it is not empty, without a draw; else
    what the generator does with its budget. *)
Lemma idOrFresh_outcome fuel env (U : gset string) v w :
  match idOrFresh fuel env U v w with
  | Ret id w' =>
      (exists x, v = Some x /\ x <> EmptyString /\ id = x /\ w' = w) \/
      ((forall x, v = Some x -> x = EmptyString) /\
       exists n : nat, (n < fuel)%nat /\ id = IdGen.candidate env (draws w + 8 * n) /\
         (id ∉ U) /\ w' = {| draws := draws w + 8 * S n; reads := reads w |})
  | Thrown _ => False
  | Diverge =>
      (forall x, v = Some x -> x = EmptyString) /\
      forall j, (j < fuel)%nat -> IdGen.candidate env (draws w + 8 * j) ∈ U
  end.
Proof.
  assert (Hgen :
    (forall x, v = Some x -> x = EmptyString) ->
    match IdGen.randTicketId fuel env U w with
    | Ret id w' =>
        (exists x, v = Some x /\ x <> EmptyString /\ id = x /\ w' = w) \/
        ((forall x, v = Some x -> x = EmptyString) /\
         exists n : nat, (n < fuel)%nat /\ id = IdGen.candidate env (draws w + 8 * n) /\
           (id ∉ U) /\ w' = {| draws := draws w + 8 * S n; reads := reads w |})
    | Thrown _ => False
    | Diverge =>
        (forall x, v = Some x -> x = EmptyString) /\
        forall j, (j < fuel)%nat -> IdGen.candidate env (draws w + 8 * j) ∈ U
    end).
  { intros Hv. unfold IdGen.randTicketId.
    pose proof (randTicketId_loop_outcome env U fuel (draws w)) as Hout.
    destruct (IdGen.randTicketId_loop fuel env U (draws w)) as [[id p']|].
    - right. split; [exact Hv|].
      destruct Hout as (n & Hn & -> & Hfresh & _ & ->). exists n. auto.
    - split; [exact Hv|exact Hout]. }
  unfold idOrFresh. destruct v as [[|c r]|]; cbn [truthy].
  - apply Hgen. intros x [= <-]. reflexivity.
  - unfold ret. left. exists (String c r). repeat split. discriminate.
  - apply Hgen. intros x H. discriminate.
Qed.

(** With a slot list that is not empty the loop over the data lines
    raises nothing.  If it ends, every line has its ticket; if it does
    not, a line without [id] value had the generator spend the whole
    budget on identifiers of the current registry. *)
Lemma importRows_outcome fuel env (s0 : Slot.t) (more : list Slot.t) (cur : list Ticket.t)
      (header : list string) : forall (rows : list string) w,
  match importRows fuel env (s0 :: more) cur header rows w with
  | Ret out _ => Forall2 (importedFrom header (s0 :: more) s0) rows out
  | Thrown _ => False
  | Diverge =>
      exists row (p : nat), row ∈ rows /\ ~ bearsId header row /\
        forall j, (j < fuel)%nat ->
                  IdGen.candidate env (p + 8 * j) ∈ Registry.existingIds cur
  end.
Proof.
  induction rows as [|line rows IH]; intros w; [constructor|].
  cbn [importRows].
  fold (column header line "id"). fold (column header line "slot_id").
  fold (column header line "name"). fold (column header line "contact").
  fold (column header line "created_at").
  pose proof (idOrFresh_outcome fuel env (Registry.existingIds cur)
                (column header line "id") w) as Hid.
  unfold bind at 1.
  destruct (idOrFresh fuel env (Registry.existingIds cur) (column header line "id") w)
    as [id w1| |]; [|destruct Hid|].
  - destruct (resolveSlot_first s0 more (column header line "slot_id"))
      as (sl & Hsl & Hfallback & Hfound).
    rewrite Hsl.
    destruct (textOrNow_returns env (column header line "created_at") w1)
      as (created & w2 & Hcr).
    unfold bind at 1. rewrite Hcr. unfold bind at 1.
    specialize (IH w2).
    destruct (importRows fuel env (s0 :: more) cur header rows w2) as [out w'| |];
      [|destruct IH|].
    + unfold ret. constructor; [|exact IH].
      unfold importedFrom, assigned. cbn.
      split; [intros H; rewrite (Hfallback H); auto|].
      split; [intros k s Hk Hs; rewrite (Hfound k s Hk Hs); auto|].
      split; [reflexivity|]. split; [reflexivity|]. split; [|reflexivity].
      intros x Hx Hne.
      destruct Hid as [(x' & Hx' & _ & -> & _)|[Hempty _]]; [congruence|].
      destruct (Hne (Hempty x Hx)).
    + destruct IH as (row & p & Hin & Hno & Hused).
      exists row, p. split; [right; exact Hin|]. split; assumption.
  - destruct Hid as [Hempty Hused].
    exists line, (draws w). split; [left|]. split; [|exact Hused].
    intros (x & Hx & Hne). destruct (Hne (Hempty x Hx)).
Qed.

(** With no slot at all the first data line decides: its identifier is
    taken or generated, then reading [slot.id] raises the error. *)
Lemma importRows_no_slot fuel env (cur : list Ticket.t) (header : list string)
      (row : string) (more : list string) w :
  match importRows fuel env [] cur header (row :: more) w with
  | Thrown w' =>
      (bearsId header row /\ w' = w) \/
      (~ bearsId header row /\
       exists n : nat, (n < fuel)%nat /\
         (IdGen.candidate env (draws w + 8 * n) ∉ Registry.existingIds cur) /\
         w' = {| draws := draws w + 8 * S n; reads := reads w |})
  | Ret _ _ => False
  | Diverge =>
      ~ bearsId header row /\
      forall j, (j < fuel)%nat ->
                IdGen.candidate env (draws w + 8 * j) ∈ Registry.existingIds cur
  end.
Proof.
  cbn [importRows]. rewrite resolveSlot_nil.
  fold (column header row "id").
  pose proof (idOrFresh_outcome fuel env (Registry.existingIds cur)
                (column header row "id") w) as Hid.
  unfold bind at 1.
  destruct (idOrFresh fuel env (Registry.existingIds cur) (column header row "id") w)
    as [id w1| |]; [|destruct Hid|].
  - unfold throw.
    destruct Hid as [(x & Hx & Hne & _ & ->)|(Hempty & n & Hn & -> & Hfresh & ->)].
    + left. split; [exists x; split; assumption|reflexivity].
    + right. split.
      * intros (x & Hx & Hne). destruct (Hne (Hempty x Hx)).
      * exists n. auto.
  - destruct Hid as [Hempty Hused]. split; [|exact Hused].
    intros (x & Hx & Hne). destruct (Hne (Hempty x Hx)).
Qed.

(** With a slot list that is not empty and a generator that can
    succeed, every data line yields a ticket. *)
Lemma importRows_returns env (s0 : Slot.t) (more : list Slot.t) (cur : list Ticket.t)
      (header : list string) :
  fair env (Registry.existingIds cur) ->
  forall (rows : list string) w,
    exists (n : nat) out w',
      (forall fuel, (n < fuel)%nat ->
         importRows fuel env (s0 :: more) cur header rows w = Ret out w') /\
      Forall2 (importedFrom header (s0 :: more) s0) rows out.
Proof.
  intros Hfair. induction rows as [|line rows IH]; intros w.
  - exists 0%nat, [], w. split; [reflexivity|constructor].
  - destruct (idOrFresh_returns env (Registry.existingIds cur)
                (column header line "id") w (Hfair (draws w)))
      as (n1 & id & w1 & Hid & Hkeep).
    destruct (resolveSlot_first s0 more (column header line "slot_id"))
      as (sl & Hsl & Hfallback & Hfound).
    destruct (textOrNow_returns env (column header line "created_at") w1)
      as (created & w2 & Hcr).
    destruct (IH w2) as (n2 & out & w' & Hrest & Hout).
    exists (Nat.max n1 n2). eexists. exists w'. split.
    + intros fuel Hfuel. cbn [importRows].
      fold (column header line "id"). fold (column header line "slot_id").
      fold (column header line "name"). fold (column header line "contact").
      fold (column header line "created_at").
      unfold bind at 1. rewrite (Hid fuel ltac:(lia)). rewrite Hsl.
      unfold bind at 1. rewrite Hcr.
      unfold bind at 1. rewrite (Hrest fuel ltac:(lia)). reflexivity.
    + constructor; [|exact Hout].
      unfold importedFrom, assigned. cbn.
      split; [intros H; rewrite (Hfallback H); auto|].
      split; [intros k s Hk Hs; rewrite (Hfound k s Hk Hs); auto|].
      split; [reflexivity|]. split; [reflexivity|]. split; [exact Hkeep|reflexivity].
Qed.

End CsvImportFacts.

(** ** The three statements about [importCSVText] *)

Section CsvImportTheorems.
Import Text Eff Csv.

(** C4, as the program has it.  Take a ticket list in which every
    ticket has a non-empty identifier, no LF in its identifier, name,
    contact, slot identifier and creation time, and a slot identifier
    borne by a slot of the current slot list.  Exporting it and
    importing the text into any registry ends and, when the list is not
    empty, gives a list with, ticket by ticket, the same identifier,
    name, slot identifier and contact, and the same creation time
    wherever the ticket had one.  The empty list exports to the empty
    text, and importing that leaves the registry as it is, whatever it
    holds, without a sample or a clock read. *)
Theorem C4_export_import_roundtrip fuel env (slots : list Slot.t)
        (cur tickets : list Ticket.t) w :
  Forall (roundTrippable slots) tickets ->
  exists out w',
    importCSVText fuel env slots cur (exportCSV tickets) w = Ret out w' /\
    registry_after cur (Ret out w') = Some out /\
    (tickets <> [] -> Forall2 preserved tickets out) /\
    (tickets = [] -> exportCSV tickets = EmptyString /\ out = cur /\ w' = w).
Proof.
  intros Hall. destruct tickets as [|t ts].
  - exists cur, w. split; [reflexivity|]. split; [reflexivity|].
    split; [intros H; destruct (H eq_refl)|]. intros _. repeat split.
  - unfold importCSVText. rewrite nonEmptyLines_export.
    + rewrite header_parse.
      destruct (importRows_exported fuel env slots cur (t :: ts) w Hall)
        as (out & w' & Hrun & Hout).
      exists out, w'. split; [unfold bind; rewrite Hrun; reflexivity|].
      split; [reflexivity|]. split; [intros _; exact Hout|discriminate].
    + eapply Forall_impl; [exact Hall|]. intros t' (_ & H & _). exact H.
Qed.

(** C5, as the program has it.  Take a current slot list that is not
    empty and a text with at least one non-empty line (its header).
    Whatever the samples and the budget, the import raises nothing, and
    when it ends the registry is replaced by a list that has one ticket
    per data line, in order, made from that line alone: a line whose
    [slot_id] value is the identifier of no current slot gets the
    identifier and the bounds of the first slot; a line whose [slot_id]
    is found gets those of the slot found.  It does not end only when
    the generator, called for a data line without [id] value, spends
    the whole budget on identifiers of the current registry: it ends
    whenever every data line has an [id] value, and, with a large
    enough budget, whenever the generator can succeed from every
    position of the sample stream. *)
Theorem C5_import_replaces_and_falls_back env (s0 : Slot.t) (more : list Slot.t)
        (cur : list Ticket.t) (text first : string) (rows : list string) w :
  nonEmptyLines text = first :: rows ->
  (forall fuel,
     match importCSVText fuel env (s0 :: more) cur text w with
     | Ret out w' =>
         registry_after cur (Ret out w') = Some out /\
         length out = length rows /\
         Forall2 (importedFrom (map stripQuotes (splitComma first)) (s0 :: more) s0) rows out
     | Thrown _ => False
     | Diverge =>
         exists row (p : nat),
           row ∈ rows /\ ~ bearsId (map stripQuotes (splitComma first)) row /\
           forall j, (j < fuel)%nat ->
                     IdGen.candidate env (p + 8 * j) ∈ Registry.existingIds cur
     end) /\
  (Forall (bearsId (map stripQuotes (splitComma first))) rows ->
   forall fuel, exists out w',
     importCSVText fuel env (s0 :: more) cur text w = Ret out w') /\
  (fair env (Registry.existingIds cur) ->
   exists (n : nat) out w',
     forall fuel, (n < fuel)%nat ->
       importCSVText fuel env (s0 :: more) cur text w = Ret out w').
Proof.
  intros Hlines.
  assert (Hshape : forall fuel,
    importCSVText fuel env (s0 :: more) cur text w =
    match importRows fuel env (s0 :: more) cur (map stripQuotes (splitComma first)) rows w with
    | Ret out w' => Ret out w'
    | Thrown w' => Thrown w'
    | Diverge => Diverge
    end).
  { intros fuel. unfold importCSVText. rewrite Hlines. reflexivity. }
  split; [|split].
  - intros fuel. rewrite Hshape.
    pose proof (importRows_outcome fuel env s0 more cur
                  (map stripQuotes (splitComma first)) rows w) as Hout.
    destruct (importRows fuel env (s0 :: more) cur (map stripQuotes (splitComma first)) rows w)
      as [out w'| |]; [|exact Hout|exact Hout].
    split; [reflexivity|]. split; [|exact Hout].
    symmetry. eapply Forall2_length, Hout.
  - intros Hids fuel. rewrite Hshape.
    pose proof (importRows_outcome fuel env s0 more cur
                  (map stripQuotes (splitComma first)) rows w) as Hout.
    destruct (importRows fuel env (s0 :: more) cur (map stripQuotes (splitComma first)) rows w)
      as [out w'| |]; [eauto|destruct Hout|].
    destruct Hout as (row & p & Hin & Hno & _).
    destruct (Hno (proj1 (Forall_forall _ _) Hids row Hin)).
  - intros Hfair.
    destruct (importRows_returns env s0 more cur (map stripQuotes (splitComma first))
                Hfair rows w) as (n & out & w' & Hrun & _).
    exists n, out, w'. intros fuel Hfuel. rewrite Hshape, (Hrun fuel Hfuel). reflexivity.
Qed.

(** C10, as the program has it.  With an empty slot list and a text that
    has a header line and at least one non-empty data line, the import
    never reaches [setTickets], whatever the samples and the budget: the
    registry is never replaced.  It ends by raising the error at the
    first data line: at once, without a draw, when that line has an
    [id] value; otherwise after the generator called for that line has
    returned, which takes a pass that draws an identifier outside the
    current registry.  As long as every pass draws an identifier of the
    registry nothing is raised. *)
Theorem C10_import_without_slots env (cur : list Ticket.t)
        (text first row : string) (more : list string) w :
  nonEmptyLines text = first :: row :: more ->
  (forall fuel,
     match importCSVText fuel env [] cur text w with
     | Thrown w' =>
         registry_after cur (Thrown w') = Some cur /\
         ((bearsId (map stripQuotes (splitComma first)) row /\ w' = w) \/
          (~ bearsId (map stripQuotes (splitComma first)) row /\
           exists n : nat, (n < fuel)%nat /\
             (IdGen.candidate env (draws w + 8 * n) ∉ Registry.existingIds cur) /\
             w' = {| draws := draws w + 8 * S n; reads := reads w |}))
     | Ret _ _ => False
     | Diverge =>
         ~ bearsId (map stripQuotes (splitComma first)) row /\
         forall j, (j < fuel)%nat ->
                   IdGen.candidate env (draws w + 8 * j) ∈ Registry.existingIds cur
     end) /\
  (bearsId (map stripQuotes (splitComma first)) row ->
   forall fuel, importCSVText fuel env [] cur text w = Thrown w) /\
  ((exists k, IdGen.candidate env (draws w + 8 * k) ∉ Registry.existingIds cur) ->
   exists (n : nat) w',
     (forall fuel, (n < fuel)%nat ->
        importCSVText fuel env [] cur text w = Thrown w') /\
     registry_after cur (Thrown w') = Some cur).
Proof.
  intros Hlines.
  assert (Hshape : forall fuel,
    importCSVText fuel env [] cur text w =
    match importRows fuel env [] cur (map stripQuotes (splitComma first)) (row :: more) w with
    | Ret out w' => Ret out w'
    | Thrown w' => Thrown w'
    | Diverge => Diverge
    end).
  { intros fuel. unfold importCSVText. rewrite Hlines. reflexivity. }
  split; [|split].
  - intros fuel. rewrite Hshape.
    pose proof (importRows_no_slot fuel env cur (map stripQuotes (splitComma first))
                  row more w) as Hout.
    destruct (importRows fuel env [] cur (map stripQuotes (splitComma first)) (row :: more) w)
      as [out w'|w'|]; [exact Hout| |exact Hout].
    split; [reflexivity|exact Hout].
  - intros (x & Hx & Hne) fuel. rewrite Hshape. cbn [importRows].
    fold (column (map stripQuotes (splitComma first)) row "id"). rewrite Hx.
    rewrite resolveSlot_nil. unfold idOrFresh.
    destruct x as [|c r]; [contradiction|]. reflexivity.
  - intros Hcan.
    destruct (idOrFresh_returns env (Registry.existingIds cur)
                (column (map stripQuotes (splitComma first)) row "id") w Hcan)
      as (n & id & w' & Hid & _).
    exists n, w'. split; [|reflexivity].
    intros fuel Hfuel. rewrite Hshape. cbn [importRows].
    fold (column (map stripQuotes (splitComma first)) row "id").
    rewrite resolveSlot_nil. unfold bind. rewrite (Hid fuel Hfuel). reflexivity.
Qed.

End CsvImportTheorems.

(** ** The program run on the sample data *)

Section Runs.
Import Text Eff Sample.

Lemma env_well_formed : well_formed Sample.env.
Proof. intros n. cbn [random Sample.env]. apply Z.mod_pos_bound. reflexivity. Qed.

Lemma flat_well_formed : well_formed Sample.flat.
Proof. intros n. cbn. lia. Qed.

Lemma flat_candidate p : IdGen.candidate Sample.flat p = "AAAAA000".
Proof. reflexivity. Qed.

Lemma flat_fair (U : gset string) : "AAAAA000" ∉ U -> Csv.fair Sample.flat U.
Proof. intros H p. exists 0%nat. rewrite flat_candidate. exact H. Qed.

Lemma ticketA_id_only : "AAAAA000" ∉ Registry.existingIds [ticketA].
Proof.
  unfold Registry.existingIds. cbn [map list_to_set ticketA Ticket.id].
  intros H. apply elem_of_union in H as [H|H].
  - apply elem_of_singleton in H. discriminate.
  - apply elem_of_empty in H. exact H.
Qed.

(** *** C1 *)

Lemma C1_buildSlots_partition_witness :
  SlotBuilder.dayjs_clock (SlotBuilder.start_text ragged) = Some 540 /\
  SlotBuilder.dayjs_clock (SlotBuilder.end_text ragged) = Some 565 /\
  540 < 565 /\
  0 < slotMinutes ragged /\
  exists slots,
    SlotBuilder.buildSlots SlotBuilder.dayjs_clock 4 ragged = Some slots /\
    Z.of_nat (length slots) = 3.
Proof.
  split; [reflexivity|]. split; [reflexivity|]. split; [reflexivity|].
  split; [reflexivity|].
  pose proof (C1_buildSlots_partition SlotBuilder.dayjs_clock ragged 540 565
                eq_refl eq_refl eq_refl eq_refl) as H.
  cbv zeta in H. destruct H as (slots & Hrun & Hlen & _).
  exists slots. split; [apply Hrun; vm_compute; lia|exact Hlen].
Defined.

(** The range 09:00-09:25 cut in slots of 10 minutes: three slots come
    out where the floor of 25/10 is two, and the third one, 09:20-09:30,
    ends after the end of the schedule. *)
Lemma C1_counterexample_ragged_range :
  SlotBuilder.dayjs_clock (SlotBuilder.start_text ragged) = Some 540 /\
  SlotBuilder.dayjs_clock (SlotBuilder.end_text ragged) = Some 565 /\
  slotMinutes ragged = 10 /\
  SlotBuilder.buildSlots SlotBuilder.dayjs_clock 4 ragged = Some Sample.slots /\
  Z.of_nat (length Sample.slots) <> (565 - 540) / 10 /\
  In slot2 Sample.slots /\
  565 < Slot.endISO slot2.
Proof.
  repeat split; try reflexivity.
  - vm_compute. discriminate.
  - right. right. left. reflexivity.
Qed.

(** *** C2 *)

Lemma C2_createTicket_full_slot_witness :
  slot0 ∈ Sample.slots /\
  Registry.slotId (form "Yamada") = Slot.id slot0 /\
  allWhite (Registry.name (form "Yamada")) = false /\
  slotCapacity (Registry.settings (form "Yamada"))
    <= Z.of_nat (Registry.capacityForSlot (Registry.tickets (form "Yamada")) (Slot.id slot0)) /\
  Registry.createTicket 3 Sample.env Sample.slots (form "Yamada") w0
    = Ret (form "Yamada", Registry.SlotFull) w0.
Proof.
  assert (H1 : slot0 ∈ Sample.slots) by (left).
  assert (H4 : slotCapacity (Registry.settings (form "Yamada"))
               <= Z.of_nat (Registry.capacityForSlot
                              (Registry.tickets (form "Yamada")) (Slot.id slot0)))
    by (vm_compute; discriminate).
  split; [exact H1|]. split; [reflexivity|]. split; [reflexivity|]. split; [exact H4|].
  apply (C2_createTicket_full_slot 3 Sample.env Sample.slots (form "Yamada") w0 slot0
           H1 eq_refl eq_refl H4).
Defined.

(** The first slot is full and the name is blank: the message is the
    one that asks for a name, a [ValidationError], not the slot-full
    one. *)
Lemma C2_counterexample_blank_name_first :
  slot0 ∈ Sample.slots /\
  Registry.slotId (form "  ") = Slot.id slot0 /\
  slotCapacity (Registry.settings (form "  "))
    <= Z.of_nat (Registry.capacityForSlot (Registry.tickets (form "  ")) (Slot.id slot0)) /\
  Registry.createTicket 3 Sample.env Sample.slots (form "  ") w0
    = Ret (form "  ", Registry.NameRequired) w0 /\
  Registry.error_of Registry.NameRequired <> Some Registry.CapacityError.
Proof.
  split; [left|]. split; [reflexivity|]. split; [vm_compute; discriminate|].
  split; [reflexivity|discriminate].
Qed.

(** *** C3 *)

Lemma C3_randTicketId_fresh_witness :
  well_formed Sample.env /\
  IdGen.ticketIdShape "WEMVD470" = true /\
  ("WEMVD470" ∉ used) /\
  (exists (n : nat) (id : string),
     (n < 5)%nat /\
     IdGen.randTicketId 5 Sample.env used w0 =
     Ret id {| draws := draws w0 + 8 * S n; reads := reads w0 |} /\
     IdGen.ticketIdShape id = true /\
     (id ∉ used)) /\
  (exists env', well_formed env' /\
     forall fuel, IdGen.randTicketId (S fuel) env' used w0 =
                  Ret "WEMVD470" {| draws := draws w0 + 8; reads := reads w0 |}) /\
  (exists id, IdGen.generateTicketId Sample.env w0 =
              Ret id {| draws := draws w0 + 6; reads := reads w0 |} /\
              IdGen.ticketIdShape id = true).
Proof.
  assert (Hfresh : "WEMVD470" ∉ used).
  { intros H. apply elem_of_singleton in H. discriminate. }
  destruct (C3_randTicketId_fresh used) as (Hrun & Hreach & Hold).
  split; [exact env_well_formed|]. split; [reflexivity|]. split; [exact Hfresh|].
  split; [|split].
  - destruct (Hrun Sample.env 5%nat w0 env_well_formed)
      as [(n & id & Hn & Hret & Hshape & Hout & _)|[_ Hall]].
    + exists n, id. auto.
    + exfalso. specialize (Hall 1%nat ltac:(lia)).
      apply elem_of_singleton in Hall. vm_compute in Hall. discriminate.
  - exact (Hreach "WEMVD470" w0 eq_refl Hfresh).
  - exact (Hold Sample.env w0 env_well_formed).
Defined.

Lemma echo_well_formed : well_formed Sample.echo.
Proof. intros n. cbn [random Sample.echo]. apply Z.mod_pos_bound. reflexivity. Qed.

Lemma flat_always_used fuel (U : gset string) w :
  "AAAAA000" ∈ U -> IdGen.randTicketId fuel Sample.flat U w = Diverge.
Proof.
  intros H. unfold IdGen.randTicketId.
  rewrite randTicketId_loop_covered; [reflexivity|].
  intros q. rewrite flat_candidate. exact H.
Qed.

(** The claim read on each of the two generators.  The first script
    makes a single attempt checked against nothing: when the samples of
    the first call come again, the second ticket gets the identifier
    the first one bears.  And [randTicketId], given a used set of one
    identifier, which leaves nearly the whole space free, returns
    nothing when every pass draws that one. *)
Lemma C3_counterexample_single_attempt_endless_loop :
  (well_formed Sample.echo /\
   Legacy.submit Sample.echo "Sato" "09:00" [] w0 =
   Ret ([Legacy.mkTicket (Some "Sato") (Some "09:00") (Some "IQYHP907")], false)
       (mkWorld 6 0) /\
   Legacy.submit Sample.echo "Abe" "09:10"
     [Legacy.mkTicket (Some "Sato") (Some "09:00") (Some "IQYHP907")] (mkWorld 6 0) =
   Ret ([Legacy.mkTicket (Some "Sato") (Some "09:00") (Some "IQYHP907");
         Legacy.mkTicket (Some "Abe") (Some "09:10") (Some "IQYHP907")], false)
       (mkWorld 12 0)) /\
  (well_formed Sample.flat /\
   IdGen.ticketIdShape "BBBBB111" = true /\
   ("BBBBB111" ∉ ({[ "AAAAA000" ]} : gset string)) /\
   forall fuel, IdGen.randTicketId fuel Sample.flat {[ "AAAAA000" ]} w0 = Diverge).
Proof.
  split; [split; [exact echo_well_formed|split; vm_compute; reflexivity]|].
  split; [exact flat_well_formed|]. split; [reflexivity|]. split.
  - intros H. apply elem_of_singleton in H. discriminate.
  - intros fuel. apply flat_always_used, elem_of_singleton. reflexivity.
Qed.

(** *** C6 *)

Lemma C6_createTicket_blank_name_witness :
  allWhite (Registry.name (form "  ")) = true /\
  exists a,
    Registry.createTicket 3 Sample.env Sample.slots (form "  ") w0 = Ret (form "  ", a) w0 /\
    Registry.error_of a = Some Registry.ValidationError.
Proof.
  split; [reflexivity|].
  destruct (C6_createTicket_blank_name 3 Sample.env Sample.slots (form "  ") w0 eq_refl)
    as (a & Hrun & Herr & _).
  exists a. split; [exact Hrun|exact Herr].
Defined.

(** *** C7 *)

(** The export of the empty list is the empty text: no header line. *)
Lemma C7_counterexample_empty_list :
  Csv.exportCSV [] = EmptyString /\
  Csv.exportCSV [] <> Csv.headerLine /\
  Csv.splitLines (Csv.exportCSV []) <> [Csv.headerLine].
Proof. repeat split; discriminate || reflexivity. Qed.

(** *** C9 *)

Lemma C9_countsBySlot_agrees_witness :
  slot0 ∈ Sample.slots /\
  Admin.countsBySlot [ticketA; staleTicket] Sample.slots !! Slot.id slot0
  = Some (Registry.capacityForSlot [ticketA; staleTicket] (Slot.id slot0)).
Proof.
  assert (H : slot0 ∈ Sample.slots) by left.
  split; [exact H|].
  apply (C9_countsBySlot_agrees [ticketA; staleTicket] Sample.slots slot0 H).
Defined.

(** *** C4 *)

Lemma ticketA_roundTrippable : Forall (Csv.roundTrippable Sample.slots) [ticketA].
Proof.
  constructor; [|constructor].
  split; [discriminate|]. split; [reflexivity|].
  exists slot0. split; [left|reflexivity].
Qed.

Lemma C4_export_import_roundtrip_witness :
  Forall (Csv.roundTrippable Sample.slots) [ticketA] /\
  Forall (Csv.roundTrippable Sample.slots) [] /\
  (exists out w',
     Csv.importCSVText 1 Sample.flat Sample.slots [staleTicket]
                       (Csv.exportCSV [ticketA]) w0 = Ret out w' /\
     Forall2 Csv.preserved [ticketA] out) /\
  Csv.importCSVText 1 Sample.flat Sample.slots [staleTicket] (Csv.exportCSV []) w0
  = Ret [staleTicket] w0.
Proof.
  split; [exact ticketA_roundTrippable|]. split; [constructor|]. split.
  - destruct (C4_export_import_roundtrip 1 Sample.flat Sample.slots [staleTicket]
                [ticketA] w0 ticketA_roundTrippable) as (out & w' & Hrun & _ & Hpres & _).
    exists out, w'. split; [exact Hrun|]. apply Hpres. discriminate.
  - destruct (C4_export_import_roundtrip 1 Sample.flat Sample.slots [staleTicket]
                [] w0 (List.Forall_nil _)) as (out & w' & Hrun & _ & _ & Hnil).
    destruct (Hnil eq_refl) as (_ & -> & ->). exact Hrun.
Defined.

(** Four lists that do not come back.  A ticket of another day's
    schedule comes back on the first slot of today; a name with a line
    break is cut into two tickets; a ticket without identifier comes
    back with a generated one; the empty list, imported into a
    registry that holds a ticket, leaves that ticket there. *)
Lemma C4_counterexample_not_preserved :
  (exists t' w',
     Csv.importCSVText 1 Sample.flat Sample.slots [] (Csv.exportCSV [staleTicket]) w0
     = Ret [t'] w' /\
     Ticket.slotId staleTicket = "2025-10-30-001" /\
     Ticket.slotId t' = "2025-10-31-000") /\
  (exists t1 t2 w',
     Csv.importCSVText 1 Sample.flat Sample.slots [] (Csv.exportCSV [twoLineName]) w0
     = Ret [t1; t2] w' /\
     Ticket.name t1 = "Sato" /\ Ticket.id t2 = "Hanako") /\
  (exists t' w',
     Csv.importCSVText 1 Sample.flat Sample.slots [] (Csv.exportCSV [noId]) w0
     = Ret [t'] w' /\
     Ticket.id noId = EmptyString /\
     Ticket.id t' = "AAAAA000") /\
  Csv.importCSVText 1 Sample.flat Sample.slots [ticketA] (Csv.exportCSV []) w0
  = Ret [ticketA] w0.
Proof.
  split; [|split; [|split]].
  - do 2 eexists. split; [vm_compute; reflexivity|]. split; reflexivity.
  - do 3 eexists. split; [vm_compute; reflexivity|]. split; reflexivity.
  - do 2 eexists. split; [vm_compute; reflexivity|]. split; reflexivity.
  - reflexivity.
Qed.

(** *** C5 *)

Lemma importText_rows_bear_id :
  Forall (Csv.bearsId (map Csv.stripQuotes (Csv.splitComma "id,name,slot_id")))
         ["KLMNO456,Abe,2025-10-31-001"; "PQRST789,Ito,2025-10-30-004"].
Proof.
  constructor; [|constructor; [|constructor]].
  - exists "KLMNO456". split; [vm_compute; reflexivity|discriminate].
  - exists "PQRST789". split; [vm_compute; reflexivity|discriminate].
Qed.

Lemma C5_import_replaces_and_falls_back_witness :
  Csv.nonEmptyLines importText
  = "id,name,slot_id" :: ["KLMNO456,Abe,2025-10-31-001"; "PQRST789,Ito,2025-10-30-004"] /\
  Forall (Csv.bearsId (map Csv.stripQuotes (Csv.splitComma "id,name,slot_id")))
         ["KLMNO456,Abe,2025-10-31-001"; "PQRST789,Ito,2025-10-30-004"] /\
  Csv.fair Sample.flat (Registry.existingIds [ticketA]) /\
  (exists out w',
     Csv.importCSVText 1 Sample.flat (slot0 :: [slot1; slot2]) [ticketA] importText w0
     = Ret out w' /\
     Csv.registry_after [ticketA] (Ret out w') = Some out /\
     length out = 2%nat) /\
  (exists (n : nat) out w',
     forall fuel, (n < fuel)%nat ->
       Csv.importCSVText fuel Sample.flat (slot0 :: [slot1; slot2]) [ticketA] importText w0
       = Ret out w').
Proof.
  assert (H1 : Csv.fair Sample.flat (Registry.existingIds [ticketA]))
    by exact (flat_fair _ ticketA_id_only).
  destruct (C5_import_replaces_and_falls_back Sample.flat slot0 [slot1; slot2] [ticketA]
              importText "id,name,slot_id"
              ["KLMNO456,Abe,2025-10-31-001"; "PQRST789,Ito,2025-10-30-004"] w0 eq_refl)
    as (Hany & Hids & Hfair).
  split; [reflexivity|]. split; [exact importText_rows_bear_id|]. split; [exact H1|].
  split; [|exact (Hfair H1)].
  destruct (Hids importText_rows_bear_id 1%nat) as (out & w' & Hrun).
  exists out, w'. split; [exact Hrun|].
  specialize (Hany 1%nat). rewrite Hrun in Hany.
  destruct Hany as (Hreg & Hlen & _). split; [exact Hreg|exact Hlen].
Defined.

Lemma ticketZ_id_used : "AAAAA000" ∈ Registry.existingIds [ticketZ].
Proof.
  unfold Registry.existingIds. cbn [map list_to_set ticketZ Ticket.id].
  apply elem_of_union_l, elem_of_singleton. reflexivity.
Qed.

(** A data line without [id] value, a registry that holds the one
    identifier the samples give: the generator is called before the
    slot is read, and does not return. *)
Lemma noIdText_import_hangs (slots : list Slot.t) fuel :
  Csv.importCSVText fuel Sample.flat slots [ticketZ] noIdText w0 = Diverge.
Proof.
  unfold Csv.importCSVText.
  assert (E : Csv.nonEmptyLines noIdText = ["name,slot_id"; "Abe,2025-10-31-001"])
    by (vm_compute; reflexivity).
  rewrite E. cbn [Csv.importRows].
  assert (E2 : js_nth (Csv.parseRow "Abe,2025-10-31-001")
                 (indexOf "id" (map Csv.stripQuotes (Csv.splitComma "name,slot_id"))) = None)
    by (vm_compute; reflexivity).
  rewrite E2. unfold bind. cbn [Csv.idOrFresh].
  rewrite (flat_always_used fuel _ w0 ticketZ_id_used). reflexivity.
Qed.

(** Three imports that replace nothing.  With no slot at all the import
    of a file with a data line raises the error; the import of the empty
    text returns at once, the registry keeping the ticket it held; and
    the import, into a slot list that is not empty, of a line without
    [id] value does not end as long as every pass of the generator
    draws the identifier that the registry holds. *)
Lemma C5_counterexample_nothing_replaced :
  Csv.importCSVText 1 Sample.flat [] [ticketA] importText w0 = Thrown w0 /\
  Csv.registry_after [ticketA] (Thrown w0) = Some [ticketA] /\
  Csv.importCSVText 1 Sample.flat Sample.slots [ticketA] EmptyString w0 = Ret [ticketA] w0 /\
  (well_formed Sample.flat /\
   forall fuel,
     Csv.importCSVText fuel Sample.flat Sample.slots [ticketZ] noIdText w0 = Diverge).
Proof.
  split; [reflexivity|]. split; [reflexivity|]. split; [reflexivity|].
  split; [exact flat_well_formed|]. intros fuel. apply noIdText_import_hangs.
Qed.

(** *** C10 *)

Lemma C10_import_without_slots_witness :
  Csv.nonEmptyLines importText
  = "id,name,slot_id" :: "KLMNO456,Abe,2025-10-31-001" :: ["PQRST789,Ito,2025-10-30-004"] /\
  Csv.bearsId (map Csv.stripQuotes (Csv.splitComma "id,name,slot_id"))
              "KLMNO456,Abe,2025-10-31-001" /\
  (exists k, IdGen.candidate Sample.flat (draws w0 + 8 * k)
             ∉ Registry.existingIds [ticketA]) /\
  (forall fuel, Csv.importCSVText fuel Sample.flat [] [ticketA] importText w0 = Thrown w0) /\
  (exists (n : nat) w',
     (forall fuel, (n < fuel)%nat ->
        Csv.importCSVText fuel Sample.flat [] [ticketA] importText w0 = Thrown w') /\
     Csv.registry_after [ticketA] (Thrown w') = Some [ticketA]).
Proof.
  assert (Hb : Csv.bearsId (map Csv.stripQuotes (Csv.splitComma "id,name,slot_id"))
                           "KLMNO456,Abe,2025-10-31-001").
  { exists "KLMNO456". split; [vm_compute; reflexivity|discriminate]. }
  assert (Hk : exists k, IdGen.candidate Sample.flat (draws w0 + 8 * k)
                         ∉ Registry.existingIds [ticketA]).
  { exists 0%nat. rewrite flat_candidate. exact ticketA_id_only. }
  destruct (C10_import_without_slots Sample.flat [ticketA] importText
              "id,name,slot_id" "KLMNO456,Abe,2025-10-31-001"
              ["PQRST789,Ito,2025-10-30-004"] w0 eq_refl) as (_ & Hid & Hgen).
  split; [reflexivity|]. split; [exact Hb|]. split; [exact Hk|].
  split; [exact (Hid Hb)|exact (Hgen Hk)].
Defined.

(** The first data line has no [id] value and every pass of the
    generator draws the identifier that the registry holds: no error is
    raised, whatever the budget. *)
Lemma C10_counterexample_no_error_raised :
  Csv.nonEmptyLines noIdText = ["name,slot_id"; "Abe,2025-10-31-001"] /\
  well_formed Sample.flat /\
  forall fuel, Csv.importCSVText fuel Sample.flat [] [ticketZ] noIdText w0 = Diverge.
Proof.
  split; [vm_compute; reflexivity|]. split; [exact flat_well_formed|].
  intros fuel. apply noIdText_import_hangs.
Qed.

End Runs.

(** * Further properties of the program *)

(** ** Slot builder: edges and identifiers *)

Section SlotBuilderMore.
Import SlotBuilder.

Variable dayjs : string -> option Z.

(** Whatever the slot length, the slots the loop returns are numbered
    from [idx] on and laid end to end from [t] on. *)
Lemma buildSlots_loop_shape fuel : forall d m stop t idx slots,
  buildSlots_loop fuel d m stop t idx = Some slots ->
  forall (i : nat) s, slots !! i = Some s ->
    Slot.id s = slot_id d (idx + i) /\
    Slot.startISO s = t + Z.of_nat i * m /\
    Slot.endISO s = Slot.startISO s + m /\
    Slot.label s = slot_label (Slot.startISO s) (Slot.endISO s).
Proof.
  induction fuel as [|fuel IH]; intros d m stop t idx slots Hrun; [discriminate|].
  cbn [buildSlots_loop] in Hrun.
  destruct (isBefore (Some t) stop).
  - destruct (buildSlots_loop fuel d m stop (t + m) (S idx)) as [rest|] eqn:E; [|discriminate].
    injection Hrun as <-. intros [|i] s Hs; cbn in Hs.
    + injection Hs as <-. cbn. rewrite Nat.add_0_r. repeat split; lia.
    + destruct (IH _ _ _ _ _ _ E i s Hs) as (H1 & H2 & H3 & H4).
      repeat split; try assumption; [|lia]. rewrite H1. f_equal. lia.
  - injection Hrun as <-. intros i s Hs. destruct i; discriminate.
Qed.

Lemma buildSlots_shape fuel st slots :
  buildSlots dayjs fuel st = Some slots ->
  forall (i : nat) s, slots !! i = Some s -> Slot.id s = slot_id (date (schedule st)) i.
Proof.
  unfold buildSlots. cbv zeta. destruct (dayjs (start_text st)) as [a|].
  - intros Hrun i s Hs.
    destruct (buildSlots_loop_shape _ _ _ _ _ _ _ Hrun i s Hs) as (H & _). exact H.
  - intros [= <-] i s Hs. destruct i; discriminate.
Qed.

Lemma readDecimal_String_of_nat n : Text.readDecimal (Text.String_of_nat n) = Some n.
Proof.
  unfold Text.readDecimal, Text.String_of_nat, NilZero.string_of_uint.
  pose proof (DecimalNat.Unsigned.of_to n) as Hn.
  destruct (Nat.to_uint n) as [| | | | | | | | | |] eqn:E;
    try (rewrite NilEmpty.usu; cbn [option_map]; f_equal; exact Hn).
  cbn in Hn. subst n. reflexivity.
Qed.

Lemma readDecimal_zeros k s :
  Text.readDecimal (Text.replicate_char k "0"%char +:+ s) = Text.readDecimal s.
Proof.
  induction k as [|k IH]; [reflexivity|].
  cbn [Text.replicate_char]. rewrite app_cons.
  unfold Text.readDecimal in *. cbn [NilEmpty.uint_of_string]. rewrite <- IH.
  destruct (NilEmpty.uint_of_string (Text.replicate_char k "0"%char +:+ s)) as [d|];
    reflexivity.
Qed.

Lemma slot_id_inj d i j : slot_id d i = slot_id d j -> i = j.
Proof.
  unfold slot_id. intros H. apply String.app_inj in H. apply String.app_inj in H.
  assert (Hr : Text.readDecimal (Text.padStart 3 "0"%char (Text.String_of_nat i))
               = Text.readDecimal (Text.padStart 3 "0"%char (Text.String_of_nat j)))
    by (rewrite H; reflexivity).
  unfold Text.padStart in Hr. rewrite !readDecimal_zeros, !readDecimal_String_of_nat in Hr.
  congruence.
Qed.

(** X1.  The builder returns the empty list exactly when there is no range to
    cut: one of the two instants is invalid, or the end is not after the
    start.  The slot length plays no part in this. *)
Theorem buildSlots_empty_iff fuel st :
  (0 < fuel)%nat ->
  buildSlots dayjs fuel st = Some [] <->
  isBefore (dayjs (start_text st)) (dayjs (end_text st)) = false.
Proof.
  intros Hfuel. unfold buildSlots. cbv zeta.
  destruct (dayjs (start_text st)) as [a|]; [|split; reflexivity].
  destruct fuel as [|fuel]; [lia|]. cbn [buildSlots_loop].
  destruct (isBefore (Some a) (dayjs (end_text st))); [|split; reflexivity].
  destruct (buildSlots_loop fuel _ _ _ _ _); split; discriminate.
Qed.

Lemma buildSlots_loop_stuck fuel : forall d m stop t idx,
  m <= 0 -> t < stop -> buildSlots_loop fuel d m (Some stop) t idx = None.
Proof.
  induction fuel as [|fuel IH]; intros d m stop t idx Hm Ht; [reflexivity|].
  cbn [buildSlots_loop isBefore].
  destruct (Z.ltb_spec t stop) as [_|?]; [|lia].
  rewrite IH by lia. reflexivity.
Qed.

(** X2.  With a slot length of zero or less and a start before the end, the
    loop never ends: no budget is enough. *)
Theorem buildSlots_never_returns fuel st a b :
  dayjs (start_text st) = Some a ->
  dayjs (end_text st) = Some b ->
  a < b ->
  slotMinutes st <= 0 ->
  buildSlots dayjs fuel st = None.
Proof.
  intros Ha Hb Hab Hm. unfold buildSlots. cbv zeta. rewrite Ha, Hb.
  apply buildSlots_loop_stuck; assumption.
Qed.

Lemma distinct_ids_by_position (slots : list Slot.t) d :
  (forall (i : nat) s, slots !! i = Some s -> Slot.id s = slot_id d i) ->
  NoDup (map Slot.id slots).
Proof.
  intros Hid. apply NoDup_alt. intros i j x Hi Hj.
  rewrite list_lookup_fmap in Hi, Hj.
  destruct (slots !! i) as [s|] eqn:Ei; [|discriminate].
  destruct (slots !! j) as [s'|] eqn:Ej; [|discriminate].
  cbn in Hi, Hj. injection Hi as Hi. injection Hj as Hj.
  apply (slot_id_inj d). rewrite <- (Hid i s Ei), <- (Hid j s' Ej). congruence.
Qed.

(** X3.  No two slots of a built list bear the same identifier, however many
    slots there are (the index is padded to three digits, not cut). *)
Theorem buildSlots_ids_distinct fuel st slots :
  buildSlots dayjs fuel st = Some slots ->
  NoDup (map Slot.id slots).
Proof.
  intros Hrun. apply (distinct_ids_by_position slots (date (schedule st))).
  apply (buildSlots_shape fuel st slots Hrun).
Qed.

Lemma findSlot_distinct (slots : list Slot.t) s :
  NoDup (map Slot.id slots) -> s ∈ slots -> Registry.findSlot slots (Slot.id s) = Some s.
Proof.
  unfold Registry.findSlot. induction slots as [|x slots IH]; intros Hnd Hin.
  - inversion Hin.
  - cbn [map] in Hnd. apply NoDup_cons in Hnd as [Hx Hnd]. cbn [find].
    destruct (String.eqb_spec (Slot.id x) (Slot.id s)) as [E|NE].
    + apply elem_of_cons in Hin as [->|Hin]; [reflexivity|].
      destruct Hx. rewrite E. apply list_elem_of_fmap. exists s. split; [reflexivity|exact Hin].
    + apply elem_of_cons in Hin as [->|Hin]; [congruence|]. apply IH; assumption.
Qed.

(** X4.  Looking a built slot up by its identifier, as [createTicket] and the
    import do, gives that very slot back. *)
Theorem buildSlots_findSlot fuel st slots s :
  buildSlots dayjs fuel st = Some slots ->
  s ∈ slots ->
  Registry.findSlot slots (Slot.id s) = Some s.
Proof.
  intros Hrun Hin. apply findSlot_distinct; [|exact Hin].
  apply (distinct_ids_by_position slots (date (schedule st))).
  apply (buildSlots_shape fuel st slots Hrun).
Qed.

End SlotBuilderMore.

(** ** Identifier generator: an exhausted space *)

Section IdGenMore.
Import Eff IdGen.

Lemma randTicketId_loop_fresh fuel env (U : gset string) : forall p id p',
  randTicketId_loop fuel env U p = Some (id, p') ->
  (id ∉ U) /\ exists k : nat, id = candidate env (p + 8 * k) /\ p' = (p + 8 * S k)%nat.
Proof.
  induction fuel as [|fuel IH]; intros p id p' Hrun; [discriminate|].
  cbn [randTicketId_loop] in Hrun.
  destruct (decide (candidate env p ∈ U)) as [Hin|Hout].
  - destruct (IH _ _ _ Hrun) as (Hfresh & k & -> & ->).
    split; [exact Hfresh|]. exists (S k). split; [f_equal|]; lia.
  - injection Hrun as <- <-. split; [exact Hout|].
    exists 0%nat. split; [f_equal|]; lia.
Qed.

(** X6.  The generator returns exactly when some pass of its loop draws a
    text outside the used set; in particular, once every identifier of
    the shape is taken it loops for ever, whatever the samples. *)
Theorem randTicketId_returns_iff env (U : gset string) w :
  ((exists fuel id w', randTicketId fuel env U w = Ret id w') <->
   (exists k, candidate env (draws w + 8 * k) ∉ U)) /\
  (well_formed env -> (forall id, ticketIdShape id = true -> id ∈ U) ->
   forall fuel, randTicketId fuel env U w = Diverge).
Proof.
  split; [split|].
  - intros (fuel & id & w' & Hrun). unfold randTicketId in Hrun.
    destruct (randTicketId_loop fuel env U (draws w)) as [[id' p]|] eqn:E; [|discriminate].
    destruct (randTicketId_loop_fresh _ _ _ _ _ _ E) as (Hfresh & k & -> & _).
    exists k. exact Hfresh.
  - intros Hcan. destruct (randTicketId_runs env U w Hcan) as (n & Hrun & _).
    exists (S n). do 2 eexists. apply Hrun. lia.
  - intros Hwf Hall fuel. unfold randTicketId.
    rewrite randTicketId_loop_covered; [reflexivity|].
    intros q. apply Hall, candidate_shape, Hwf.
Qed.

End IdGenMore.

(** ** Ticket creation: success, frame, invariants *)

Section RegistryMore.
Import Eff Registry.

Lemma elem_of_existingIds (tickets : list Ticket.t) id :
  id ∈ existingIds tickets <-> id ∈ map Ticket.id tickets.
Proof. unfold existingIds. apply elem_of_list_to_set. Qed.

Lemma capacityForSlot_app (ts us : list Ticket.t) k :
  capacityForSlot (ts ++ us) k = (capacityForSlot ts k + capacityForSlot us k)%nat.
Proof. unfold capacityForSlot. rewrite filter_app, List.length_app. reflexivity. Qed.

(** The ticket [createTicket] builds. *)
Lemma createTicket_inv fuel env (slots : list Slot.t) st w st' a w' :
  createTicket fuel env slots st w = Ret (st', a) w' ->
  (st' = st /\ w' = w /\ a <> SlotFull /\ error_of a = Some ValidationError) \/
  (st' = st /\ w' = w /\ a = SlotFull) \/
  (exists slot id p,
     findSlot slots (slotId st) = Some slot /\
     Text.allWhite (name st) = false /\
     Z.of_nat (capacityForSlot (tickets st) (slotId st)) < slotCapacity (settings st) /\
     IdGen.randTicketId_loop fuel env (existingIds (tickets st)) (draws w) = Some (id, p) /\
     a = Issued id /\
     w' = {| draws := p; reads := S (reads w) |} /\
     st' = {| settings := settings st;
              tickets := tickets st ++
                [ {| Ticket.id := id;
                     Ticket.name := Text.trim (name st);
                     Ticket.contact := Text.trim (contact st);
                     Ticket.slotId := Slot.id slot;
                     Ticket.slotStartISO := Slot.startISO slot;
                     Ticket.slotEndISO := Slot.endISO slot;
                     Ticket.createdAtISO := clock env (reads w);
                     Ticket.notified := false |} ];
              name := EmptyString;
              contact := EmptyString;
              slotId := slotId st |}).
Proof.
  unfold createTicket. destruct (findSlot slots (slotId st)) as [slot|] eqn:Eslot.
  2:{ intros [= <- <- <-]. left. repeat split; discriminate || reflexivity. }
  destruct (Text.trim (name st)) as [|c r] eqn:Etrim.
  { intros [= <- <- <-]. left. repeat split; discriminate || reflexivity. }
  cbn [Text.truthy negb].
  destruct (Z.geb_spec (Z.of_nat (capacityForSlot (tickets st) (slotId st)))
              (slotCapacity (settings st))) as [Hfull|Hroom].
  { intros [= <- <- <-]. right. left. repeat split. }
  unfold bind, IdGen.randTicketId, now, ret.
  destruct (IdGen.randTicketId_loop fuel env (existingIds (tickets st)) (draws w))
    as [[id p]|] eqn:Eloop; [|discriminate].
  cbn. intros [= <- <- <-]. right. right. exists slot, id, p.
  split; [reflexivity|]. split.
  { destruct (Text.allWhite (name st)) eqn:E; [|reflexivity].
    apply trim_blank in E. congruence. }
  split; [lia|]. split; [reflexivity|]. split; [reflexivity|]. split; reflexivity.
Qed.

(** X8.  A successful creation.  For a slot of the list with room left, a
    name that is not blank and a generator that can succeed, the call
    reports the new identifier; the registry is the old one followed by
    one ticket that carries this identifier (of the fixed shape, and
    borne by no earlier ticket), the trimmed name and contact, the
    identifier and bounds of the slot and the time of the clock; the
    name and contact fields of the form are emptied. *)
Theorem createTicket_issues env (slots : list Slot.t) st w slot :
  well_formed env ->
  findSlot slots (slotId st) = Some slot ->
  Text.allWhite (name st) = false ->
  Z.of_nat (capacityForSlot (tickets st) (slotId st)) < slotCapacity (settings st) ->
  (exists k, IdGen.candidate env (draws w + 8 * k) ∉ existingIds (tickets st)) ->
  exists (n : nat) (id : string),
    (forall fuel, (n < fuel)%nat ->
       createTicket fuel env slots st w =
       Ret ({| settings := settings st;
               tickets := tickets st ++
                 [ {| Ticket.id := id;
                      Ticket.name := Text.trim (name st);
                      Ticket.contact := Text.trim (contact st);
                      Ticket.slotId := Slot.id slot;
                      Ticket.slotStartISO := Slot.startISO slot;
                      Ticket.slotEndISO := Slot.endISO slot;
                      Ticket.createdAtISO := clock env (reads w);
                      Ticket.notified := false |} ];
               name := EmptyString;
               contact := EmptyString;
               slotId := slotId st |},
            Issued id)
           {| draws := draws w + 8 * S n; reads := S (reads w) |}) /\
    IdGen.ticketIdShape id = true /\
    (id ∉ existingIds (tickets st)).
Proof.
  intros Hwf Hslot Hname Hroom Hcan.
  destruct (randTicketId_runs env _ w Hcan) as (n & Hrun & Hfresh & _).
  exists n, (IdGen.candidate env (draws w + 8 * n)).
  split; [|split; [apply candidate_shape, Hwf|exact Hfresh]].
  intros fuel Hfuel. unfold createTicket. rewrite Hslot.
  destruct (Text.trim (name st)) as [|c r] eqn:Etrim.
  { apply trim_blank in Etrim. congruence. }
  cbn [Text.truthy negb].
  destruct (Z.geb_spec (Z.of_nat (capacityForSlot (tickets st) (slotId st)))
              (slotCapacity (settings st))) as [Hfull|_]; [lia|].
  unfold bind. rewrite (Hrun fuel Hfuel). reflexivity.
Qed.

(** X9.  A slot identifier that resolves to no slot of the list is refused
    first, whatever the name and the registry, and nothing changes. *)
Theorem createTicket_unknown_slot fuel env (slots : list Slot.t) st w :
  (forall s, s ∈ slots -> Slot.id s <> slotId st) ->
  createTicket fuel env slots st w = Ret (st, InvalidSlot) w.
Proof.
  intros Hnone. apply findSlot_none in Hnone.
  unfold createTicket. rewrite Hnone. reflexivity.
Qed.

(** X10.  Frame.  A call that ends either leaves the state and the sample
    and clock positions exactly as they were, with an error message, or
    reports an identifier and has added exactly one ticket, at the end,
    bearing that identifier, which no earlier ticket bore; the settings
    and the selected slot are never touched. *)
Theorem createTicket_frame fuel env (slots : list Slot.t) st w st' a w' :
  createTicket fuel env slots st w = Ret (st', a) w' ->
  settings st' = settings st /\ slotId st' = slotId st /\
  match a with
  | Issued id =>
      exists t, tickets st' = tickets st ++ [t] /\ Ticket.id t = id /\
                (id ∉ existingIds (tickets st))
  | _ => st' = st /\ w' = w
  end.
Proof.
  intros Hrun.
  destruct (createTicket_inv _ _ _ _ _ _ _ _ Hrun)
    as [(-> & -> & Hne & Herr)|[(-> & -> & ->)|(slot & id & p & _ & _ & _ & Hloop & -> & -> & ->)]].
  - split; [reflexivity|]. split; [reflexivity|].
    destruct a; try (split; reflexivity). discriminate.
  - repeat split.
  - split; [reflexivity|]. split; [reflexivity|].
    eexists. split; [reflexivity|]. split; [reflexivity|].
    apply (randTicketId_loop_fresh _ _ _ _ _ _ Hloop).
Qed.

(** X11.  Identifiers stay unique: if no two tickets of the registry bear the
    same identifier before the call, none do after it. *)
Theorem createTicket_keeps_ids_distinct fuel env (slots : list Slot.t) st w st' a w' :
  NoDup (map Ticket.id (tickets st)) ->
  createTicket fuel env slots st w = Ret (st', a) w' ->
  NoDup (map Ticket.id (tickets st')).
Proof.
  intros Hnd Hrun.
  destruct (createTicket_inv _ _ _ _ _ _ _ _ Hrun)
    as [(-> & _)|[(-> & _)|(slot & id & p & _ & _ & _ & Hloop & _ & _ & ->)]];
    try exact Hnd.
  cbn [tickets]. rewrite map_app. cbn [map Ticket.id].
  apply NoDup_app. split; [exact Hnd|]. split; [|apply NoDup_singleton].
  intros x Hx Hx'. apply list_elem_of_singleton in Hx'. subst x.
  apply (randTicketId_loop_fresh _ _ _ _ _ _ Hloop).
  apply elem_of_existingIds, Hx.
Qed.

(** X12.  No overbooking through the form.  A ticket is issued only onto a
    slot whose count is strictly below the capacity; it raises the count
    of that slot by one and no other count, and a call that issues
    nothing changes no count.  Hence if every count is below the
    capacity plus one before the call, every one is after it: for the
    whole-number capacities of the settings record, counts within the
    capacity stay within it. *)
Theorem createTicket_keeps_capacity fuel env (slots : list Slot.t) st w st' a w' :
  createTicket fuel env slots st w = Ret (st', a) w' ->
  match a with
  | Issued _ =>
      Z.of_nat (capacityForSlot (tickets st) (slotId st)) < slotCapacity (settings st) /\
      forall k, capacityForSlot (tickets st') k =
                if decide (k = slotId st) then S (capacityForSlot (tickets st) k)
                else capacityForSlot (tickets st) k
  | _ => forall k, capacityForSlot (tickets st') k = capacityForSlot (tickets st) k
  end /\
  ((forall k, Z.of_nat (capacityForSlot (tickets st) k) < slotCapacity (settings st) + 1) ->
   forall k, Z.of_nat (capacityForSlot (tickets st') k) < slotCapacity (settings st') + 1) /\
  ((forall k, Z.of_nat (capacityForSlot (tickets st) k) <= slotCapacity (settings st)) ->
   forall k, Z.of_nat (capacityForSlot (tickets st') k) <= slotCapacity (settings st')).
Proof.
  intros Hrun.
  destruct (createTicket_inv _ _ _ _ _ _ _ _ Hrun)
    as [(-> & _ & Hne & Herr)|[(-> & _ & ->)|(slot & id & p & Hslot & _ & Hroom & _ & -> & _ & ->)]].
  - split; [|split; intros H; exact H].
    destruct a; try (intros k; reflexivity). discriminate Herr.
  - split; [intros k; reflexivity|split; intros H; exact H].
  - apply findSlot_some in Hslot as [_ Hid].
    assert (Hcount : forall k,
      capacityForSlot (tickets st ++
        [ {| Ticket.id := id;
             Ticket.name := Text.trim (name st);
             Ticket.contact := Text.trim (contact st);
             Ticket.slotId := Slot.id slot;
             Ticket.slotStartISO := Slot.startISO slot;
             Ticket.slotEndISO := Slot.endISO slot;
             Ticket.createdAtISO := clock env (reads w);
             Ticket.notified := false |} ]) k =
      if decide (k = slotId st) then S (capacityForSlot (tickets st) k)
      else capacityForSlot (tickets st) k).
    { intros k. rewrite capacityForSlot_app.
      unfold capacityForSlot at 2. rewrite filter_cons, filter_nil. cbn [Ticket.slotId].
      rewrite Hid.
      destruct (decide (slotId st = k)) as [E|NE], (decide (k = slotId st)) as [E'|NE'];
        cbn [length]; try congruence; lia. }
    cbn [tickets settings]. split; [split; [exact Hroom|exact Hcount]|].
    split; intros Hcap k; rewrite Hcount; specialize (Hcap k);
      destruct (decide (k = slotId st)) as [->|_]; lia.
Qed.

End RegistryMore.

(** ** Admin panel: removal *)

Section RemovalFacts.
Import Eff Registry AdminOps.

Lemma filter_keeps_all (ts : list Ticket.t) id :
  id ∉ map Ticket.id ts -> filter (fun t => Ticket.id t <> id) ts = ts.
Proof.
  induction ts as [|x ts IH]; intros Hid; [reflexivity|].
  cbn [map] in Hid. apply not_elem_of_cons in Hid as [Hx Hid].
  rewrite filter_cons. destruct (decide (Ticket.id x <> id)) as [_|E].
  - rewrite IH by exact Hid. reflexivity.
  - destruct E. congruence.
Qed.

(** X13.  Removal by identifier: nothing changes when the dialog is declined
    or when no ticket bears the identifier; otherwise no ticket bearing
    it is left (all of them go, should several bear it), and the
    tickets left are the others, in their order. *)
Theorem removeTicket_effect (id : string) (tickets : list Ticket.t) :
  removeTicket false id tickets = tickets /\
  (id ∉ map Ticket.id tickets -> removeTicket true id tickets = tickets) /\
  (id ∉ map Ticket.id (removeTicket true id tickets)) /\
  (forall t, t ∈ removeTicket true id tickets <-> t ∈ tickets /\ Ticket.id t <> id) /\
  removeTicket true id tickets `sublist_of` tickets.
Proof.
  unfold removeTicket. split; [reflexivity|]. split; [apply filter_keeps_all|].
  split; [|split].
  - intros Hin. apply list_elem_of_fmap in Hin as (t & Hid & Ht).
    apply list_elem_of_filter in Ht as [Hne _]. congruence.
  - intros t. rewrite list_elem_of_filter. tauto.
  - apply sublist_filter.
Qed.

(** X14.  With unique identifiers, removing a ticket of the registry frees
    exactly one place, in the slot of that ticket. *)
Theorem removeTicket_frees_one_place (tickets : list Ticket.t) (t : Ticket.t) k :
  NoDup (map Ticket.id tickets) ->
  t ∈ tickets ->
  (capacityForSlot (removeTicket true (Ticket.id t) tickets) k
   + (if decide (Ticket.slotId t = k) then 1 else 0))%nat
  = capacityForSlot tickets k.
Proof.
  unfold removeTicket. induction tickets as [|x ts IH]; intros Hnd Hin.
  - inversion Hin.
  - cbn [map] in Hnd. apply NoDup_cons in Hnd as [Hx Hnd].
    rewrite filter_cons, (capacityForSlot_cons x ts).
    apply elem_of_cons in Hin as [->|Hin].
    + destruct (decide (Ticket.id x <> Ticket.id x)) as [E|_]; [congruence|].
      rewrite filter_keeps_all by exact Hx.
      destruct (decide (Ticket.slotId x = k)); lia.
    + destruct (decide (Ticket.id x <> Ticket.id t)) as [_|E].
      * rewrite capacityForSlot_cons. specialize (IH Hnd Hin).
        destruct (decide (Ticket.slotId x = k)); lia.
      * destruct Hx. apply list_elem_of_fmap. exists t. split; [|exact Hin].
        destruct (decide (Ticket.id x = Ticket.id t)) as [E'|NE]; [exact E'|].
        destruct E. exact NE.
Qed.

(** X15.  Issuing a ticket and removing it by the identifier just reported
    gives the registry back as it was. *)
Theorem createTicket_then_removeTicket fuel env (slots : list Slot.t) st w st' id w' :
  createTicket fuel env slots st w = Ret (st', Issued id) w' ->
  removeTicket true id (tickets st') = tickets st.
Proof.
  intros Hrun.
  destruct (createTicket_inv _ _ _ _ _ _ _ _ Hrun)
    as [(_ & _ & _ & Herr)|[(_ & _ & Ha)|(slot & id' & p & _ & _ & _ & Hloop & Ha & _ & ->)]];
    try discriminate.
  injection Ha as <-. cbn [tickets]. unfold removeTicket.
  rewrite filter_app, filter_cons, filter_nil. cbn [Ticket.id].
  destruct (decide (id <> id)) as [E|_]; [congruence|].
  rewrite List.app_nil_r. apply filter_keeps_all.
  intros Hin. apply (randTicketId_loop_fresh _ _ _ _ _ _ Hloop).
  apply elem_of_existingIds, Hin.
Qed.

End RemovalFacts.

(** ** Admin panel: search *)

Section SearchFacts.
Import Text AdminOps.

Lemma prefix_refl s : String.prefix s s = true.
Proof.
  induction s as [|c s IH]; [reflexivity|]. cbn.
  destruct (Ascii.ascii_dec c c) as [_|NE]; [exact IH|congruence].
Qed.

Lemma includes_refl s : includes s s = true.
Proof. destruct s; cbn [includes]; rewrite prefix_refl; reflexivity. Qed.

(** X16.  A query that is empty or made of white space shows every ticket. *)
Theorem filtered_blank_query (tickets : list Ticket.t) q :
  allWhite q = true -> filtered tickets q = tickets.
Proof.
  intros Hq. apply trim_blank in Hq. unfold filtered. rewrite Hq. reflexivity.
Qed.

(** X17.  The search only hides tickets: what it shows is a part of the
    registry, in the order of the registry. *)
Theorem filtered_sublist (tickets : list Ticket.t) q :
  filtered tickets q `sublist_of` tickets.
Proof.
  unfold filtered. destruct (negb (truthy (toLowerCase (trim q)))); [reflexivity|].
  induction tickets as [|t ts IH]; [constructor|].
  cbn [List.filter].
  destruct (existsb _ (searchable t)); [apply sublist_skip|apply sublist_cons]; exact IH.
Qed.

(** X18.  A ticket is found by any of its five texts typed in full, in any
    letter case and with blanks around: the identifier, the name, the
    contact, the slot identifier, or the start time as HH:mm. *)
Theorem filtered_finds (tickets : list Ticket.t) (t : Ticket.t) (v q : string) :
  t ∈ tickets ->
  v ∈ searchable t ->
  toLowerCase (trim q) = toLowerCase v ->
  t ∈ filtered tickets q.
Proof.
  intros Ht Hv Hq. unfold filtered. rewrite Hq.
  destruct (negb (truthy (toLowerCase v))); [exact Ht|].
  apply list_elem_of_In, filter_In. split; [apply list_elem_of_In, Ht|].
  apply existsb_exists. exists v. split; [apply list_elem_of_In, Hv|apply includes_refl].
Qed.

End SearchFacts.

(** ** CSV: values, plain lines, what an import leaves *)

Section CsvMore.
Import Text Eff Csv.

(** X19.  Whatever the values of a row object (commas, quotes and line breaks
    included), the data line [toCSV] writes for it is read back by the
    import as these values, a missing key as the empty text. *)
Theorem toCSV_line_parseRow (r : Row) (headers : list string) :
  parseRow (Text.join sep (map (fun h => esc (get r h)) headers))
  = map (fun h => default EmptyString (get r h)) headers.
Proof.
  rewrite <- (parseRow_join (map (fun h => default EmptyString (get r h)) headers)).
  rewrite map_map. reflexivity.
Qed.

Lemma nonCommaRun_app v k :
  noComma v = true -> starts_with_quote k = false ->
  (k = EmptyString \/ exists k', k = String comma k') ->
  nonCommaRun (v +:+ k) = String.length v.
Proof.
  intros Hv _ Hk. induction v as [|c v IH].
  - rewrite app_nil_l. destruct Hk as [->|(k' & ->)]; reflexivity.
  - cbn [noComma] in Hv. apply andb_true_iff in Hv as [Hc Hv].
    apply negb_true_iff in Hc. rewrite app_cons. cbn [nonCommaRun String.length].
    unfold is_comma. rewrite Hc, (IH Hv). reflexivity.
Qed.

Lemma matchAll_plain v k :
  v <> EmptyString -> noComma v = true -> noQuote v = true ->
  (k = EmptyString \/ exists k', k = String comma k') ->
  matchAll 0 (v +:+ k) = v :: matchAll 0 k.
Proof.
  intros Hne Hc Hq Hk. destruct v as [|c v]; [contradiction|].
  assert (Hrun : nonCommaRun (String c v +:+ k) = String.length (String c v)).
  { apply nonCommaRun_app; [exact Hc| |exact Hk].
    destruct Hk as [->|(k' & ->)]; reflexivity. }
  cbn [noComma noQuote] in Hc, Hq.
  apply andb_true_iff in Hc as [Hc _]. apply andb_true_iff in Hq as [Hq _].
  apply negb_true_iff in Hc, Hq.
  rewrite app_cons, matchAll_cons_0. unfold matchAt, is_quote, is_comma.
  rewrite Hq, Hc. rewrite <- app_cons, Hrun.
  f_equal; [apply substring_prefix|].
  cbn [String.length]. rewrite Nat.sub_succ, Nat.sub_0_r. apply matchAll_skip.
Qed.

Lemma matchAll_join_plain (vs : list string) :
  Forall (fun v => noComma v = true /\ noQuote v = true) vs ->
  matchAll 0 (Text.join sep vs) = List.filter truthy vs.
Proof.
  induction 1 as [|v vs [Hc Hq] Hvs IH]; [reflexivity|].
  destruct vs as [|v2 vs].
  - cbn [Text.join List.filter]. destruct v as [|c v]; [reflexivity|].
    cbn [truthy]. rewrite <- (app_nil_r (String c v)) at 1.
    rewrite matchAll_plain; [reflexivity|discriminate|exact Hc|exact Hq|left; reflexivity].
  - change (Text.join sep (v :: v2 :: vs)) with (v +:+ sep +:+ Text.join sep (v2 :: vs)).
    unfold sep at 1. rewrite app_cons, app_nil_l.
    cbn [List.filter]. destruct v as [|c v].
    + rewrite app_nil_l, matchAll_comma. exact IH.
    + cbn [truthy]. rewrite matchAll_plain;
        [|discriminate|exact Hc|exact Hq|right; eexists; reflexivity].
      rewrite matchAll_comma, IH. reflexivity.
Qed.

Lemma dropTrailingQuote_plain v : noQuote v = true -> dropTrailingQuote v = v.
Proof.
  induction v as [|c v IH]; [reflexivity|]. cbn [noQuote dropTrailingQuote].
  intros H. apply andb_true_iff in H as [Hc Hv]. apply negb_true_iff in Hc.
  destruct v; [unfold is_quote; rewrite Hc; reflexivity|]. rewrite (IH Hv). reflexivity.
Qed.

Lemma undouble_plain v : noQuote v = true -> undouble v = v.
Proof.
  induction v as [|c v IH]; [reflexivity|]. cbn [noQuote undouble].
  intros H. apply andb_true_iff in H as [Hc Hv]. apply negb_true_iff in Hc.
  unfold is_quote at 1. rewrite Hc, (IH Hv). reflexivity.
Qed.

Lemma stripQuotes_plain v : noQuote v = true -> stripQuotes v = v.
Proof.
  intros Hv. unfold stripQuotes.
  assert (E : dropLeadingQuote v = v).
  { destruct v as [|c v]; [reflexivity|]. cbn [noQuote] in Hv.
    apply andb_true_iff in Hv as [Hc _]. apply negb_true_iff in Hc.
    cbn [dropLeadingQuote]. unfold is_quote. rewrite Hc. reflexivity. }
  rewrite E. apply dropTrailingQuote_plain, Hv.
Qed.

(** X20.  A line of plain values (no comma, no quote) separated by commas is
    read as its non-empty values only: an empty value between two
    commas is passed over, so that the values after it move one column
    to the left. *)
Theorem parseRow_plain_line (vs : list string) :
  Forall (fun v => noComma v = true /\ noQuote v = true) vs ->
  parseRow (Text.join sep vs) = List.filter truthy vs.
Proof.
  intros Hvs. unfold parseRow. rewrite (matchAll_join_plain vs Hvs).
  induction Hvs as [|v vs [_ Hq] _ IH]; [reflexivity|].
  cbn [List.filter]. destruct (truthy v); [|exact IH].
  cbn [map]. rewrite IH, (stripQuotes_plain v Hq), (undouble_plain v Hq). reflexivity.
Qed.

End CsvMore.

(** ** CSV: an import leaves a registry that exports and imports as itself *)

Section CsvNormalForm.
Import Text Eff Csv.

(** A ticket made from a data line bears the identifier and the bounds
    of a slot of the list. *)
Lemma imported_references (header : list string) (s0 : Slot.t) (more : list Slot.t)
      (rows : list string) (out : list Ticket.t) :
  Forall2 (importedFrom header (s0 :: more) s0) rows out ->
  Forall (fun t => Ticket.notified t = false /\
                   exists s, s ∈ s0 :: more /\ assigned s t) out.
Proof.
  intros Hout. induction Hout as [|line t rows out Ht _ IH]; [constructor|].
  constructor; [|exact IH].
  destruct Ht as (Hfall & Hfound & _ & _ & _ & Hnot). split; [exact Hnot|].
  destruct (column header line "slot_id") as [k|] eqn:Ek.
  - destruct (Registry.findSlot (s0 :: more) k) as [s|] eqn:Es.
    + exists s. split; [apply (findSlot_some _ _ _ Es)|apply (Hfound k s eq_refl Es)].
    + exists s0. split; [left|]. apply Hfall. intros s Hs Heq.
      injection Heq as Heq.
      apply (proj1 (findSlot_none _ _) Es s Hs). symmetry. exact Heq.
  - exists s0. split; [left|]. apply Hfall. intros s Hs. discriminate.
Qed.

(** X21.  An import that replaces the registry (slot list not empty, text
    with at least one non-empty line) leaves only tickets that bear the
    identifier and the bounds of a slot of the current list and are not
    notified, whatever the samples and the budget: the references the
    registry does not enforce elsewhere hold again.  Such an import
    does end, for any large enough budget, when the generator can
    succeed from every position of the sample stream. *)
Theorem importCSVText_restores_references env (s0 : Slot.t) (more : list Slot.t)
        (cur : list Ticket.t) (text first : string) (rows : list string) w :
  nonEmptyLines text = first :: rows ->
  (forall fuel out w',
     importCSVText fuel env (s0 :: more) cur text w = Ret out w' ->
     Forall (fun t => Ticket.notified t = false /\
                      exists s, s ∈ s0 :: more /\ assigned s t) out) /\
  (fair env (Registry.existingIds cur) ->
   exists (n : nat) out w',
     (forall fuel, (n < fuel)%nat ->
        importCSVText fuel env (s0 :: more) cur text w = Ret out w') /\
     Forall (fun t => Ticket.notified t = false /\
                      exists s, s ∈ s0 :: more /\ assigned s t) out).
Proof.
  intros Hlines. split.
  - intros fuel out w' Hrun. unfold importCSVText in Hrun. rewrite Hlines in Hrun.
    unfold bind, ret in Hrun.
    pose proof (importRows_outcome fuel env s0 more cur
                  (map stripQuotes (splitComma first)) rows w) as Hout.
    destruct (importRows fuel env (s0 :: more) cur (map stripQuotes (splitComma first)) rows w)
      as [out0 w0| |]; [|discriminate|discriminate].
    injection Hrun as <- _. eapply imported_references, Hout.
  - intros Hfair.
    destruct (importRows_returns env s0 more cur (map stripQuotes (splitComma first))
                Hfair rows w) as (n & out & w' & Hrun & Hout).
    exists n, out, w'. split.
    + intros fuel Hfuel. unfold importCSVText. rewrite Hlines.
      unfold bind. rewrite (Hrun fuel Hfuel). reflexivity.
    + eapply imported_references, Hout.
Qed.

Lemma noLF_cons_head c ls :
  Ascii.eqb c LF = false ->
  Forall (fun l => noLF l = true) ls -> Forall (fun l => noLF l = true) (cons_head c ls).
Proof.
  intros Hc Hls. destruct Hls as [|l ls Hl Hls]; cbn [cons_head].
  - constructor; [cbn; rewrite Hc; reflexivity|constructor].
  - constructor; [cbn; rewrite Hc, Hl; reflexivity|exact Hls].
Qed.

(** No line holds a line feed. *)
Lemma splitLines_noLF s : Forall (fun l => noLF l = true) (splitLines s).
Proof.
  assert (IH : forall n s, (String.length s < n)%nat ->
                 Forall (fun l => noLF l = true) (splitLines s));
    [|apply (IH (S (String.length s))); lia].
  clear s. induction n as [|n IH]; intros s Hn; [lia|].
  destruct s as [|c s]; [repeat constructor|]. cbn [String.length] in Hn.
  cbn [splitLines]. destruct (is_LF c) eqn:Ec.
  - constructor; [reflexivity|]. apply IH. cbn. lia.
  - assert (Hs : Forall (fun l => noLF l = true) (cons_head c (splitLines s))).
    { apply noLF_cons_head; [exact Ec|]. apply IH. cbn. lia. }
    destruct (is_CR c); [|exact Hs].
    destruct s as [|c2 s'']; [exact Hs|].
    destruct (is_LF c2); [|exact Hs].
    constructor; [reflexivity|]. apply IH. cbn [String.length] in Hn. lia.
Qed.

Lemma nonEmptyLines_noLF text : Forall (fun l => noLF l = true) (nonEmptyLines text).
Proof.
  unfold nonEmptyLines. apply Forall_forall. intros l Hl.
  apply list_elem_of_In, filter_In in Hl as [Hl _].
  apply (proj1 (Forall_forall _ _) (splitLines_noLF text)), list_elem_of_In, Hl.
Qed.

Lemma noLF_substring n : forall s, noLF s = true -> noLF (String.substring 0 n s) = true.
Proof.
  induction n as [|n IH]; intros [|c s] H; try reflexivity.
  cbn [noLF] in H. apply andb_true_iff in H as [Hc Hs].
  cbn [String.substring noLF]. rewrite Hc, (IH s Hs). reflexivity.
Qed.

Lemma matchAll_noLF s : forall skip,
  noLF s = true -> Forall (fun v => noLF v = true) (matchAll skip s).
Proof.
  induction s as [|c s IH]; intros skip H; [constructor|].
  pose proof H as Hcs. cbn [noLF] in H. apply andb_true_iff in H as [_ Hs].
  destruct skip as [|k]; [|apply IH, Hs].
  rewrite matchAll_cons_0. destruct (matchAt (String c s)) as [n|]; [|apply IH, Hs].
  constructor; [apply noLF_substring, Hcs|apply IH, Hs].
Qed.

Lemma noLF_dropTrailingQuote s : noLF s = true -> noLF (dropTrailingQuote s) = true.
Proof.
  induction s as [|c s IH]; [reflexivity|]. cbn [noLF dropTrailingQuote].
  intros H. apply andb_true_iff in H as [Hc Hs].
  destruct s as [|c2 s].
  - destruct (is_quote c); [reflexivity|]. cbn. rewrite Hc. reflexivity.
  - cbn [noLF]. rewrite Hc. apply IH, Hs.
Qed.

Lemma noLF_stripQuotes s : noLF s = true -> noLF (stripQuotes s) = true.
Proof.
  intros H. unfold stripQuotes. apply noLF_dropTrailingQuote.
  destruct s as [|c s]; [reflexivity|]. cbn [dropLeadingQuote].
  destruct (is_quote c); [|exact H].
  cbn [noLF] in H. apply andb_true_iff in H as [_ Hs]. exact Hs.
Qed.

Lemma noLF_undouble s : noLF s = true -> noLF (undouble s) = true.
Proof.
  assert (IH : forall n s, (String.length s < n)%nat ->
                 noLF s = true -> noLF (undouble s) = true);
    [|apply (IH (S (String.length s))); lia].
  clear s. induction n as [|n IH]; intros s Hn; [lia|].
  destruct s as [|c s]; [reflexivity|]. cbn [String.length] in Hn. intros H.
  pose proof H as Hcs. cbn [noLF] in H. apply andb_true_iff in H as [Hc Hs].
  cbn [undouble].
  assert (Hplain : noLF (String c (undouble s)) = true).
  { cbn [noLF]. rewrite Hc. apply IH; [cbn; lia|exact Hs]. }
  destruct (is_quote c); [|exact Hplain].
  destruct s as [|c2 s'']; [exact Hcs|].
  destruct (is_quote c2); [|exact Hplain].
  cbn [noLF] in Hs. apply andb_true_iff in Hs as [_ Hs''].
  cbn [noLF]. change (Ascii.eqb quote LF) with false. cbn [negb andb].
  apply IH; [cbn [String.length] in Hn; lia|exact Hs''].
Qed.

Lemma column_noLF header line h v :
  noLF line = true -> column header line h = Some v -> noLF v = true.
Proof.
  intros Hline. unfold column, js_nth, parseRow.
  destruct (indexOf h header <? 0); [discriminate|]. intros Hv.
  apply list_elem_of_lookup_2, list_elem_of_fmap in Hv as (m & -> & Hm).
  apply noLF_undouble, noLF_stripQuotes.
  apply (proj1 (Forall_forall _ _) (matchAll_noLF line 0 Hline) m Hm).
Qed.

Lemma shape_plain id : IdGen.ticketIdShape id = true -> id <> EmptyString /\ noLF id = true.
Proof.
  intros H.
  destruct id as [|a [|b [|c [|d [|e [|x [|y [|z [|? ?]]]]]]]]]; try discriminate H.
  split; [discriminate|].
  cbn [IdGen.ticketIdShape] in H. rewrite !andb_true_iff in H.
  destruct H as (((((((Ha & Hb) & Hc) & Hd) & He) & Hx) & Hy) & Hz).
  assert (HU : forall u, IdGen.isUpper u = true -> Ascii.eqb u LF = false).
  { intros u Hu. destruct (Ascii.eqb_spec u LF) as [->|]; [discriminate Hu|reflexivity]. }
  assert (HD : forall u, IdGen.isDigit u = true -> Ascii.eqb u LF = false).
  { intros u Hu. destruct (Ascii.eqb_spec u LF) as [->|]; [discriminate Hu|reflexivity]. }
  cbn [noLF]. rewrite (HU a Ha), (HU b Hb), (HU c Hc), (HU d Hd), (HU e He),
    (HD x Hx), (HD y Hy), (HD z Hz). reflexivity.
Qed.

Lemma idOrFresh_normal env (U : gset string) v w :
  well_formed env ->
  (exists k, IdGen.candidate env (draws w + 8 * k) ∉ U) ->
  (forall x, v = Some x -> noLF x = true) ->
  exists (n : nat) id w',
    (forall fuel, (n < fuel)%nat -> idOrFresh fuel env U v w = Ret id w') /\
    id <> EmptyString /\ noLF id = true.
Proof.
  intros Hwf Hcan Hv.
  destruct (randTicketId_runs env U w Hcan) as (n & Hrun & _).
  pose proof (shape_plain _ (candidate_shape env (draws w + 8 * n) Hwf)) as [Hne Hlf].
  unfold idOrFresh. destruct v as [[|c r]|].
  - exists n. do 2 eexists. split; [exact Hrun|]. split; assumption.
  - exists 0%nat, (String c r), w. split; [reflexivity|].
    split; [discriminate|apply Hv; reflexivity].
  - exists n. do 2 eexists. split; [exact Hrun|]. split; assumption.
Qed.

Lemma textOrNow_normal env v w :
  (forall n, clock env n <> EmptyString /\ noLF (clock env n) = true) ->
  (forall x, v = Some x -> noLF x = true) ->
  exists s w', textOrNow env v w = Ret s w' /\ s <> EmptyString /\ noLF s = true.
Proof.
  intros Hclock Hv. unfold textOrNow, now, ret.
  destruct v as [[|c r]|]; cbn [truthy].
  - do 2 eexists. split; [reflexivity|]. apply Hclock.
  - do 2 eexists. split; [reflexivity|]. split; [discriminate|apply Hv; reflexivity].
  - do 2 eexists. split; [reflexivity|]. apply Hclock.
Qed.

Lemma or_else_noLF v :
  (forall x, v = Some x -> noLF x = true) -> noLF (or_else v EmptyString) = true.
Proof.
  intros Hv. destruct v as [[|c r]|]; cbn [or_else truthy]; try reflexivity.
  apply Hv. reflexivity.
Qed.

Lemma findSlot_head (s0 : Slot.t) (more : list Slot.t) :
  Registry.findSlot (s0 :: more) (Slot.id s0) = Some s0.
Proof. unfold Registry.findSlot. cbn [find]. rewrite String.eqb_refl. reflexivity. Qed.

Lemma resolveSlot_self (s0 : Slot.t) (more : list Slot.t) v :
  exists sl, resolveSlot (s0 :: more) v = Some sl /\
             Registry.findSlot (s0 :: more) (Slot.id sl) = Some sl.
Proof.
  unfold resolveSlot. destruct v as [k|].
  - destruct (Registry.findSlot (s0 :: more) k) as [s|] eqn:E.
    + exists s. split; [reflexivity|].
      destruct (findSlot_some _ _ _ E) as [_ Hid]. rewrite Hid. exact E.
    + exists s0. split; [reflexivity|apply findSlot_head].
  - exists s0. split; [reflexivity|apply findSlot_head].
Qed.

Lemma importRows_normal env (s0 : Slot.t) (more : list Slot.t) (cur : list Ticket.t)
      (header : list string) :
  well_formed env ->
  fair env (Registry.existingIds cur) ->
  (forall n, clock env n <> EmptyString /\ noLF (clock env n) = true) ->
  Forall (fun s => noLF (Slot.id s) = true) (s0 :: more) ->
  forall (rows : list string) w,
    Forall (fun l => noLF l = true) rows ->
    exists (n : nat) out w',
      (forall fuel, (n < fuel)%nat ->
         importRows fuel env (s0 :: more) cur header rows w = Ret out w') /\
      Forall (normal (s0 :: more)) out.
Proof.
  intros Hwf Hfair Hclock Hslots. induction rows as [|line rows IH]; intros w Hrows.
  - exists 0%nat, [], w. split; [reflexivity|constructor].
  - apply Forall_cons in Hrows as [Hline Hrows].
    assert (Hcol : forall h x, column header line h = Some x -> noLF x = true)
      by (intros h x; apply column_noLF, Hline).
    destruct (idOrFresh_normal env (Registry.existingIds cur) (column header line "id") w
                Hwf (Hfair (draws w)) (Hcol "id")) as (n1 & id & w1 & Hid & Hidne & Hidlf).
    destruct (resolveSlot_self s0 more (column header line "slot_id")) as (sl & Hsl & Hself).
    destruct (textOrNow_normal env (column header line "created_at") w1 Hclock
                (Hcol "created_at")) as (created & w2 & Hcr & Hcrne & Hcrlf).
    destruct (IH w2 Hrows) as (n2 & out & w' & Hrest & Hout).
    exists (Nat.max n1 n2). eexists. exists w'. split.
    + intros fuel Hfuel. cbn [importRows].
      fold (column header line "id"). fold (column header line "slot_id").
      fold (column header line "name"). fold (column header line "contact").
      fold (column header line "created_at").
      unfold bind at 1. rewrite (Hid fuel ltac:(lia)). rewrite Hsl.
      unfold bind at 1. rewrite Hcr.
      unfold bind at 1. rewrite (Hrest fuel ltac:(lia)). reflexivity.
    + constructor; [|exact Hout].
      unfold normal, lineFree, assigned. cbn.
      split; [exact Hidne|]. split; [exact Hcrne|]. split.
      * rewrite Hidlf, Hcrlf, !or_else_noLF by (apply Hcol).
        destruct (findSlot_some _ _ _ Hself) as [Hin _].
        rewrite (proj1 (Forall_forall _ _) Hslots sl Hin). reflexivity.
      * split; [reflexivity|]. exists sl. auto.
Qed.

(** The same form, for any run of the loop that ends. *)
Lemma importRows_leaves_normal fuel env (s0 : Slot.t) (more : list Slot.t)
      (cur : list Ticket.t) (header : list string) :
  well_formed env ->
  (forall n, clock env n <> EmptyString /\ noLF (clock env n) = true) ->
  Forall (fun s => noLF (Slot.id s) = true) (s0 :: more) ->
  forall (rows : list string) w out w',
    Forall (fun l => noLF l = true) rows ->
    importRows fuel env (s0 :: more) cur header rows w = Ret out w' ->
    Forall (normal (s0 :: more)) out.
Proof.
  intros Hwf Hclock Hslots. induction rows as [|line rows IH]; intros w out w' Hrows Hrun.
  - cbn [importRows] in Hrun. unfold ret in Hrun. injection Hrun as <- _. constructor.
  - apply Forall_cons in Hrows as [Hline Hrows].
    assert (Hcol : forall h x, column header line h = Some x -> noLF x = true)
      by (intros h x; apply column_noLF, Hline).
    cbn [importRows] in Hrun.
    fold (column header line "id") in Hrun. fold (column header line "slot_id") in Hrun.
    fold (column header line "name") in Hrun. fold (column header line "contact") in Hrun.
    fold (column header line "created_at") in Hrun.
    pose proof (idOrFresh_outcome fuel env (Registry.existingIds cur)
                  (column header line "id") w) as Hid.
    unfold bind at 1 in Hrun.
    destruct (idOrFresh fuel env (Registry.existingIds cur) (column header line "id") w)
      as [id w1| |]; [|discriminate|discriminate].
    assert (Hidok : id <> EmptyString /\ noLF id = true).
    { destruct Hid as [(x & Hx & Hne & -> & _)|(_ & n & _ & -> & _)].
      - split; [exact Hne|apply (Hcol "id" x Hx)].
      - apply shape_plain, candidate_shape, Hwf. }
    destruct Hidok as [Hidne Hidlf].
    destruct (resolveSlot_self s0 more (column header line "slot_id")) as (sl & Hsl & Hself).
    rewrite Hsl in Hrun.
    destruct (textOrNow_normal env (column header line "created_at") w1 Hclock
                (Hcol "created_at")) as (created & w2 & Hcr & Hcrne & Hcrlf).
    unfold bind at 1 in Hrun. rewrite Hcr in Hrun. unfold bind at 1 in Hrun.
    destruct (importRows fuel env (s0 :: more) cur header rows w2) as [rest w3| |] eqn:Erest;
      [|discriminate|discriminate].
    unfold ret in Hrun. injection Hrun as <- _.
    constructor; [|apply (IH w2 rest w3 Hrows Erest)].
    unfold normal, lineFree, assigned. cbn.
    split; [exact Hidne|]. split; [exact Hcrne|]. split.
    + rewrite Hidlf, Hcrlf, !or_else_noLF by (apply Hcol).
      destruct (findSlot_some _ _ _ Hself) as [Hin _].
      rewrite (proj1 (Forall_forall _ _) Hslots sl Hin). reflexivity.
    + split; [reflexivity|]. exists sl. auto.
Qed.

(** Tickets in that form are read back from their exported lines as
    they are, without a sample or a clock read. *)
Lemma importRows_fixed fuel env (slots : list Slot.t) (cur : list Ticket.t) :
  forall (ts : list Ticket.t) w,
    Forall (normal slots) ts ->
    importRows fuel env slots cur headerNames (map rowLine ts) w = Ret ts w.
Proof.
  induction ts as [|t ts IH]; intros w Hall; [reflexivity|].
  apply Forall_cons in Hall as [(Hid & Hcr & _ & Hnot & s & Hfind & Hs1 & Hs2 & Hs3) Hall].
  cbn [map importRows]. rewrite parseRow_rowLine.
  change (js_nth (fields t) (indexOf "slot_id" headerNames)) with (Some (Ticket.slotId t)).
  change (js_nth (fields t) (indexOf "id" headerNames)) with (Some (Ticket.id t)).
  change (js_nth (fields t) (indexOf "name" headerNames)) with (Some (Ticket.name t)).
  change (js_nth (fields t) (indexOf "contact" headerNames)) with (Some (Ticket.contact t)).
  change (js_nth (fields t) (indexOf "created_at" headerNames))
    with (Some (Ticket.createdAtISO t)).
  rewrite !or_else_same. unfold resolveSlot. rewrite Hfind.
  unfold idOrFresh, textOrNow.
  destruct t as [tid tname tcontact tslot tstart tend tcreated tnot]. cbn in *.
  destruct tid as [|c r]; [contradiction|].
  destruct tcreated as [|c' r']; [contradiction|].
  cbn [truthy]. unfold bind, ret. rewrite (IH w Hall). subst. reflexivity.
Qed.

(** A registry in that form is reproduced by its export followed by an
    import, whatever the samples and the clock. *)
Lemma normal_fixed (slots : list Slot.t) (out : list Ticket.t) :
  Forall (normal slots) out ->
  forall fuel env w,
    importCSVText fuel env slots out (exportCSV out) w = Ret out w.
Proof.
  intros Hout fuel env w. destruct out as [|t ts]; [reflexivity|].
  unfold importCSVText. rewrite nonEmptyLines_export.
  - rewrite header_parse. unfold bind.
    rewrite (importRows_fixed fuel env slots (t :: ts) (t :: ts) w Hout).
    reflexivity.
  - eapply Forall_impl; [exact Hout|]. intros t' (_ & _ & H & _). exact H.
Qed.

(** X22.  Export after import is faithful.  Take an import that replaces
    the registry: slot list not empty, text with at least one non-empty
    line, samples in range, no LF in the slot identifiers, clock texts
    non-empty and without LF.  Whatever the budget, the registry [out]
    it leaves when it ends is in a form that the export and the import
    reproduce exactly, ticket for ticket and field for field, without a
    draw or a clock read.  Such an import does end, for any large
    enough budget, when the generator can succeed from every position
    of the sample stream. *)
Theorem importCSVText_then_export_import env (s0 : Slot.t) (more : list Slot.t)
        (cur : list Ticket.t) (text first : string) (rows : list string) w :
  well_formed env ->
  (forall n, clock env n <> EmptyString /\ noLF (clock env n) = true) ->
  Forall (fun s => noLF (Slot.id s) = true) (s0 :: more) ->
  nonEmptyLines text = first :: rows ->
  (forall fuel out w',
     importCSVText fuel env (s0 :: more) cur text w = Ret out w' ->
     forall fuel2 env2 w2,
       importCSVText fuel2 env2 (s0 :: more) out (exportCSV out) w2 = Ret out w2) /\
  (fair env (Registry.existingIds cur) ->
   exists (n : nat) out w',
     (forall fuel, (n < fuel)%nat ->
        importCSVText fuel env (s0 :: more) cur text w = Ret out w') /\
     (forall fuel2 env2 w2,
        importCSVText fuel2 env2 (s0 :: more) out (exportCSV out) w2 = Ret out w2)).
Proof.
  intros Hwf Hclock Hslots Hlines.
  assert (Hrows : Forall (fun l => noLF l = true) rows).
  { pose proof (nonEmptyLines_noLF text) as H. rewrite Hlines in H.
    apply Forall_cons in H as [_ H]. exact H. }
  split.
  - intros fuel out w' Hrun. apply normal_fixed.
    unfold importCSVText in Hrun. rewrite Hlines in Hrun. unfold bind, ret in Hrun.
    destruct (importRows fuel env (s0 :: more) cur (map stripQuotes (splitComma first)) rows w)
      as [out0 w0| |] eqn:E; [|discriminate|discriminate].
    injection Hrun as <- _.
    exact (importRows_leaves_normal fuel env s0 more cur _ Hwf Hclock Hslots
             rows w out0 w0 Hrows E).
  - intros Hfair.
    destruct (importRows_normal env s0 more cur (map stripQuotes (splitComma first))
                Hwf Hfair Hclock Hslots rows w Hrows) as (n & out & w' & Hrun & Hout).
    exists n, out, w'. split.
    + intros fuel Hfuel. unfold importCSVText. rewrite Hlines.
      unfold bind. rewrite (Hrun fuel Hfuel). reflexivity.
    + apply normal_fixed, Hout.
Qed.

End CsvNormalForm.

(** ** The first script *)

Section LegacyFacts.
Import Text Eff Legacy.

(** X23.  The submit handler of the first script: a blank name is refused and
    nothing is stored or drawn; any other name adds one ticket at the
    end, with the trimmed name, the selected time and an identifier of
    the fixed shape made from six samples. *)
Theorem submit_outcome env (username time : string) (tickets : list ticket) w :
  well_formed env ->
  (allWhite username = true /\
   submit env username time tickets w = Ret (tickets, true) w) \/
  (allWhite username = false /\
   exists id,
     IdGen.ticketIdShape id = true /\
     submit env username time tickets w =
     Ret (tickets ++ [ {| name := Some (trim username); time := Some time; id := Some id |} ],
          false)
         {| draws := draws w + 6; reads := reads w |}).
Proof.
  intros Hwf. unfold submit.
  destruct (allWhite username) eqn:Eblank.
  - left. apply trim_blank in Eblank. rewrite Eblank. split; reflexivity.
  - right. split; [reflexivity|].
    destruct (trim username) as [|c r] eqn:Etrim.
    { apply trim_blank in Etrim. congruence. }
    destruct (generateTicketId_shape env w Hwf) as (id & Hgen & Hshape).
    exists id. split; [exact Hshape|].
    cbn [truthy negb]. unfold bind. rewrite Hgen. reflexivity.
Qed.

Lemma splitComma_nonempty s : Csv.splitComma s <> [].
Proof.
  induction s as [|c s IH]; [discriminate|]. cbn [Csv.splitComma].
  destruct (Csv.is_comma c); [discriminate|].
  destruct (Csv.splitComma s); discriminate.
Qed.

Lemma splitComma_single a : noComma a = true -> Csv.splitComma a = [a].
Proof.
  induction a as [|c a IH]; [reflexivity|]. cbn [noComma Csv.splitComma].
  intros H. apply andb_true_iff in H as [Hc Ha]. apply negb_true_iff in Hc.
  unfold Csv.is_comma. rewrite Hc, (IH Ha). reflexivity.
Qed.

Lemma splitComma_app a rest :
  noComma a = true ->
  Csv.splitComma (a +:+ String comma rest) = a :: Csv.splitComma rest.
Proof.
  induction a as [|c a IH]; [reflexivity|]. cbn [noComma].
  intros H. apply andb_true_iff in H as [Hc Ha]. apply negb_true_iff in Hc.
  rewrite app_cons. cbn [Csv.splitComma]. unfold Csv.is_comma. rewrite Hc, (IH Ha).
  reflexivity.
Qed.

Lemma ticketOfLine_line t : writable t -> ticketOfLine (line t) = t.
Proof.
  intros (n & tm & i & -> & Hn & Htm & Hi & _).
  unfold ticketOfLine, line. cbn [name time id render].
  change ("," +:+ tm +:+ "," +:+ i) with (String comma (tm +:+ String comma i)).
  rewrite (splitComma_app n _ Hn), (splitComma_app tm _ Htm), (splitComma_single i Hi).
  reflexivity.
Qed.

Lemma line_one_line t :
  writable t -> noLF (line t) = true /\ endsWithCR (line t) = false /\ truthy (line t) = true.
Proof.
  intros (n & tm & i & -> & _ & _ & _ & Hn & Htm & Hi & Hcr).
  unfold line. cbn [name time id render]. split; [|split].
  - rewrite !noLF_app, Hn, Htm, Hi. reflexivity.
  - rewrite endsWithCR_app by discriminate.
    change ("," +:+ tm +:+ "," +:+ i) with (String comma (tm +:+ String comma i)).
    rewrite <- (app_nil_l (String comma (tm +:+ String comma i))), <- app_cons.
    rewrite endsWithCR_app by (destruct tm; discriminate).
    rewrite endsWithCR_app by discriminate.
    destruct i as [|c i]; [reflexivity|exact Hcr].
  - destruct n; reflexivity.
Qed.

Lemma splitLines_rowsText (ts : list ticket) :
  Forall writable ts ->
  Csv.splitLines (rowsText ts) = map line ts ++ [EmptyString].
Proof.
  induction 1 as [|t ts Ht _ IH]; [reflexivity|].
  destruct (line_one_line t Ht) as (Hlf & Hcr & _).
  cbn [rowsText map]. unfold Csv.newline at 1. rewrite app_cons, app_nil_l.
  rewrite splitLines_line by assumption. rewrite IH. reflexivity.
Qed.

(** X24.  The file of the first script comes back: importing the text that
    [downloadCSV] wrote for tickets whose texts fit on an unquoted line
    appends exactly these tickets, in order, to the list in memory (the
    import adds, it does not replace). *)
Theorem legacy_download_import (registry ts : list ticket) :
  Forall writable ts ->
  importCSV registry (downloadCSV ts) = registry ++ ts.
Proof.
  intros Hts. unfold importCSV, downloadCSV. f_equal.
  unfold Csv.newline. rewrite app_cons, app_nil_l.
  rewrite splitLines_line by reflexivity.
  cbn [tail]. rewrite (splitLines_rowsText ts Hts).
  induction Hts as [|t ts Ht _ IH]; [reflexivity|].
  destruct (line_one_line t Ht) as (_ & _ & Hne).
  cbn [map app List.filter]. rewrite Hne. cbn [map].
  rewrite (ticketOfLine_line t Ht), IH. reflexivity.
Qed.

End LegacyFacts.

(** ** App: the selected slot, availability, number fields, own tickets *)

Section AppFacts.
Import Eff Registry AppOps SlotBuilder.

Variable dayjs : string -> option Z.

(** X25.  The effect on the selected slot: a selection that resolves is kept;
    with a slot list that is not empty the selection resolves after the
    effect, so that [createTicket] cannot answer with the invalid-slot
    message; with the empty list the selection is the empty text. *)
Theorem syncSlotId_resolves (slots : list Slot.t) (k : string) :
  (forall s, findSlot slots k = Some s -> syncSlotId slots k = k) /\
  (slots <> [] -> exists s, findSlot slots (syncSlotId slots k) = Some s) /\
  (slots <> [] -> forall fuel env st w st' w',
     slotId st = syncSlotId slots k ->
     createTicket fuel env slots st w <> Ret (st', InvalidSlot) w') /\
  syncSlotId [] k = EmptyString.
Proof.
  assert (Hres : slots <> [] -> exists s, findSlot slots (syncSlotId slots k) = Some s).
  { intros Hne. unfold syncSlotId.
    destruct (findSlot slots k) as [s|] eqn:E; [eauto|].
    destruct slots as [|s0 more]; [contradiction|]. cbn [head option_map Text.or_else].
    destruct (Slot.id s0) as [|c r] eqn:Eid; cbn [Text.truthy].
    - exists s0. rewrite <- Eid. apply findSlot_head.
    - exists s0. rewrite <- Eid. apply findSlot_head. }
  split; [|split; [exact Hres|split; [|reflexivity]]].
  - intros s Hs. unfold syncSlotId. rewrite Hs. reflexivity.
  - intros Hne fuel env st w st' w' Hsel Hrun.
    destruct (Hres Hne) as [s Hs]. rewrite <- Hsel in Hs.
    unfold createTicket in Hrun. rewrite Hs in Hrun.
    destruct (negb (Text.truthy (Text.trim (name st)))); [discriminate|].
    destruct (Z.of_nat (capacityForSlot (tickets st) (slotId st)) >=? slotCapacity (settings st));
      [discriminate|].
    unfold bind, IdGen.randTicketId in Hrun.
    destruct (IdGen.randTicketId_loop fuel env (existingIds (tickets st)) (draws w))
      as [[id p]|]; discriminate.
Qed.

(** X26.  A slot is offered exactly when it shows a number of places left,
    and that number is positive: it is the capacity minus the count. *)
Theorem availability_offered (tickets : list Ticket.t) (st : Settings) (now : Z) (s : Slot.t) :
  (forall n, availability tickets st now s = Remaining n ->
     0 < n /\
     Z.of_nat (capacityForSlot tickets (Slot.id s)) + n = slotCapacity st /\
     disabled tickets st now s = false) /\
  (disabled tickets st now s = false ->
   exists n, availability tickets st now s = Remaining n).
Proof.
  unfold availability, disabled. cbv zeta.
  destruct (Z.geb_spec (Z.of_nat (capacityForSlot tickets (Slot.id s))) (slotCapacity st))
    as [Hfull|Hroom]; cbn [orb].
  - split; [discriminate|discriminate].
  - destruct (Slot.endISO s <? now).
    + split; [discriminate|discriminate].
    + split; [|eauto]. intros n [= <-]. repeat split; lia.
Qed.

Lemma buildSlots_loop_mono fuel : forall d m stop t idx slots,
  buildSlots_loop fuel d m stop t idx = Some slots ->
  forall fuel', (fuel <= fuel')%nat -> buildSlots_loop fuel' d m stop t idx = Some slots.
Proof.
  induction fuel as [|fuel IH]; intros d m stop t idx slots Hrun fuel' Hle; [discriminate|].
  destruct fuel' as [|fuel']; [lia|]. cbn [buildSlots_loop] in Hrun |- *.
  destruct (isBefore (Some t) stop); [|exact Hrun].
  destruct (buildSlots_loop fuel d m stop (t + m) (S idx)) as [rest|] eqn:E; [|discriminate].
  rewrite (IH _ _ _ _ _ _ E fuel' ltac:(lia)). exact Hrun.
Qed.

(** With a positive slot length the builder always returns. *)
Lemma buildSlots_returns st :
  0 < slotMinutes st ->
  exists (n : nat) slots, forall fuel, (n < fuel)%nat -> buildSlots dayjs fuel st = Some slots.
Proof.
  intros Hm. unfold buildSlots. cbv zeta.
  destruct (dayjs (start_text st)) as [a|]; [|exists 0%nat, []; reflexivity].
  destruct (dayjs (end_text st)) as [b|].
  - set (n := Z.to_nat (Z.max 0 ((b - a + slotMinutes st - 1) / slotMinutes st))).
    destruct (buildSlots_loop_run (S n) (date (schedule st)) (slotMinutes st) b a 0%nat Hm
                ltac:(lia)) as (slots & Hrun & _).
    exists n, slots. intros fuel Hfuel.
    apply (buildSlots_loop_mono _ _ _ _ _ _ _ Hrun). lia.
  - exists 0%nat, []. intros [|fuel] Hfuel; [lia|reflexivity].
Qed.

(** X27.  The three number fields of the admin form.  Whatever is typed (an
    integer, or something that is not a number), the stored slot length
    is at least 5 and the capacity and the reminder lead at least 1;
    the update changes that field only; and with the stored slot length
    the slot builder returns. *)
Theorem number_fields_bounds (st : Settings) (v : option Z) :
  let m := Z.max 5 (numberOr v 10) in
  let c := Z.max 1 (numberOr v 1) in
  let r := Z.max 1 (numberOr v 5) in
  let st' := mkSettings (eventTitle st) (location st) m (slotCapacity st)
                        (reminderMinutesBefore st) (adminPin st) (schedule st) in
  5 <= m /\ 1 <= c /\ 1 <= r /\
  SettingsStore.updateSettings (onSlotMinutes v) (SettingsStore.toObject st)
    = SettingsStore.toObject st' /\
  SettingsStore.updateSettings (onSlotCapacity v) (SettingsStore.toObject st)
    !! "slotCapacity" = Some (SettingsStore.VNum c) /\
  SettingsStore.updateSettings (onReminder v) (SettingsStore.toObject st)
    !! "reminderMinutesBefore" = Some (SettingsStore.VNum r) /\
  exists (n : nat) slots,
    forall fuel, (n < fuel)%nat -> buildSlots dayjs fuel st' = Some slots.
Proof.
  intros m c r st'.
  split; [lia|]. split; [lia|]. split; [lia|].
  split; [apply updateSettings_slotMinutes|].
  split; [unfold SettingsStore.updateSettings, onSlotCapacity;
          rewrite spread_lookup, lookup_singleton_eq; reflexivity|].
  split; [unfold SettingsStore.updateSettings, onReminder;
          rewrite spread_lookup, lookup_singleton_eq; reflexivity|].
  apply buildSlots_returns. cbn. lia.
Qed.

Lemma insertByStart_perm t (l : list Ticket.t) : insertByStart t l ≡ₚ t :: l.
Proof.
  induction l as [|u l IH]; [reflexivity|]. cbn [insertByStart].
  destruct (Ticket.slotStartISO u <? Ticket.slotStartISO t); [|reflexivity].
  rewrite IH. apply Permutation_swap.
Qed.

Lemma insertByStart_sorted t (l : list Ticket.t) :
  Sorted (fun a b => Ticket.slotStartISO a <= Ticket.slotStartISO b) l ->
  Sorted (fun a b => Ticket.slotStartISO a <= Ticket.slotStartISO b) (insertByStart t l).
Proof.
  induction 1 as [|u l Hl IH Hu]; [repeat constructor|].
  cbn [insertByStart].
  destruct (Z.ltb_spec (Ticket.slotStartISO u) (Ticket.slotStartISO t)) as [Hlt|Hge].
  - constructor; [exact IH|].
    destruct l as [|u' l]; cbn [insertByStart].
    + constructor. lia.
    + destruct (Ticket.slotStartISO u' <? Ticket.slotStartISO t);
        constructor; [inversion Hu; assumption|lia].
  - constructor; [constructor; assumption|]. constructor. exact Hge.
Qed.

Lemma insertByStart_filter t (l : list Ticket.t) k :
  filter (fun u => Ticket.slotStartISO u = k) (insertByStart t l)
  = filter (fun u => Ticket.slotStartISO u = k) (t :: l).
Proof.
  induction l as [|u l IH]; [reflexivity|]. cbn [insertByStart].
  destruct (Z.ltb_spec (Ticket.slotStartISO u) (Ticket.slotStartISO t)) as [Hlt|Hge];
    [|reflexivity].
  rewrite filter_cons, IH, !filter_cons.
  destruct (decide (Ticket.slotStartISO u = k)), (decide (Ticket.slotStartISO t = k));
    try reflexivity. lia.
Qed.

(** X28.  The list of own tickets holds the tickets of the registry, each as
    often as there, by non-decreasing slot start; tickets of one slot
    start stay in the order of the registry. *)
Theorem myTickets_sorted_stable (tickets : list Ticket.t) :
  myTickets tickets ≡ₚ tickets /\
  Sorted (fun a b => Ticket.slotStartISO a <= Ticket.slotStartISO b) (myTickets tickets) /\
  forall k, filter (fun u => Ticket.slotStartISO u = k) (myTickets tickets)
            = filter (fun u => Ticket.slotStartISO u = k) tickets.
Proof.
  unfold myTickets. induction tickets as [|t ts (Hp & Hs & Hf)]; [repeat split; constructor|].
  cbn [foldr]. split; [|split].
  - rewrite insertByStart_perm, Hp. reflexivity.
  - apply insertByStart_sorted, Hs.
  - intros k. rewrite insertByStart_filter, !filter_cons, Hf. reflexivity.
Qed.

End AppFacts.

(** ** The further properties on the sample data *)

Section MoreRuns.
Import Text Eff Sample.

Lemma env_can_issue :
  exists k, IdGen.candidate Sample.env (draws w0 + 8 * k) ∉ Registry.existingIds [ticketA].
Proof.
  exists 0%nat. intros H. apply elem_of_existingIds in H.
  cbn [map ticketA Ticket.id] in H. apply list_elem_of_singleton in H.
  vm_compute in H. discriminate.
Qed.

Lemma formFree_run :
  Registry.createTicket 1 Sample.env Sample.slots (formFree "Yamada") w0
  = Ret (formAfter, Registry.Issued "IQYHP925") (mkWorld 8 1).
Proof. vm_compute. reflexivity. Qed.

Lemma registry_ids_distinct : NoDup (map Ticket.id [ticketA; staleTicket]).
Proof.
  cbn. apply NoDup_cons. split; [|apply NoDup_singleton].
  intros H. apply list_elem_of_singleton in H. discriminate.
Qed.

Lemma buildSlots_empty_iff_witness :
  (0 < 1)%nat /\
  (SlotBuilder.buildSlots SlotBuilder.dayjs_clock 1 halfHour = Some [] <->
   SlotBuilder.isBefore (SlotBuilder.dayjs_clock (SlotBuilder.start_text halfHour))
                        (SlotBuilder.dayjs_clock (SlotBuilder.end_text halfHour)) = false).
Proof.
  split; [lia|]. apply (buildSlots_empty_iff SlotBuilder.dayjs_clock 1 halfHour). lia.
Defined.

Lemma buildSlots_never_returns_witness :
  SlotBuilder.dayjs_clock (SlotBuilder.start_text stuck) = Some 540 /\
  SlotBuilder.dayjs_clock (SlotBuilder.end_text stuck) = Some 570 /\
  540 < 570 /\
  slotMinutes stuck <= 0 /\
  SlotBuilder.buildSlots SlotBuilder.dayjs_clock 1000 stuck = None.
Proof.
  assert (H4 : slotMinutes stuck <= 0) by (cbn; lia).
  split; [reflexivity|]. split; [reflexivity|]. split; [reflexivity|]. split; [exact H4|].
  apply (buildSlots_never_returns SlotBuilder.dayjs_clock 1000 stuck 540 570
           eq_refl eq_refl eq_refl H4).
Defined.

Lemma buildSlots_ids_distinct_witness :
  SlotBuilder.buildSlots SlotBuilder.dayjs_clock 4 halfHour = Some Sample.slots /\
  NoDup (map Slot.id Sample.slots).
Proof.
  split; [reflexivity|].
  apply (buildSlots_ids_distinct SlotBuilder.dayjs_clock 4 halfHour Sample.slots eq_refl).
Defined.

Lemma buildSlots_findSlot_witness :
  SlotBuilder.buildSlots SlotBuilder.dayjs_clock 4 halfHour = Some Sample.slots /\
  slot1 ∈ Sample.slots /\
  Registry.findSlot Sample.slots (Slot.id slot1) = Some slot1.
Proof.
  assert (H : slot1 ∈ Sample.slots) by (right; left).
  split; [reflexivity|]. split; [exact H|].
  apply (buildSlots_findSlot SlotBuilder.dayjs_clock 4 halfHour Sample.slots slot1 eq_refl H).
Defined.

Lemma every_shape_drawn_witness :
  IdGen.ticketIdShape "ZZZZZ999" = true /\
  exists env, well_formed env /\ IdGen.candidate env 0 = "ZZZZZ999".
Proof. split; [reflexivity|]. apply (every_shape_drawn "ZZZZZ999" eq_refl). Defined.

Lemma createTicket_issues_witness :
  well_formed Sample.env /\
  Registry.findSlot Sample.slots (Registry.slotId (formFree "Yamada")) = Some slot1 /\
  allWhite (Registry.name (formFree "Yamada")) = false /\
  Z.of_nat (Registry.capacityForSlot (Registry.tickets (formFree "Yamada"))
                                     (Registry.slotId (formFree "Yamada")))
    < slotCapacity (Registry.settings (formFree "Yamada")) /\
  exists (n : nat) (id : string),
    IdGen.ticketIdShape id = true /\ (id ∉ Registry.existingIds [ticketA]).
Proof.
  assert (H4 : Z.of_nat (Registry.capacityForSlot (Registry.tickets (formFree "Yamada"))
                           (Registry.slotId (formFree "Yamada")))
               < slotCapacity (Registry.settings (formFree "Yamada")))
    by (vm_compute; reflexivity).
  split; [exact env_well_formed|]. split; [reflexivity|]. split; [reflexivity|].
  split; [exact H4|].
  destruct (createTicket_issues Sample.env Sample.slots (formFree "Yamada") w0 slot1
              env_well_formed eq_refl eq_refl H4 env_can_issue) as (n & id & _ & Hs & Hf).
  exists n, id. split; [exact Hs|exact Hf].
Defined.

Lemma createTicket_unknown_slot_witness :
  (forall s, s ∈ Sample.slots -> Slot.id s <> Registry.slotId formStale) /\
  Registry.createTicket 1 Sample.env Sample.slots formStale w0
  = Ret (formStale, Registry.InvalidSlot) w0.
Proof.
  assert (H : forall s, s ∈ Sample.slots -> Slot.id s <> Registry.slotId formStale).
  { apply findSlot_none. reflexivity. }
  split; [exact H|].
  apply (createTicket_unknown_slot 1 Sample.env Sample.slots formStale w0 H).
Defined.

Lemma createTicket_frame_witness :
  Registry.createTicket 1 Sample.env Sample.slots (formFree "Yamada") w0
  = Ret (formAfter, Registry.Issued "IQYHP925") (mkWorld 8 1) /\
  Registry.settings formAfter = Registry.settings (formFree "Yamada") /\
  exists t, Registry.tickets formAfter = Registry.tickets (formFree "Yamada") ++ [t] /\
            Ticket.id t = "IQYHP925".
Proof.
  split; [exact formFree_run|].
  destruct (createTicket_frame 1 Sample.env Sample.slots (formFree "Yamada") w0 formAfter
              (Registry.Issued "IQYHP925") (mkWorld 8 1) formFree_run)
    as (Hs & _ & t & Ht & Hid & _).
  split; [exact Hs|]. exists t. split; [exact Ht|exact Hid].
Defined.

Lemma createTicket_keeps_ids_distinct_witness :
  NoDup (map Ticket.id (Registry.tickets (formFree "Yamada"))) /\
  Registry.createTicket 1 Sample.env Sample.slots (formFree "Yamada") w0
  = Ret (formAfter, Registry.Issued "IQYHP925") (mkWorld 8 1) /\
  NoDup (map Ticket.id (Registry.tickets formAfter)).
Proof.
  assert (H : NoDup (map Ticket.id (Registry.tickets (formFree "Yamada"))))
    by apply NoDup_singleton.
  split; [exact H|]. split; [exact formFree_run|].
  apply (createTicket_keeps_ids_distinct 1 Sample.env Sample.slots (formFree "Yamada") w0
           formAfter (Registry.Issued "IQYHP925") (mkWorld 8 1) H formFree_run).
Defined.

Lemma formFree_within_capacity k :
  Z.of_nat (Registry.capacityForSlot (Registry.tickets (formFree "Yamada")) k)
  <= slotCapacity (Registry.settings (formFree "Yamada")).
Proof.
  cbn [Registry.tickets formFree Registry.settings halfHour slotCapacity].
  rewrite capacityForSlot_cons. destruct (decide (Ticket.slotId ticketA = k)); cbn; lia.
Qed.

Lemma createTicket_keeps_capacity_witness :
  Registry.createTicket 1 Sample.env Sample.slots (formFree "Yamada") w0
  = Ret (formAfter, Registry.Issued "IQYHP925") (mkWorld 8 1) /\
  (forall k, Z.of_nat (Registry.capacityForSlot (Registry.tickets (formFree "Yamada")) k)
             <= slotCapacity (Registry.settings (formFree "Yamada"))) /\
  (forall k, Z.of_nat (Registry.capacityForSlot (Registry.tickets (formFree "Yamada")) k)
             < slotCapacity (Registry.settings (formFree "Yamada")) + 1) /\
  Z.of_nat (Registry.capacityForSlot (Registry.tickets (formFree "Yamada"))
              (Registry.slotId (formFree "Yamada")))
  < slotCapacity (Registry.settings (formFree "Yamada")) /\
  (forall k, Z.of_nat (Registry.capacityForSlot (Registry.tickets formAfter) k)
             <= slotCapacity (Registry.settings formAfter)) /\
  (forall k, Z.of_nat (Registry.capacityForSlot (Registry.tickets formAfter) k)
             < slotCapacity (Registry.settings formAfter) + 1).
Proof.
  assert (Hlt : forall k,
    Z.of_nat (Registry.capacityForSlot (Registry.tickets (formFree "Yamada")) k)
    < slotCapacity (Registry.settings (formFree "Yamada")) + 1).
  { intros k. pose proof (formFree_within_capacity k). lia. }
  destruct (createTicket_keeps_capacity 1 Sample.env Sample.slots (formFree "Yamada") w0
              formAfter (Registry.Issued "IQYHP925") (mkWorld 8 1) formFree_run)
    as ((Hroom & _) & Hbelow & Hwithin).
  split; [exact formFree_run|]. split; [exact formFree_within_capacity|].
  split; [exact Hlt|]. split; [exact Hroom|].
  split; [exact (Hwithin formFree_within_capacity)|exact (Hbelow Hlt)].
Defined.

Lemma removeTicket_frees_one_place_witness :
  NoDup (map Ticket.id [ticketA; staleTicket]) /\
  ticketA ∈ [ticketA; staleTicket] /\
  (Registry.capacityForSlot
     (AdminOps.removeTicket true (Ticket.id ticketA) [ticketA; staleTicket])
     "2025-10-31-000"
   + (if decide (Ticket.slotId ticketA = "2025-10-31-000") then 1 else 0))%nat
  = Registry.capacityForSlot [ticketA; staleTicket] "2025-10-31-000".
Proof.
  assert (H : ticketA ∈ [ticketA; staleTicket]) by left.
  split; [exact registry_ids_distinct|]. split; [exact H|].
  apply (removeTicket_frees_one_place [ticketA; staleTicket] ticketA "2025-10-31-000"
           registry_ids_distinct H).
Defined.

Lemma createTicket_then_removeTicket_witness :
  Registry.createTicket 1 Sample.env Sample.slots (formFree "Yamada") w0
  = Ret (formAfter, Registry.Issued "IQYHP925") (mkWorld 8 1) /\
  AdminOps.removeTicket true "IQYHP925" (Registry.tickets formAfter)
  = Registry.tickets (formFree "Yamada").
Proof.
  split; [exact formFree_run|].
  apply (createTicket_then_removeTicket 1 Sample.env Sample.slots (formFree "Yamada") w0
           formAfter "IQYHP925" (mkWorld 8 1) formFree_run).
Defined.

Lemma filtered_blank_query_witness :
  allWhite "   " = true /\
  AdminOps.filtered [ticketA; staleTicket] "   " = [ticketA; staleTicket].
Proof.
  split; [reflexivity|].
  apply (filtered_blank_query [ticketA; staleTicket] "   " eq_refl).
Defined.

Lemma filtered_finds_witness :
  staleTicket ∈ [ticketA; staleTicket] /\
  "Sato Hanako" ∈ AdminOps.searchable staleTicket /\
  AdminOps.toLowerCase (trim "  SATO hanako ") = AdminOps.toLowerCase "Sato Hanako" /\
  staleTicket ∈ AdminOps.filtered [ticketA; staleTicket] "  SATO hanako ".
Proof.
  assert (H1 : staleTicket ∈ [ticketA; staleTicket]) by (right; left).
  assert (H2 : "Sato Hanako" ∈ AdminOps.searchable staleTicket) by (right; left).
  split; [exact H1|]. split; [exact H2|]. split; [reflexivity|].
  apply (filtered_finds [ticketA; staleTicket] staleTicket "Sato Hanako" "  SATO hanako "
           H1 H2 eq_refl).
Defined.

Lemma parseRow_plain_line_witness :
  Forall (fun v => noComma v = true /\ noQuote v = true) ["KLMNO456"; EmptyString; "Abe"] /\
  Csv.parseRow (Text.join Csv.sep ["KLMNO456"; EmptyString; "Abe"]) = ["KLMNO456"; "Abe"].
Proof.
  assert (H : Forall (fun v => noComma v = true /\ noQuote v = true)
                     ["KLMNO456"; EmptyString; "Abe"])
    by (repeat constructor).
  split; [exact H|].
  apply (parseRow_plain_line ["KLMNO456"; EmptyString; "Abe"] H).
Defined.

Lemma sample_clock_plain n :
  clock Sample.flat n <> EmptyString /\ noLF (clock Sample.flat n) = true.
Proof. split; [discriminate|reflexivity]. Qed.

Lemma sample_slots_plain :
  Forall (fun s => noLF (Slot.id s) = true) (slot0 :: [slot1; slot2]).
Proof. repeat constructor. Qed.

Lemma importCSVText_restores_references_witness :
  Csv.nonEmptyLines importText
  = "id,name,slot_id" :: ["KLMNO456,Abe,2025-10-31-001"; "PQRST789,Ito,2025-10-30-004"] /\
  Csv.fair Sample.flat (Registry.existingIds [ticketA]) /\
  exists (n : nat) out w',
    (forall fuel, (n < fuel)%nat ->
       Csv.importCSVText fuel Sample.flat (slot0 :: [slot1; slot2]) [ticketA] importText w0
       = Ret out w') /\
    Csv.importCSVText (S n) Sample.flat (slot0 :: [slot1; slot2]) [ticketA] importText w0
    = Ret out w' /\
    Forall (fun t => Ticket.notified t = false /\
                     exists s, s ∈ slot0 :: [slot1; slot2] /\ Csv.assigned s t) out.
Proof.
  assert (H1 : Csv.fair Sample.flat (Registry.existingIds [ticketA]))
    by exact (flat_fair _ ticketA_id_only).
  split; [reflexivity|]. split; [exact H1|].
  destruct (importCSVText_restores_references Sample.flat slot0 [slot1; slot2] [ticketA]
              importText "id,name,slot_id"
              ["KLMNO456,Abe,2025-10-31-001"; "PQRST789,Ito,2025-10-30-004"] w0 eq_refl)
    as (Hany & Hfair).
  destruct (Hfair H1) as (n & out & w' & Hrun & _).
  exists n, out, w'. split; [exact Hrun|].
  split; [exact (Hrun (S n) (Nat.lt_succ_diag_r n))|].
  exact (Hany (S n) out w' (Hrun (S n) (Nat.lt_succ_diag_r n))).
Defined.

Lemma importCSVText_then_export_import_witness :
  well_formed Sample.flat /\
  (forall n, clock Sample.flat n <> EmptyString /\ noLF (clock Sample.flat n) = true) /\
  Forall (fun s => noLF (Slot.id s) = true) (slot0 :: [slot1; slot2]) /\
  Csv.nonEmptyLines importText
  = "id,name,slot_id" :: ["KLMNO456,Abe,2025-10-31-001"; "PQRST789,Ito,2025-10-30-004"] /\
  Csv.fair Sample.flat (Registry.existingIds [ticketA]) /\
  exists (n : nat) out w',
    (forall fuel, (n < fuel)%nat ->
       Csv.importCSVText fuel Sample.flat (slot0 :: [slot1; slot2]) [ticketA] importText w0
       = Ret out w') /\
    Csv.importCSVText (S n) Sample.flat (slot0 :: [slot1; slot2]) [ticketA] importText w0
    = Ret out w' /\
    (forall fuel2 env2 w2,
       Csv.importCSVText fuel2 env2 (slot0 :: [slot1; slot2]) out (Csv.exportCSV out) w2
       = Ret out w2).
Proof.
  assert (H2 : Csv.fair Sample.flat (Registry.existingIds [ticketA]))
    by exact (flat_fair _ ticketA_id_only).
  split; [exact flat_well_formed|]. split; [exact sample_clock_plain|].
  split; [exact sample_slots_plain|]. split; [reflexivity|]. split; [exact H2|].
  destruct (importCSVText_then_export_import Sample.flat slot0 [slot1; slot2] [ticketA]
              importText "id,name,slot_id"
              ["KLMNO456,Abe,2025-10-31-001"; "PQRST789,Ito,2025-10-30-004"] w0
              flat_well_formed sample_clock_plain sample_slots_plain eq_refl)
    as (Hany & Hfair).
  destruct (Hfair H2) as (n & out & w' & Hrun & _).
  exists n, out, w'. split; [exact Hrun|].
  split; [exact (Hrun (S n) (Nat.lt_succ_diag_r n))|].
  exact (Hany (S n) out w' (Hrun (S n) (Nat.lt_succ_diag_r n))).
Defined.

Lemma submit_outcome_witness :
  well_formed Sample.env /\
  ((allWhite " Sato " = true /\
    Legacy.submit Sample.env " Sato " "09:10" oldTickets w0 = Ret (oldTickets, true) w0) \/
   (allWhite " Sato " = false /\
    exists id,
      IdGen.ticketIdShape id = true /\
      Legacy.submit Sample.env " Sato " "09:10" oldTickets w0 =
      Ret (oldTickets ++
             [ Legacy.mkTicket (Some (trim " Sato ")) (Some "09:10") (Some id) ], false)
          {| draws := draws w0 + 6; reads := reads w0 |})).
Proof.
  split; [exact env_well_formed|].
  apply (submit_outcome Sample.env " Sato " "09:10" oldTickets w0 env_well_formed).
Defined.

Lemma oldTickets_writable : Forall Legacy.writable oldTickets.
Proof.
  repeat constructor; do 3 eexists; (split; [reflexivity|]); repeat split; reflexivity.
Qed.

Lemma legacy_download_import_witness :
  Forall Legacy.writable oldTickets /\
  Legacy.importCSV oldTickets (Legacy.downloadCSV oldTickets) = oldTickets ++ oldTickets.
Proof.
  split; [exact oldTickets_writable|].
  apply (legacy_download_import oldTickets oldTickets oldTickets_writable).
Defined.

End MoreRuns.
